(** * rodPro: the query layer (query.go)

    A shallow embedding of the retry primitive [NewRetry], of [Page.Search],
    [SearchResult.Release], [Page.ElementsByJS] and of the race combinator
    [RaceContext] ([Handle], [Do]), with the properties the design document
    states about them.

    The remote browser, the cancellation contexts and the private state of
    user closures are one abstract store [W]; every external collaborator is
    a function on that store.  The embedding records each call to a
    collaborator, with its answer, in a trace, so that the number and order
    of calls can be stated. *)

From Stdlib Require Import List ZArith String Bool Lia.
Import ListNotations.

Set Implicit Arguments.

(** ** Remote values and errors *)

(** Modelled from the spec: the proto package is not part of the sources.
    A remote value carries a type and subtype tag that tells null, node and
    array objects and primitives apart.  proto.RuntimeRemoteObjectSubtype:
    the constants the query layer tests, and any other tag. *)
Inductive RuntimeRemoteObjectSubtype : Type :=
| SubtypeNone
| SubtypeArray
| SubtypeNull
| SubtypeNode
| SubtypeOther (tag : string).

Inductive RuntimeRemoteObjectType : Type :=
| TypeObject
| TypeOther (tag : string).

Record RuntimeRemoteObject : Type := {
  Type_ : RuntimeRemoteObjectType;
  Subtype : RuntimeRemoteObjectSubtype;
  ObjectID : string
}.

Definition subtype_is_array (s : RuntimeRemoteObjectSubtype) : bool :=
  match s with SubtypeArray => true | _ => false end.

Definition subtype_is_node (s : RuntimeRemoteObjectSubtype) : bool :=
  match s with SubtypeNode => true | _ => false end.

(** Modelled from the spec: the error values are declared outside query.go.
    The design names the classifications not-found, context-not-found,
    search-session-not-found, shape mismatch (a node or an array was
    expected), cancelled, and any other failure.  [ErrWrap] is an error that
    wraps another one, which errors.Is looks through. *)
Inductive error : Type :=
| ErrElementNotFound
| ErrCtxNotFound
| ErrSearchSessionNotFound
| ErrExpectElement (obj : RuntimeRemoteObject)
| ErrExpectElements (obj : RuntimeRemoteObject)
| ErrCanceled
| ErrOther (msg : string)
| ErrWrap (msg : string) (inner : error).

(** The sentinel errors the query layer classifies with errors.Is. *)
Inductive sentinel : Type :=
| IsElementNotFound
| IsCtxNotFound
| IsSearchSessionNotFound.

(** errors.Is(err, target) for the three sentinels: the chain of wrapped
    errors is searched for the target. *)
Fixpoint errors_Is (err : error) (target : sentinel) : bool :=
  match err, target with
  | ErrElementNotFound, IsElementNotFound => true
  | ErrCtxNotFound, IsCtxNotFound => true
  | ErrSearchSessionNotFound, IsSearchSessionNotFound => true
  | ErrWrap _ inner, _ => errors_Is inner target
  | _, _ => false
  end.

(** A Go panic. *)
Inductive panic_kind : Type :=
| NilDereference
| IndexOutOfRange.

(** The outcome of running a piece of the program: a value, a panic, or
    (for the unbounded polling loop only) the bound of the model reached. *)
Inductive res (A : Type) : Type :=
| Ret (a : A)
| Panicked (p : panic_kind)
| OutOfFuel.

Arguments Panicked {A} p.
Arguments OutOfFuel {A}.

(** context.Context: a token; whether it is cancelled is part of the store. *)
Record context : Type := { ctx_id : nat }.

Section Model.

Context {W : Type}.

(** A collaborator: a function that reads and updates the store. *)
Definition Act (A : Type) : Type := W -> A * W.

(** Modelled from the spec: utils.Sleeper is declared outside query.go; a
    function that takes the context token and waits, or fails
    (cancellation, deadline, the policy gives up). *)
Definition utils_Sleeper : Type := context -> Act (option error).

(** Modelled from the spec: Element is declared outside query.go.  A node
    handle is a remote object identity that carries its own Sleeper policy. *)
Record Element : Type := {
  Object : RuntimeRemoteObject;
  el_sleeper : utils_Sleeper
}.

(** Modelled from the spec: Element.Sleeper is defined outside query.go; the
    Sleeper policy of a handle can be overridden, which gives a copy of the
    handle with the other sleeper. *)
Definition Element_Sleeper (el : Element) (s : utils_Sleeper) : Element :=
  {| Object := Object el; el_sleeper := s |}.

(** Modelled from the spec: proto.DOMPerformSearchResult is declared outside
    query.go; a search answers a session identifier and a result count. *)
Record DOMPerformSearchResult : Type := {
  SearchID : string;
  ResultCount : Z
}.

(** Modelled from the spec: the entries of proto.RuntimeGetPropertiesResult
    are declared outside query.go; an own property is a name with a remote
    value. *)
Record RuntimePropertyDescriptor : Type := {
  Name : string;
  Value : RuntimeRemoteObject
}.

(** Modelled from the spec: EvalOptions and ByObject are defined outside
    query.go; an expression to evaluate remotely, here with the one option
    that ByObject sets. *)
Record EvalOptions : Type := {
  JS : string;
  ByValue : bool
}.

Definition ByObject (opts : EvalOptions) : EvalOptions :=
  {| JS := JS opts; ByValue := false |}.

#[local] Unset Elimination Schemes.

(** What the embedding records.  [EvFn] is one invocation of the function
    given to a retry loop, with what it returned (nothing when it did not
    return) and what it did. *)
Inductive event : Type :=
| EvFn (r : option (bool * option error)) (inner : list event)
| EvSleep (r : option error)
| EvEnableDomain
| EvRestore
| EvDOMPerformSearch (query : string) (shadow : bool)
    (r : DOMPerformSearchResult + error)
| EvDOMDiscardSearchResults (id : string)
| EvDOMGetSearchResults (id : string) (from to : Z) (r : list Z + error)
| EvDOMGetDocument
| EvElementFromNode (id : Z) (r : Element + error)
| EvEvaluate (opts : EvalOptions) (r : RuntimeRemoteObject + error)
| EvRuntimeGetProperties (oid : string) (own : bool)
    (r : list RuntimePropertyDescriptor + error)
| EvRelease (obj : RuntimeRemoteObject)
| EvElementFromObject (obj : RuntimeRemoteObject) (r : Element + error)
| EvCondition (i : nat) (r : option Element * option error)
| EvCallback (i : nat) (el : Element) (r : option error).

#[local] Set Elimination Schemes.

(** The program monad: store passing, with a result and the trace of the
    run. *)
Definition M (A : Type) : Type := W -> res A * W * list event.

Definition ret {A} (a : A) : M A := fun w => (Ret a, w, []).

Definition bind {A B} (m : M A) (k : A -> M B) : M B :=
  fun w =>
    match m w with
    | (Ret a, w1, t1) =>
        match k a w1 with
        | (r, w2, t2) => (r, w2, t1 ++ t2)
        end
    | (Panicked p, w1, t1) => (Panicked p, w1, t1)
    | (OutOfFuel, w1, t1) => (OutOfFuel, w1, t1)
    end.

Definition go_panic {A} (p : panic_kind) : M A := fun w => (Panicked p, w, []).

(** Call a collaborator and record the call with its answer. *)
Definition call {A} (f : Act A) (ev : A -> event) : M A :=
  fun w => match f w with (a, w1) => (Ret a, w1, [ev a]) end.

(** Run the function of a retry loop and record the invocation as one
    [EvFn] that holds what the function did. *)
Definition invoke {C} (fn : M (bool * option error * C))
  : M (bool * option error * C) :=
  fun w =>
    match fn w with
    | (Ret (stop, err, c), w1, t1) =>
        (Ret (stop, err, c), w1, [EvFn (Some (stop, err)) t1])
    | (Panicked p, w1, t1) => (Panicked p, w1, [EvFn None t1])
    | (OutOfFuel, w1, t1) => (OutOfFuel, w1, [EvFn None t1])
    end.

Definition sleep (s : utils_Sleeper) (ctx : context) : M (option error) :=
  call (s ctx) EvSleep.

End Model.

Arguments Element : clear implicits.
Arguments event : clear implicits.
Arguments M : clear implicits.
Arguments Act : clear implicits.
Arguments utils_Sleeper : clear implicits.

Declare Scope prog_scope.
Delimit Scope prog_scope with prog.
Notation "x <- m ;; k" := (bind m (fun x => k))
  (at level 100, m at next level, right associativity) : prog_scope.
Notation "' p <- m ;; k" := (bind m (fun x => match x with p => k end))
  (at level 100, p pattern, m at next level, right associativity) : prog_scope.
Notation "m ;;; k" := (bind m (fun _ => k))
  (at level 100, right associativity) : prog_scope.
Open Scope prog_scope.

(** ** The retry primitive *)

Section Retry.

Context {W : Type}.

(** RetryOptions *)
Record RetryOptions : Type := {
  Context : context;
  Sleeper : utils_Sleeper W;
  MaxRetries : Z
}.

(** The loop of NewRetry with [n] iterations left.  [fn] is a closure: [C]
    is the type of the variables it captures, passed explicitly. *)
Fixpoint NewRetry_loop {C} (n : nat) (options : RetryOptions)
  (fn : C -> M W (bool * option error * C)) (c : C) : M W (option error * C) :=
  match n with
  | O => ret (None, c)
  | S n' =>
      '(stop, err, c1) <- invoke (fn c) ;;
      if stop then ret (err, c1)
      else
        err <- sleep (Sleeper options) (Context options) ;;
        match err with
        | Some e => ret (Some e, c1)
        | None => NewRetry_loop n' options fn c1
        end
  end.

(** NewRetry: for i := 0; i < options.MaxRetries; i++ *)
Definition NewRetry {C} (options : RetryOptions)
  (fn : C -> M W (bool * option error * C)) (c : C) : M W (option error * C) :=
  NewRetry_loop (Z.to_nat (MaxRetries options)) options fn c.

End Retry.

Arguments RetryOptions : clear implicits.

(** ** Reading a trace *)

Section Traces.

Context {W : Type}.

(** Invocations of the retried function, at the level of the loop. *)
Fixpoint fn_calls (t : list (event W)) : nat :=
  match t with
  | [] => O
  | EvFn _ _ :: t' => S (fn_calls t')
  | _ :: t' => fn_calls t'
  end.

(** The answers of the Sleeper, in order, at the level of the loop. *)
Fixpoint sleeps (t : list (event W)) : list (option error) :=
  match t with
  | [] => []
  | EvSleep r :: t' => r :: sleeps t'
  | _ :: t' => sleeps t'
  end.

(** What an [EvFn] records of the result of the function. *)
Definition returned {C} (r : res (bool * option error * C))
  : option (bool * option error) :=
  match r with
  | Ret (stop, err, _) => Some (stop, err)
  | _ => None
  end.

End Traces.

(** ** Pages, the protocol client, search sessions *)

Section Query.

Context {W : Type}.

(** Modelled from the spec: Page is declared outside query.go.  Here it is
    what the query layer reads from a page: the cancellable context token
    and the default Sleeper policy. *)
Record Page : Type := {
  ctx : context;
  sleeper : utils_Sleeper W
}.

(** Modelled from the spec: Page.Sleeper is defined outside query.go; a
    per-call override of the Sleeper policy is a copy of the page with the
    other sleeper. *)
Definition Page_Sleeper (p : Page) (s : utils_Sleeper W) : Page :=
  {| ctx := ctx p; sleeper := s |}.

(** Modelled from the spec: NotFoundSleeper is not part of query.go; the
    design calls it the fail-fast, non-polling Sleeper of a lookup, whose
    failure is the not-found classification. *)
Definition NotFoundSleeper : utils_Sleeper W :=
  fun _ w => (Some ErrElementNotFound, w).

(** The call-dispatch surface: the protocol calls and the page helpers that
    query.go uses and does not define.  Each takes the page it is called on. *)
Record Client : Type := {
  EnableDomain_DOMEnable : Page -> Act W (Act W unit);
  DOMPerformSearch_Call : Page -> string -> bool ->
    Act W (DOMPerformSearchResult + error);
  DOMDiscardSearchResults_Call : Page -> string -> Act W (option error);
  DOMGetSearchResults_Call : Page -> string -> Z -> Z -> Act W (list Z + error);
  DOMGetDocument_Call : Page -> Act W (option error);
  ElementFromNode : Page -> Z -> Act W (Element W + error);
  Evaluate : Page -> EvalOptions -> Act W (RuntimeRemoteObject + error);
  RuntimeGetProperties_Call : Page -> string -> bool ->
    Act W (list RuntimePropertyDescriptor + error);
  Release : Page -> RuntimeRemoteObject -> Act W (option error);
  ElementFromObject : Page -> RuntimeRemoteObject -> Act W (Element W + error)
}.

(** SearchResult.  The embedded *proto.DOMPerformSearchResult is nil until a
    search has been performed. *)
Record SearchResult : Type := {
  sr_DOMPerformSearchResult : option DOMPerformSearchResult;
  page : Page;
  restore : Act W unit;
  First : option (Element W)
}.

Definition set_DOMPerformSearchResult (sr : SearchResult)
  (res : DOMPerformSearchResult) : SearchResult :=
  {| sr_DOMPerformSearchResult := Some res; page := page sr;
     restore := restore sr; First := First sr |}.

Definition set_First (sr : SearchResult) (el : Element W) : SearchResult :=
  {| sr_DOMPerformSearchResult := sr_DOMPerformSearchResult sr; page := page sr;
     restore := restore sr; First := Some el |}.

Variable cl : Client.

(** proto.DOMDiscardSearchResults{SearchID: id}.Call(p), result dropped. *)
Definition discard (p : Page) (id : string) : M W unit :=
  _ <- call (DOMDiscardSearchResults_Call cl p id)
         (fun _ => EvDOMDiscardSearchResults id) ;;
  ret tt.

(** The function Page.Search gives to NewRetry; [sr] is the variable it
    captures. *)
Definition search_attempt (p : Page) (query : string) (sr : SearchResult)
  : M W (bool * option error * SearchResult) :=
  match sr_DOMPerformSearchResult sr with
  | Some prev => discard p (SearchID prev)
  | None => ret tt
  end ;;;
  r <- call (DOMPerformSearch_Call cl p query true)
         (EvDOMPerformSearch query true) ;;
  match r with
  | inr err => ret (true, Some err, sr)
  | inl res =>
      let sr1 := set_DOMPerformSearchResult sr res in
      if (ResultCount res =? 0)%Z then ret (false, None, sr1)
      else
        r2 <- call (DOMGetSearchResults_Call cl p (SearchID res) 0 1)
                (EvDOMGetSearchResults (SearchID res) 0 1) ;;
        match r2 with
        | inr err =>
            if errors_Is err IsCtxNotFound
               || errors_Is err IsSearchSessionNotFound
            then ret (false, None, sr1)
            else ret (true, Some err, sr1)
        | inl NodeIds =>
            match NodeIds with
            | [] => go_panic IndexOutOfRange
            | id :: _ =>
                if (id =? 0)%Z then
                  _ <- call (DOMGetDocument_Call cl p)
                         (fun _ => EvDOMGetDocument) ;;
                  ret (false, None, sr1)
                else
                  r3 <- call (ElementFromNode cl p id) (EvElementFromNode id) ;;
                  match r3 with
                  | inr err => ret (true, Some err, sr1)
                  | inl el => ret (true, None, set_First sr1 el)
                  end
            end
        end
  end.

(** Page.Search *)
Definition Search (p : Page) (query : string)
  : M W (option SearchResult * option error) :=
  restore0 <- call (EnableDomain_DOMEnable cl p) (fun _ => EvEnableDomain) ;;
  let sr := {| sr_DOMPerformSearchResult := None; page := p;
               restore := restore0; First := None |} in
  let retryOptions :=
    {| Context := ctx p; Sleeper := sleeper p; MaxRetries := 3 |} in
  '(err, sr1) <- NewRetry retryOptions (search_attempt p query) sr ;;
  match err with
  | Some e => ret (None, Some e)
  | None => ret (Some sr1, None)
  end.

(** SearchResult.Release: s.SearchID reads through the embedded pointer. *)
Definition SearchResult_Release (s : SearchResult) : M W unit :=
  call (restore s) (fun _ => EvRestore) ;;;
  match sr_DOMPerformSearchResult s with
  | None => go_panic NilDereference
  | Some r => discard (page s) (SearchID r)
  end.

(** ** Element lists *)

Definition skipped_name (n : string) : bool :=
  (n =? "__proto__")%string || (n =? "length")%string.

(** The loop of Page.ElementsByJS over list.Result. *)
Fixpoint ElementsByJS_loop (p : Page) (l : list RuntimePropertyDescriptor)
  (elemList : list (Element W)) : M W (list (Element W) + error) :=
  match l with
  | [] => ret (inl elemList)
  | obj :: l' =>
      if skipped_name (Name obj) then ElementsByJS_loop p l' elemList
      else
        let val := Value obj in
        if negb (subtype_is_node (Subtype val))
        then ret (inr (ErrExpectElements val))
        else
          r <- call (ElementFromObject cl p val) (EvElementFromObject val) ;;
          match r with
          | inr err => ret (inr err)
          | inl el => ElementsByJS_loop p l' (elemList ++ [el])
          end
  end.

(** Page.ElementsByJS.  The deferred function runs after the result is
    fixed; it assigns the error of Release to a local variable, which the
    unnamed results do not read. *)
Definition ElementsByJS (p : Page) (opts : EvalOptions)
  : M W (list (Element W) + error) :=
  r <- call (Evaluate cl p (ByObject opts)) (EvEvaluate (ByObject opts)) ;;
  match r with
  | inr err => ret (inr err)
  | inl res =>
      if negb (subtype_is_array (Subtype res))
      then ret (inr (ErrExpectElements res))
      else
        out <- (l <- call (RuntimeGetProperties_Call cl p (ObjectID res) true)
                       (EvRuntimeGetProperties (ObjectID res) true) ;;
                match l with
                | inr err => ret (inr err)
                | inl props => ElementsByJS_loop p props []
                end) ;;
        _ <- call (Release cl p res) (fun _ => EvRelease res) ;;
        ret out
  end.

(** ** The race *)

Record raceBranch : Type := {
  condition : Page -> Act W (option (Element W) * option error);
  callback : option (Element W -> Act W (option error))
}.

Record RaceContext : Type := {
  rc_page : Page;
  branches : list raceBranch
}.

(** Page.Race *)
Definition Race (p : Page) : RaceContext :=
  {| rc_page := p; branches := [] |}.

(** RaceContext.ElementFunc *)
Definition ElementFunc (rc : RaceContext)
  (fn : Page -> Act W (option (Element W) * option error)) : RaceContext :=
  {| rc_page := rc_page rc;
     branches := branches rc ++ [{| condition := fn; callback := None |}] |}.

(** s[i].callback = cb on a slice of branches, None when i is out of range. *)
Fixpoint set_callback (bs : list raceBranch) (i : nat)
  (cb : option (Element W -> Act W (option error))) : option (list raceBranch) :=
  match bs, i with
  | [], _ => None
  | b :: bs', O => Some ({| condition := condition b; callback := cb |} :: bs')
  | b :: bs', S i' =>
      match set_callback bs' i' cb with
      | Some r => Some (b :: r)
      | None => None
      end
  end.

(** RaceContext.Handle: rc.branches[len(rc.branches)-1].callback = callback *)
Definition Handle (rc : RaceContext)
  (cb : option (Element W -> Act W (option error))) : res RaceContext :=
  let i := (Z.of_nat (List.length (branches rc)) - 1)%Z in
  if (i <? 0)%Z then Panicked IndexOutOfRange
  else
    match set_callback (branches rc) (Z.to_nat i) cb with
    | Some bs => Ret {| rc_page := rc_page rc; branches := bs |}
    | None => Panicked IndexOutOfRange
    end.

(** Modelled from the spec: utils.Retry is not part of query.go.  The design
    describes it as the retry loop without a bound: run the function; stop
    with its error when it says stop; otherwise wait on the Sleeper, fail
    with the Sleeper's failure, or go round again.  [fuel] bounds the
    number of rounds the model follows. *)
Fixpoint utils_Retry {C} (fuel : nat) (c0 : context) (s : utils_Sleeper W)
  (fn : C -> M W (bool * option error * C)) (c : C) : M W (option error * C) :=
  match fuel with
  | O => fun w => (OutOfFuel, w, [])
  | S fuel' =>
      '(stop, err, c1) <- invoke (fn c) ;;
      if stop then ret (err, c1)
      else
        err <- sleep s c0 ;;
        match err with
        | Some e => ret (Some e, c1)
        | None => utils_Retry fuel' c0 s fn c1
        end
  end.

(** The loop over rc.branches in the function RaceContext.Do gives to
    utils.Retry; [i] is the position of the first branch of [bs] and [el]
    the variable the function captures. *)
Fixpoint race_tick (p : Page) (bs : list raceBranch) (i : nat)
  (el : option (Element W)) : M W (bool * option error * option (Element W)) :=
  match bs with
  | [] => ret (false, None, el)
  | branch :: bs' =>
      '(bEl, err) <- call (condition branch (Page_Sleeper p NotFoundSleeper))
                       (EvCondition i) ;;
      match err with
      | None =>
          match bEl with
          | None => go_panic NilDereference
          | Some b =>
              let el1 := Element_Sleeper b (sleeper p) in
              match callback branch with
              | Some cb =>
                  err1 <- call (cb el1) (EvCallback i el1) ;;
                  ret (true, err1, Some el1)
              | None => ret (true, None, Some el1)
              end
          end
      | Some e =>
          if negb (errors_Is e IsElementNotFound) then ret (true, Some e, el)
          else race_tick p bs' (S i) el
      end
  end.

(** RaceContext.Do *)
Definition Do (fuel : nat) (rc : RaceContext)
  : M W (option (Element W) * option error) :=
  '(err, el) <- utils_Retry fuel (ctx (rc_page rc)) (sleeper (rc_page rc))
                  (race_tick (rc_page rc) (branches rc) 0) None ;;
  ret (el, err).

End Query.

Arguments Page : clear implicits.
Arguments Client : clear implicits.
Arguments SearchResult : clear implicits.
Arguments raceBranch : clear implicits.
Arguments RaceContext : clear implicits.

(** ** Reading the trace of a search *)

Section SearchTraces.

Context {W : Type}.

(** What an attempt does first: it discards the session of the previous
    attempt, when there is one. *)
Definition prior_discard (sr : SearchResult W) : list (event W) :=
  match sr_DOMPerformSearchResult sr with
  | Some prev => [EvDOMDiscardSearchResults (SearchID prev)]
  | None => []
  end.

(** The classification of a failed fetch that Page.Search retries on. *)
Definition transient (err : error) : bool :=
  errors_Is err IsCtxNotFound || errors_Is err IsSearchSessionNotFound.

(** The options Page.Search retries with, and the result it starts from. *)
Definition search_options (p : Page W) : RetryOptions W :=
  {| Context := ctx p; Sleeper := sleeper p; MaxRetries := 3 |}.

Definition new_SearchResult (p : Page W) (rst : Act W unit) : SearchResult W :=
  {| sr_DOMPerformSearchResult := None; page := p; restore := rst;
     First := None |}.

(** The own properties Page.ElementsByJS does not skip. *)
Definition kept (props : list RuntimePropertyDescriptor)
  : list RuntimePropertyDescriptor :=
  filter (fun d => negb (skipped_name (Name d))) props.

(** The calls that turn the values of [ds] into the elements [els]. *)
Definition materialized (ds : list RuntimePropertyDescriptor)
  (els : list (Element W)) : list (event W) :=
  map (fun x => EvElementFromObject (Value (fst x)) (inl (snd x)))
      (combine ds els).

End SearchTraces.

Section SearchOutcomes.

Context {W : Type}.
Variable query : string.
Variable sr : SearchResult W.

(** The ways one attempt of Page.Search can go, with the result of the
    attempt and its trace; one constructor per return of the function. *)
Inductive attempt_outcome
  : res (bool * option error * SearchResult W) -> list (event W) -> Prop :=
| search_fails (err : error) :
    attempt_outcome (Ret (true, Some err, sr))
      (prior_discard sr ++ [EvDOMPerformSearch query true (inr err)])
| no_result (r : DOMPerformSearchResult) :
    ResultCount r = 0%Z ->
    attempt_outcome (Ret (false, None, set_DOMPerformSearchResult sr r))
      (prior_discard sr ++ [EvDOMPerformSearch query true (inl r)])
| fetch_fails (r : DOMPerformSearchResult) (err : error) :
    ResultCount r <> 0%Z ->
    attempt_outcome
      (Ret (if transient err
            then (false, None, set_DOMPerformSearchResult sr r)
            else (true, Some err, set_DOMPerformSearchResult sr r)))
      (prior_discard sr ++
       [EvDOMPerformSearch query true (inl r);
        EvDOMGetSearchResults (SearchID r) 0 1 (inr err)])
| no_node_id (r : DOMPerformSearchResult) :
    ResultCount r <> 0%Z ->
    attempt_outcome (Panicked IndexOutOfRange)
      (prior_discard sr ++
       [EvDOMPerformSearch query true (inl r);
        EvDOMGetSearchResults (SearchID r) 0 1 (inl [])])
| document_updated (r : DOMPerformSearchResult) (ids : list Z) :
    ResultCount r <> 0%Z ->
    attempt_outcome (Ret (false, None, set_DOMPerformSearchResult sr r))
      (prior_discard sr ++
       [EvDOMPerformSearch query true (inl r);
        EvDOMGetSearchResults (SearchID r) 0 1 (inl (0%Z :: ids));
        EvDOMGetDocument])
| node_fails (r : DOMPerformSearchResult) (id : Z) (ids : list Z)
    (err : error) :
    ResultCount r <> 0%Z ->
    id <> 0%Z ->
    attempt_outcome (Ret (true, Some err, set_DOMPerformSearchResult sr r))
      (prior_discard sr ++
       [EvDOMPerformSearch query true (inl r);
        EvDOMGetSearchResults (SearchID r) 0 1 (inl (id :: ids));
        EvElementFromNode id (inr err)])
| node_found (r : DOMPerformSearchResult) (id : Z) (ids : list Z)
    (el : Element W) :
    ResultCount r <> 0%Z ->
    id <> 0%Z ->
    attempt_outcome
      (Ret (true, None, set_First (set_DOMPerformSearchResult sr r) el))
      (prior_discard sr ++
       [EvDOMPerformSearch query true (inl r);
        EvDOMGetSearchResults (SearchID r) 0 1 (inl (id :: ids));
        EvElementFromNode id (inl el)]).

End SearchOutcomes.

(** ** Reading the trace of a race *)

Section RaceTraces.

Context {W : Type}.

(** A condition answered with the not-found classification. *)
Definition not_found_answer (r : option (Element W) * option error) : bool :=
  match snd r with
  | Some e => errors_Is e IsElementNotFound
  | None => false
  end.

(** The conditions of consecutive branches, from position [i] on, with
    their answers. *)
Fixpoint cond_events (i : nat) (rs : list (option (Element W) * option error))
  : list (event W) :=
  match rs with
  | [] => []
  | r :: rs' => EvCondition i r :: cond_events (S i) rs'
  end.

(** The call of the callback of a branch, when it has one. *)
Definition callback_events (b : raceBranch W) (i : nat) (el : Element W)
  (err : option error) : list (event W) :=
  match callback b with
  | Some _ => [EvCallback i el err]
  | None => []
  end.

Variable p : Page W.
Variable bs : list (raceBranch W).
Variable i : nat.
Variable el : option (Element W).

(** The ways one tick of RaceContext.Do can go over the branches [bs], the
    first of which has position [i]: the conditions are evaluated in order,
    and all but the last one evaluated answered not-found. *)
Inductive tick_outcome
  : res (bool * option error * option (Element W)) -> list (event W) -> Prop :=
| nobody_yet (rs : list (option (Element W) * option error)) :
    Forall (fun r => not_found_answer r = true) rs ->
    List.length rs = List.length bs ->
    tick_outcome (Ret (false, None, el)) (cond_events i rs)
| winner (rs : list (option (Element W) * option error)) (b : raceBranch W)
    (bEl : Element W) (cberr : option error) :
    Forall (fun r => not_found_answer r = true) rs ->
    nth_error bs (List.length rs) = Some b ->
    (callback b = None -> cberr = None) ->
    tick_outcome
      (Ret (true, cberr, Some (Element_Sleeper bEl (sleeper p))))
      (cond_events i rs ++
       EvCondition (List.length rs + i) (Some bEl, None) ::
       callback_events b (List.length rs + i)
         (Element_Sleeper bEl (sleeper p)) cberr)
| fatal (rs : list (option (Element W) * option error))
    (x : option (Element W)) (e : error) :
    Forall (fun r => not_found_answer r = true) rs ->
    (List.length rs < List.length bs)%nat ->
    errors_Is e IsElementNotFound = false ->
    tick_outcome (Ret (true, Some e, el))
      (cond_events i rs ++ [EvCondition (List.length rs + i) (x, Some e)])
| nil_element (rs : list (option (Element W) * option error)) :
    Forall (fun r => not_found_answer r = true) rs ->
    (List.length rs < List.length bs)%nat ->
    tick_outcome (Panicked NilDereference)
      (cond_events i rs ++ [EvCondition (List.length rs + i) (None, None)]).

End RaceTraces.

(** ** Scenarios

    Concrete stores, sleepers and closures on which the general statements
    are run.  The store is a counter of the waits that were granted. *)

Module Scenario.

Definition background : context := {| ctx_id := 0 |}.

(** A sleeper that always lets the loop go on. *)
Definition patient : utils_Sleeper nat := fun _ w => (None, S w).

(** A sleeper whose context is already cancelled. *)
Definition cancelled : utils_Sleeper nat := fun _ w => (Some ErrCanceled, w).

(** A sleeper that fails on its third wait. *)
Definition third_wait_fails : utils_Sleeper nat :=
  fun _ w => if Nat.eqb w 2 then (Some ErrCanceled, w) else (None, S w).

(** A function that never says stop. *)
Definition never_stop : unit -> M nat (bool * option error * unit) :=
  fun c => ret (false, None, c).

Definition one_attempt : RetryOptions nat :=
  {| Context := background; Sleeper := patient; MaxRetries := 1 |}.

Definition five_attempts : RetryOptions nat :=
  {| Context := background; Sleeper := third_wait_fails; MaxRetries := 5 |}.

(** Pages of the scenarios. *)
Definition pg : Page nat := {| ctx := background; sleeper := patient |}.

Definition pg_cancelled : Page nat :=
  {| ctx := background; sleeper := cancelled |}.

Definition node_object (id : string) : RuntimeRemoteObject :=
  {| Type_ := TypeObject; Subtype := SubtypeNode; ObjectID := id |}.

Definition array_object : RuntimeRemoteObject :=
  {| Type_ := TypeObject; Subtype := SubtypeArray; ObjectID := "arr" |}.

Definition number_value : RuntimeRemoteObject :=
  {| Type_ := TypeOther "number"; Subtype := SubtypeNone; ObjectID := "" |}.

Definition handle (p : Page nat) (obj : RuntimeRemoteObject) : Element nat :=
  {| Object := obj; el_sleeper := sleeper p |}.

(** The search session of the attempt made after [w] granted waits. *)
Definition session (w : nat) : string :=
  match w with
  | O => "s1"
  | S O => "s2"
  | _ => "s3"
  end.

(** A browser in which a search finds [count] nodes, the fetch of search
    results answers [fetch], and an evaluation yields an array with the
    own properties [props]. *)
Definition browser (count : Z) (fetch : list Z + error)
  (props : list RuntimePropertyDescriptor) : Client nat :=
  {| EnableDomain_DOMEnable := fun _ w => (fun w0 => (tt, w0), w);
     DOMPerformSearch_Call := fun _ _ _ w =>
       (inl {| SearchID := session w; ResultCount := count |}, w);
     DOMDiscardSearchResults_Call := fun _ _ w => (None, w);
     DOMGetSearchResults_Call := fun _ _ _ _ w => (fetch, w);
     DOMGetDocument_Call := fun _ w => (None, w);
     ElementFromNode := fun p _ w => (inl (handle p (node_object "n")), w);
     Evaluate := fun _ _ w => (inl array_object, w);
     RuntimeGetProperties_Call := fun _ _ _ w => (inl props, w);
     Release := fun _ _ w => (None, w);
     ElementFromObject := fun p obj w => (inl (handle p obj), w) |}.

Definition no_match : Client nat := browser 0 (inl []) [].

Definition fetch_fails : Client nat := browser 2 (inr (ErrOther "boom")) [].

Definition session_lost : Client nat :=
  browser 2 (inr ErrSearchSessionNotFound) [].

Definition document_replaced : Client nat := browser 1 (inl [0%Z]) [].

(** What the first attempt of a search does in [fetch_fails]. *)
Definition failed_fetch : list (event nat) :=
  [EvDOMPerformSearch "q" true (inl {| SearchID := "s1"; ResultCount := 2 |});
   EvDOMGetSearchResults "s1" 0 1 (inr (ErrOther "boom"))].

(** What the first attempt of a search does in [document_replaced]. *)
Definition refreshed : list (event nat) :=
  [EvDOMPerformSearch "q" true (inl {| SearchID := "s1"; ResultCount := 1 |});
   EvDOMGetSearchResults "s1" 0 1 (inl [0%Z]);
   EvDOMGetDocument].

(** The own properties of an array of three nodes. *)
Definition three_nodes : list RuntimePropertyDescriptor :=
  [ {| Name := "0"; Value := node_object "a" |};
    {| Name := "1"; Value := node_object "b" |};
    {| Name := "2"; Value := node_object "c" |};
    {| Name := "length"; Value := number_value |};
    {| Name := "__proto__"; Value := array_object |} ].

Definition node_list : Client nat := browser 0 (inl []) three_nodes.

Definition any_js : EvalOptions := {| JS := "() => [a, b, c]"; ByValue := true |}.

(** Branches of a race: one that finds a node at once, one that does not
    find it, one whose lookup fails for another reason. *)
Definition finds (id : string) : raceBranch nat :=
  {| condition := fun p w => ((Some (handle p (node_object id)), None), w);
     callback := None |}.

Definition absent : raceBranch nat :=
  {| condition := fun _ w => ((None, Some ErrElementNotFound), w);
     callback := None |}.

Definition broken : raceBranch nat :=
  {| condition := fun _ w => ((None, Some (ErrOther "crash")), w);
     callback := None |}.

Definition race_of (bs : list (raceBranch nat)) : RaceContext nat :=
  {| rc_page := pg; branches := bs |}.

(** A callback that reports a problem of its own. *)
Definition complain : option (Element nat -> Act nat (option error)) :=
  Some (fun _ w => (Some (ErrOther "callback"), w)).

(** The element a race on [pg] returns for the node [id]. *)
Definition found (id : string) : Element nat :=
  Element_Sleeper (handle (Page_Sleeper pg NotFoundSleeper) (node_object id))
    (sleeper pg).

(** The tick in which the second of three branches fails for good. *)
Definition crashed : list (event nat) :=
  [EvCondition 0 (None, Some ErrElementNotFound);
   EvCondition 1 (None, Some (ErrOther "crash"))].

(** What a search that finds nothing returns on [pg]. *)
Definition empty_handed : SearchResult nat :=
  set_DOMPerformSearchResult (new_SearchResult pg (fun w0 => (tt, w0)))
    {| SearchID := "s3"; ResultCount := 0 |}.

End Scenario.

(** ** The rest of the query layer

    The single-element lookup, the Has family, the page and element list
    helpers, the paging of a search result, and the function that
    RaceContext.Search registers. *)

(** Go's int: the sum of two indexes wraps at 64 bits. *)
Definition wrap_int (z : Z) : Z :=
  ((z + 2 ^ 63) mod 2 ^ 64 - 2 ^ 63)%Z.

(** The helper functions of the js package that query.go hands to
    evalHelper. *)
Inductive js_function : Type :=
| js_Element
| js_ElementR
| js_ElementX
| js_Elements
| js_ElementsX
| js_Parents.

Section Lists.

Context {A : Type}.

(** els[i] on a slice: a panic when the index is out of range. *)
Definition index (els : list A) (i : Z) : res A :=
  if (i <? 0)%Z then Panicked IndexOutOfRange
  else
    match nth_error els (Z.to_nat i) with
    | Some x => Ret x
    | None => Panicked IndexOutOfRange
    end.

(** Elements.Empty, Pages.Empty *)
Definition Empty (els : list A) : bool :=
  (Z.of_nat (List.length els) =? 0)%Z.

(** Elements.First, Pages.First: nil (None) on the empty list. *)
Definition First_ (els : list A) : res (option A) :=
  if Empty els then Ret None
  else
    match index els 0 with
    | Ret x => Ret (Some x)
    | Panicked pk => Panicked pk
    | OutOfFuel => OutOfFuel
    end.

(** Elements.Last, Pages.Last: els[len(els)-1]. *)
Definition Last_ (els : list A) : res (option A) :=
  if Empty els then Ret None
  else
    match index els (Z.of_nat (List.length els) - 1) with
    | Ret x => Ret (Some x)
    | Panicked pk => Panicked pk
    | OutOfFuel => OutOfFuel
    end.

End Lists.

Section QueryRest.

Context {W : Type}.
Variable cl : Client W.

(** The part of the page that query.go uses and does not define, beyond the
    protocol client: the debug trace marker (tryTraceQuery answers the
    function that removes the marker), the builder of evaluation options,
    and the error of a page list in which nothing was found. *)
Variable tryTraceQuery : Page W -> EvalOptions -> Act W (Act W unit).
Variable evalHelper : js_function -> list string -> EvalOptions.
Variable ErrPageNotFound : error.

(** A call to a collaborator that the trace does not record. *)
Definition quiet {A} (f : Act W A) : M W A :=
  fun w => match f w with (a, w1) => (Ret a, w1, []) end.

(** The variables the function of Page.ElementByJS captures. *)
Record byjs_vars : Type := {
  byjs_res : option RuntimeRemoteObject;
  removeTrace : Act W unit
}.

Definition type_is_object (t : RuntimeRemoteObjectType) : bool :=
  match t with TypeObject => true | _ => false end.

Definition subtype_is_null (s : RuntimeRemoteObjectSubtype) : bool :=
  match s with SubtypeNull => true | _ => false end.

(** res.Type == object && res.Subtype == null: nothing is there yet. *)
Definition is_null_object (v : RuntimeRemoteObject) : bool :=
  type_is_object (Type_ v) && subtype_is_null (Subtype v).

(** The function Page.ElementByJS gives to utils.Retry. *)
Definition ElementByJS_attempt (p : Page W) (opts : EvalOptions) (c : byjs_vars)
  : M W (bool * option error * byjs_vars) :=
  remove <- quiet (tryTraceQuery p opts) ;;
  _ <- quiet (removeTrace c) ;;
  r <- call (Evaluate cl p (ByObject opts)) (EvEvaluate (ByObject opts)) ;;
  match r with
  | inr err =>
      ret (true, Some err, {| byjs_res := None; removeTrace := remove |})
  | inl res0 =>
      let c1 := {| byjs_res := Some res0; removeTrace := remove |} in
      if is_null_object res0
      then ret (false, None, c1)
      else ret (true, None, c1)
  end.

(** Page.ElementByJS, for a page that has a sleeper; [fuel] bounds the
    rounds of utils.Retry that the model follows.  The calls that set and
    remove the trace marker change the store and are not recorded. *)
Definition ElementByJS (fuel : nat) (p : Page W) (opts : EvalOptions)
  : M W (Element W + error) :=
  '(err, c) <- utils_Retry fuel (ctx p) (sleeper p) (ElementByJS_attempt p opts)
                 {| byjs_res := None; removeTrace := fun w => (tt, w) |} ;;
  _ <- quiet (removeTrace c) ;;
  match err with
  | Some e => ret (inr e)
  | None =>
      match byjs_res c with
      | None => go_panic NilDereference
      | Some res0 =>
          if negb (subtype_is_node (Subtype res0))
          then ret (inr (ErrExpectElement res0))
          else call (ElementFromObject cl p res0) (EvElementFromObject res0)
      end
  end.

(** Page.Element, Page.ElementR, Page.ElementX *)
Definition Page_Element (fuel : nat) (p : Page W) (selector : string) :=
  ElementByJS fuel p (evalHelper js_Element [selector]).

Definition Page_ElementR (fuel : nat) (p : Page W) (selector jsRegex : string) :=
  ElementByJS fuel p (evalHelper js_ElementR [selector; jsRegex]).

Definition Page_ElementX (fuel : nat) (p : Page W) (xPath : string) :=
  ElementByJS fuel p (evalHelper js_ElementX [xPath]).

(** Page.Elements, Page.ElementsX *)
Definition Page_Elements (p : Page W) (selector : string) :=
  ElementsByJS cl p (evalHelper js_Elements [selector]).

Definition Page_ElementsX (p : Page W) (xpath : string) :=
  ElementsByJS cl p (evalHelper js_ElementsX [xpath]).

(** What Page.Has, Page.HasX and Page.HasR do with the answer of the
    lookup they made under NotFoundSleeper. *)
Definition has_result (p : Page W) (r : Element W + error)
  : M W (bool * option (Element W) * option error) :=
  match r with
  | inr err =>
      if errors_Is err IsElementNotFound then ret (false, None, None)
      else ret (false, None, Some err)
  | inl el => ret (true, Some (Element_Sleeper el (sleeper p)), None)
  end.

(** Page.Has *)
Definition Page_Has (fuel : nat) (p : Page W) (selector : string)
  : M W (bool * option (Element W) * option error) :=
  r <- Page_Element fuel (Page_Sleeper p NotFoundSleeper) selector ;;
  has_result p r.

(** Page.HasX *)
Definition Page_HasX (fuel : nat) (p : Page W) (selector : string)
  : M W (bool * option (Element W) * option error) :=
  r <- Page_ElementX fuel (Page_Sleeper p NotFoundSleeper) selector ;;
  has_result p r.

(** Page.HasR *)
Definition Page_HasR (fuel : nat) (p : Page W) (selector jsRegex : string)
  : M W (bool * option (Element W) * option error) :=
  r <- Page_ElementR fuel (Page_Sleeper p NotFoundSleeper) selector jsRegex ;;
  has_result p r.

(** Pages.Find *)
Fixpoint Pages_Find (fuel : nat) (ps : list (Page W)) (selector : string)
  : M W (option (Page W) * option error) :=
  match ps with
  | [] => ret (None, Some ErrPageNotFound)
  | page0 :: ps' =>
      '(has, _, err) <- Page_Has fuel page0 selector ;;
      match err with
      | Some e => ret (None, Some e)
      | None =>
          if has then ret (Some page0, None)
          else Pages_Find fuel ps' selector
      end
  end.

(** The loop of SearchResult.Get over result.NodeIds. *)
Fixpoint Get_loop (p : Page W) (ids : list Z) (list_ : list (Element W))
  : M W (list (Element W) + error) :=
  match ids with
  | [] => ret (inl list_)
  | id :: ids' =>
      r <- call (ElementFromNode cl p id) (EvElementFromNode id) ;;
      match r with
      | inr err => ret (inr err)
      | inl el => Get_loop p ids' (list_ ++ [el])
      end
  end.

(** SearchResult.Get: s.SearchID reads through the embedded pointer. *)
Definition SearchResult_Get (s : SearchResult W) (i l : Z)
  : M W (list (Element W) + error) :=
  match sr_DOMPerformSearchResult s with
  | None => go_panic NilDereference
  | Some r =>
      x <- call (DOMGetSearchResults_Call cl (page s) (SearchID r) i
                   (wrap_int (i + l)))
             (EvDOMGetSearchResults (SearchID r) i (wrap_int (i + l))) ;;
      match x with
      | inr err => ret (inr err)
      | inl ids => Get_loop (page s) ids []
      end
  end.

(** SearchResult.All *)
Definition SearchResult_All (s : SearchResult W)
  : M W (list (Element W) + error) :=
  match sr_DOMPerformSearchResult s with
  | None => go_panic NilDereference
  | Some r => SearchResult_Get s 0 (ResultCount r)
  end.

(** The function RaceContext.Search registers as the condition of a
    branch. *)
Definition RaceContext_Search_fn (query : string) (p : Page W)
  : M W (option (Element W) * option error) :=
  '(res0, err) <- Search cl p query ;;
  match err with
  | Some e => ret (None, Some e)
  | None =>
      match res0 with
      | None => go_panic NilDereference
      | Some sr => SearchResult_Release cl sr ;;; ret (First sr, None)
      end
  end.

(** WebObject.SearchParams of the README, on the page of the WebObject. *)
Definition SearchParams (p : Page W) (text : string)
  : M W (option (SearchResult W) * bool) :=
  '(search, err) <- Search cl p text ;;
  match err with
  | Some _ => ret (search, false)
  | None =>
      match search with
      | None => go_panic NilDereference
      | Some sr =>
          match sr_DOMPerformSearchResult sr with
          | None => go_panic NilDereference
          | Some r => ret (search, negb (ResultCount r =? 0)%Z)
          end
      end
  end.

(** The pages [ps], examined in order from the store [w], all answer that
    they do not have the element, without error: the store after the last
    of them. *)
Fixpoint none_has (fuel : nat) (ps : list (Page W)) (selector : string) (w : W)
  : option W :=
  match ps with
  | [] => Some w
  | page0 :: ps' =>
      match Page_Has fuel page0 selector w with
      | (Ret (false, _, None), w1, _) => none_has fuel ps' selector w1
      | _ => None
      end
  end.

End QueryRest.

Section MoreTraces.

Context {W : Type}.

(** What the recorded invocations did, one after the other. *)
Fixpoint inner_events (t : list (event W)) : list (event W) :=
  match t with
  | [] => []
  | EvFn _ inner :: t' => inner ++ inner_events t'
  | _ :: t' => inner_events t'
  end.

(** The sessions that successful searches created, in order. *)
Fixpoint created (t : list (event W)) : list string :=
  match t with
  | [] => []
  | EvDOMPerformSearch _ _ (inl r) :: t' => SearchID r :: created t'
  | _ :: t' => created t'
  end.

(** The sessions that were discarded, in order. *)
Fixpoint discarded (t : list (event W)) : list string :=
  match t with
  | [] => []
  | EvDOMDiscardSearchResults id :: t' => id :: discarded t'
  | _ :: t' => discarded t'
  end.

(** The answers of the remote evaluations, in order. *)
Fixpoint evaluations (t : list (event W))
  : list (RuntimeRemoteObject + error) :=
  match t with
  | [] => []
  | EvEvaluate _ r :: t' => r :: evaluations t'
  | _ :: t' => evaluations t'
  end.

(** The session a SearchResult holds, if any. *)
Definition outstanding (sr : SearchResult W) : list string :=
  match sr_DOMPerformSearchResult sr with
  | Some r => [SearchID r]
  | None => []
  end.

(** What the callers of Page.Has, Page.HasX and Page.HasR can rely on: the
    lookup returns after one evaluation; it says true exactly when it gives
    an element, which then has the sleeper of the page and comes with no
    error; an error is never of the not-found classification and comes
    with false. *)
Definition has_contract (p : Page W)
  (run : res (bool * option (Element W) * option error) * W * list (event W))
  : Prop :=
  exists has el err,
    fst (fst run) = Ret (has, el, err)
    /\ (has = true <-> exists x, el = Some x)
    /\ (forall x, el = Some x -> el_sleeper x = sleeper p /\ err = None)
    /\ (forall e, err = Some e ->
          errors_Is e IsElementNotFound = false /\ has = false)
    /\ List.length (evaluations (inner_events (snd run))) = 1%nat.

(** The calls that turn the node identifiers [ids] into the elements
    [els]. *)
Definition from_nodes (ids : list Z) (els : list (Element W))
  : list (event W) :=
  map (fun x => EvElementFromNode (fst x) (inl (snd x))) (combine ids els).

(** The store in which an attempt of Page.Search issues its search: the
    one the discard of the previous session leaves, when there is one. *)
Definition after_prior_discard (cl : Client W) (p : Page W)
  (sr : SearchResult W) (w : W) : W :=
  match sr_DOMPerformSearchResult sr with
  | Some prev => snd (DOMDiscardSearchResults_Call cl p (SearchID prev) w)
  | None => w
  end.

(** The invocations of the retried function that a trace records, in
    order: what each returned and what it did. *)
Fixpoint attempts (t : list (event W))
  : list (option (bool * option error) * list (event W)) :=
  match t with
  | [] => []
  | EvFn r inner :: t' => (r, inner) :: attempts t'
  | _ :: t' => attempts t'
  end.

(** The conditions of the branches [bs], called one after the other from
    the store [w] on the page a race gives them: their answers and the
    store after the last. *)
Fixpoint eval_conditions (p : Page W) (bs : list (raceBranch W)) (w : W)
  : list (option (Element W) * option error) * W :=
  match bs with
  | [] => ([], w)
  | b :: bs' =>
      match condition b (Page_Sleeper p NotFoundSleeper) w with
      | (r, w1) =>
          match eval_conditions p bs' w1 with
          | (rs, w2) => (r :: rs, w2)
          end
      end
  end.

(** The callback of a branch, if it has one, called on [el] in the store
    [w]: its error and the store after it. *)
Definition callback_run (b : raceBranch W) (el : Element W) (w : W)
  : option error * W :=
  match callback b with
  | Some cb => cb el w
  | None => (None, w)
  end.

(** One tick in which every condition answers not-found and the wait that
    follows succeeds: the store after the wait. *)
Definition idle_tick (rc : RaceContext W) (w : W) : option W :=
  match eval_conditions (rc_page rc) (branches rc) w with
  | (rs, w1) =>
      if forallb not_found_answer rs
      then match sleeper (rc_page rc) (ctx (rc_page rc)) w1 with
           | (None, w2) => Some w2
           | (Some _, _) => None
           end
      else None
  end.

(** [n] such ticks in a row. *)
Fixpoint idle_ticks (rc : RaceContext W) (n : nat) (w : W) : option W :=
  match n with
  | O => Some w
  | S m =>
      match idle_tick rc w with
      | Some w1 => idle_ticks rc m w1
      | None => None
      end
  end.

(** What [n] such ticks record: on each, the conditions of all the
    branches with their answers, then the wait. *)
Fixpoint idle_trace (rc : RaceContext W) (n : nat) (w : W)
  : list (event W) :=
  match n with
  | O => []
  | S m =>
      EvFn (Some (false, None))
        (cond_events 0
           (fst (eval_conditions (rc_page rc) (branches rc) w))) ::
      EvSleep None ::
      match idle_tick rc w with
      | Some w1 => idle_trace rc m w1
      | None => []
      end
  end.

End MoreTraces.

(** Concrete data for the rest of the query layer. *)
Module Fixture.

Definition no_trace : Page nat -> EvalOptions -> Act nat (Act nat unit) :=
  fun _ _ w => (fun w0 => (tt, w0), w).

Definition helper : js_function -> list string -> EvalOptions :=
  fun _ args => {| JS := String.concat "," args; ByValue := false |}.

Definition page_not_found : error := ErrOther "cannot find page".

Definition null_object : RuntimeRemoteObject :=
  {| Type_ := TypeObject; Subtype := SubtypeNull; ObjectID := "" |}.

(** A browser in which every evaluation answers [v]. *)
Definition evaluates (v : RuntimeRemoteObject) : Client nat :=
  {| EnableDomain_DOMEnable := fun _ w => (fun w0 => (tt, w0), w);
     DOMPerformSearch_Call := fun _ _ _ w =>
       (inl {| SearchID := Scenario.session w; ResultCount := 2 |}, w);
     DOMDiscardSearchResults_Call := fun _ _ w => (None, w);
     DOMGetSearchResults_Call := fun _ _ _ _ w => (inl [7%Z; 8%Z], w);
     DOMGetDocument_Call := fun _ w => (None, w);
     ElementFromNode := fun p _ w =>
       (inl (Scenario.handle p (Scenario.node_object "n")), w);
     Evaluate := fun _ _ w => (inl v, w);
     RuntimeGetProperties_Call := fun _ _ _ w => (inl [], w);
     Release := fun _ _ w => (None, w);
     ElementFromObject := fun p obj w => (inl (Scenario.handle p obj), w) |}.

(** A browser in which an evaluation answers null until two waits were
    granted, and the node "n" from then on. *)
Definition appears_later : Client nat :=
  {| EnableDomain_DOMEnable := fun _ w => (fun w0 => (tt, w0), w);
     DOMPerformSearch_Call := fun _ _ _ w =>
       (inl {| SearchID := Scenario.session w; ResultCount := 2 |}, w);
     DOMDiscardSearchResults_Call := fun _ _ w => (None, w);
     DOMGetSearchResults_Call := fun _ _ _ _ w => (inl [7%Z; 8%Z], w);
     DOMGetDocument_Call := fun _ w => (None, w);
     ElementFromNode := fun p _ w =>
       (inl (Scenario.handle p (Scenario.node_object "n")), w);
     Evaluate := fun _ _ w =>
       (inl (if Nat.ltb w 2 then null_object else Scenario.node_object "n"), w);
     RuntimeGetProperties_Call := fun _ _ _ w => (inl [], w);
     Release := fun _ _ w => (None, w);
     ElementFromObject := fun p obj w => (inl (Scenario.handle p obj), w) |}.

Definition two_found : Client nat := evaluates (Scenario.node_object "n").

(** Options that allow no attempt at all. *)
Definition no_attempt : RetryOptions nat :=
  {| Context := Scenario.background; Sleeper := Scenario.patient;
     MaxRetries := -2 |}.

(** A page that looks up without patience, as a race gives to its
    branches. *)
Definition hasty : Page nat := Page_Sleeper Scenario.pg NotFoundSleeper.

(** The first result of a search in [two_found], on the page [p]. *)
Definition first_hit (p : Page nat) : Element nat :=
  Scenario.handle p (Scenario.node_object "n").

(** What the one attempt of a search does in [two_found] on [p]. *)
Definition hit (p : Page nat) : list (event nat) :=
  [EvDOMPerformSearch "q" true (inl {| SearchID := "s1"; ResultCount := 2 |});
   EvDOMGetSearchResults "s1" 0 1 (inl [7%Z; 8%Z]);
   EvElementFromNode 7 (inl (first_hit p))].

(** A race for something that is not there, on a page whose context is
    cancelled. *)
Definition cancelled_race : RaceContext nat :=
  {| rc_page := Scenario.pg_cancelled; branches := [Scenario.absent] |}.

(** A callback that has nothing to report. *)
Definition content : option (Element nat -> Act nat (option error)) :=
  Some (fun _ w => (None, w)).

(** A browser in which searching fails. *)
Definition search_down : Client nat :=
  {| EnableDomain_DOMEnable := fun _ w => (fun w0 => (tt, w0), w);
     DOMPerformSearch_Call := fun _ _ _ w => (inr (ErrOther "down"), w);
     DOMDiscardSearchResults_Call := fun _ _ w => (None, w);
     DOMGetSearchResults_Call := fun _ _ _ _ w => (inl [], w);
     DOMGetDocument_Call := fun _ w => (None, w);
     ElementFromNode := fun p _ w =>
       (inl (Scenario.handle p (Scenario.node_object "n")), w);
     Evaluate := fun _ _ w => (inl null_object, w);
     RuntimeGetProperties_Call := fun _ _ _ w => (inl [], w);
     Release := fun _ _ w => (None, w);
     ElementFromObject := fun p obj w => (inl (Scenario.handle p obj), w) |}.

(** A branch that finds the node [id] once a wait was granted. *)
Definition late (id : string)
  (cb : option (Element nat -> Act nat (option error))) : raceBranch nat :=
  {| condition := fun p w =>
       if Nat.ltb w 1 then ((None, Some ErrElementNotFound), w)
       else ((Some (Scenario.handle p (Scenario.node_object id)), None), w);
     callback := cb |}.

(** A race whose second and third branches both find their node on the
    second tick; the second has a callback that complains. *)
Definition second_of_three : RaceContext nat :=
  Scenario.race_of
    [Scenario.absent; late "B" Scenario.complain; late "C" None].

(** The same branches, with the last two swapped. *)
Definition third_first : RaceContext nat :=
  Scenario.race_of
    [Scenario.absent; late "C" None; late "B" Scenario.complain].

(** Three tabs, and a browser in which only the second has the element. *)
Definition tab (n : nat) : Page nat :=
  {| ctx := {| ctx_id := n |}; sleeper := Scenario.patient |}.

Definition only_second_tab : Client nat :=
  {| EnableDomain_DOMEnable := fun _ w => (fun w0 => (tt, w0), w);
     DOMPerformSearch_Call := fun _ _ _ w => (inr (ErrOther "down"), w);
     DOMDiscardSearchResults_Call := fun _ _ w => (None, w);
     DOMGetSearchResults_Call := fun _ _ _ _ w => (inl [], w);
     DOMGetDocument_Call := fun _ w => (None, w);
     ElementFromNode := fun p _ w =>
       (inl (Scenario.handle p (Scenario.node_object "n")), w);
     Evaluate := fun p _ w =>
       (inl (if Nat.eqb (ctx_id (ctx p)) 2
             then Scenario.node_object "n" else null_object), w);
     RuntimeGetProperties_Call := fun _ _ _ w => (inl [], w);
     Release := fun _ _ w => (None, w);
     ElementFromObject := fun p obj w => (inl (Scenario.handle p obj), w) |}.

End Fixture.

(** ** Properties of the retry primitive *)

Section RetryFacts.

Context {W C : Type}.
Variable options : RetryOptions W.
Variable fn : C -> M W (bool * option error * C).

(** One round of the loop, by the answer of the function and of the
    Sleeper. *)
Lemma NewRetry_loop_S (n : nat) (c : C) (w : W) :
  NewRetry_loop (S n) options fn c w =
  match fn c w with
  | (Ret (true, err, c1), w1, t1) =>
      (Ret (err, c1), w1, [EvFn (Some (true, err)) t1])
  | (Ret (false, err, c1), w1, t1) =>
      match Sleeper options (Context options) w1 with
      | (Some e, w2) =>
          (Ret (Some e, c1), w2,
           [EvFn (Some (false, err)) t1; EvSleep (Some e)])
      | (None, w2) =>
          match NewRetry_loop n options fn c1 w2 with
          | (r, w3, t3) =>
              (r, w3, EvFn (Some (false, err)) t1 :: EvSleep None :: t3)
          end
      end
  | (Panicked p, w1, t1) => (Panicked p, w1, [EvFn None t1])
  | (OutOfFuel, w1, t1) => (OutOfFuel, w1, [EvFn None t1])
  end.
Proof.
  cbn [NewRetry_loop]. unfold bind, invoke, sleep, call, ret.
  destruct (fn c w) as [[r w1] t1].
  destruct r as [[[stop err] c1] | p | ]; try reflexivity.
  destruct stop; try reflexivity.
  destruct (Sleeper options (Context options) w1) as [[e|] w2]; try reflexivity.
  destruct (NewRetry_loop n options fn c1 w2) as [[r w3] t3]. reflexivity.
Qed.

Lemma NewRetry_loop_never_stop (n : nat) :
  (forall c w, exists c1 w1 t1, fn c w = (Ret (false, None, c1), w1, t1)) ->
  (forall w, fst (Sleeper options (Context options) w) = None) ->
  forall c w, exists c' w' t,
    NewRetry_loop n options fn c w = (Ret (None, c'), w', t)
    /\ fn_calls t = n
    /\ sleeps t = repeat None n
    /\ (n <> O -> exists t0, t = t0 ++ [EvSleep None]).
Proof.
  intros Hfn Hsl. induction n as [|m IH]; intros c w.
  - exists c, w, []. repeat split. congruence.
  - rewrite NewRetry_loop_S.
    destruct (Hfn c w) as (c1 & w1 & t1 & E1). rewrite E1.
    specialize (Hsl w1).
    destruct (Sleeper options (Context options) w1) as [o w2]. cbn in Hsl. subst o.
    destruct (IH c1 w2) as (c' & w' & t & E & Hf & Hs & Hl). rewrite E.
    exists c', w', (EvFn (Some (false, None)) t1 :: EvSleep None :: t).
    repeat split; cbn; try congruence.
    intros _. destruct m as [|m'].
    + cbn in E. inversion E; subst.
      exists [EvFn (Some (false, None)) t1]. reflexivity.
    + destruct Hl as [t0 Ht]; [congruence|].
      exists (EvFn (Some (false, None)) t1 :: EvSleep None :: t0).
      rewrite Ht. reflexivity.
Qed.

Lemma NewRetry_loop_sleeper_failure (n : nat) :
  forall (c : C) (w : W) r w' t (j : nat) (e : error),
    NewRetry_loop n options fn c w = (r, w', t) ->
    nth_error (sleeps t) j = Some (Some e) ->
    (exists c', r = Ret (Some e, c'))
    /\ fn_calls t = S j
    /\ List.length (sleeps t) = S j
    /\ exists t0, t = t0 ++ [EvSleep (Some e)].
Proof.
  induction n as [|m IH]; intros c w r w' t j e E Hj.
  - cbn in E. inversion E; subst. destruct j; discriminate.
  - rewrite NewRetry_loop_S in E.
    destruct (fn c w) as [[r1 w1] t1].
    destruct r1 as [[[stop err] c1] | p | ].
    + destruct stop.
      * inversion E; subst. destruct j; discriminate.
      * destruct (Sleeper options (Context options) w1) as [[e1|] w2].
        -- inversion E; subst. cbn in Hj.
           destruct j as [|j]; cbn in Hj.
           ++ inversion Hj; subst. repeat split; eauto.
              exists [EvFn (Some (false, err)) t1]. reflexivity.
           ++ destruct j; discriminate.
        -- destruct (NewRetry_loop m options fn c1 w2) as [[r3 w3] t3] eqn:E3.
           inversion E; subst. cbn in Hj.
           destruct j as [|j]; cbn in Hj; [discriminate|].
           destruct (IH _ _ _ _ _ _ _ E3 Hj) as (Hr & Hf & Hs & t0 & Ht).
           repeat split; cbn; try congruence.
           exists (EvFn (Some (false, err)) t1 :: EvSleep None :: t0).
           rewrite Ht. reflexivity.
    + inversion E; subst. destruct j; discriminate.
    + inversion E; subst. destruct j; discriminate.
Qed.

(** Every recorded invocation is a run of the function. *)
Lemma NewRetry_loop_fn_events (n : nat) :
  forall (c : C) (w : W) r inner,
    In (EvFn r inner) (snd (NewRetry_loop n options fn c w)) ->
    exists c1 w1,
      inner = snd (fn c1 w1) /\ r = returned (fst (fst (fn c1 w1))).
Proof.
  induction n as [|m IH]; intros c w r inner Hin.
  - cbn in Hin. contradiction.
  - rewrite NewRetry_loop_S in Hin.
    destruct (fn c w) as [[r1 w1] t1] eqn:E1.
    assert (Hhere : forall x, EvFn (returned r1) t1 = x ->
                              x = EvFn r inner ->
                              exists c1 w1,
                                inner = snd (fn c1 w1)
                                /\ r = returned (fst (fst (fn c1 w1)))).
    { intros x <- Hx. inversion Hx; subst. exists c, w. rewrite E1. auto. }
    destruct r1 as [[[stop err] c1] | pk | ].
    + destruct stop.
      * cbn in Hin. destruct Hin as [Hin|[]]. eapply Hhere; eauto.
      * destruct (Sleeper options (Context options) w1) as [[e1|] w2].
        -- cbn in Hin. destruct Hin as [Hin|[Hin|[]]]; [|discriminate].
           eapply Hhere; eauto.
        -- specialize (IH c1 w2 r inner).
           destruct (NewRetry_loop m options fn c1 w2) as [[r3 w3] t3].
           cbn in Hin. destruct Hin as [Hin|[Hin|Hin]]; [|discriminate|].
           ++ eapply Hhere; eauto.
           ++ apply IH. exact Hin.
    + cbn in Hin. destruct Hin as [Hin|[]]. eapply Hhere; eauto.
    + cbn in Hin. destruct Hin as [Hin|[]]. eapply Hhere; eauto.
Qed.

(** The loop itself records invocations and waits, nothing else. *)
Lemma NewRetry_loop_events (n : nat) :
  forall (c : C) (w : W) ev,
    In ev (snd (NewRetry_loop n options fn c w)) ->
    (exists r inner, ev = EvFn r inner) \/ (exists r, ev = EvSleep r).
Proof.
  induction n as [|m IH]; intros c w ev Hin.
  - cbn in Hin. contradiction.
  - rewrite NewRetry_loop_S in Hin.
    destruct (fn c w) as [[r1 w1] t1].
    destruct r1 as [[[stop err] c1] | pk | ].
    + destruct stop.
      * cbn in Hin. destruct Hin as [<-|[]]. eauto.
      * destruct (Sleeper options (Context options) w1) as [[e1|] w2].
        -- cbn in Hin. destruct Hin as [<-|[<-|[]]]; eauto.
        -- specialize (IH c1 w2 ev).
           destruct (NewRetry_loop m options fn c1 w2) as [[r3 w3] t3].
           cbn in Hin. destruct Hin as [<-|[<-|Hin]]; eauto.
    + cbn in Hin. destruct Hin as [<-|[]]. eauto.
    + cbn in Hin. destruct Hin as [<-|[]]. eauto.
Qed.

(** An invocation that says stop ends the loop with its error. *)
Lemma NewRetry_loop_stop (n : nat) :
  forall (c : C) (w : W) err inner,
    In (EvFn (Some (true, err)) inner) (snd (NewRetry_loop n options fn c w)) ->
    exists c', fst (fst (NewRetry_loop n options fn c w)) = Ret (err, c').
Proof.
  induction n as [|m IH]; intros c w err inner Hin.
  - cbn in Hin. contradiction.
  - rewrite NewRetry_loop_S in Hin |- *.
    destruct (fn c w) as [[r1 w1] t1].
    destruct r1 as [[[stop err1] c1] | pk | ].
    + destruct stop.
      * cbn in Hin |- *. destruct Hin as [Hin|[]]. inversion Hin; subst. eauto.
      * destruct (Sleeper options (Context options) w1) as [[e1|] w2].
        -- cbn in Hin. destruct Hin as [Hin|[Hin|[]]]; discriminate.
        -- specialize (IH c1 w2 err inner).
           destruct (NewRetry_loop m options fn c1 w2) as [[r3 w3] t3].
           cbn in Hin |- *. destruct Hin as [Hin|[Hin|Hin]]; try discriminate.
           apply IH. exact Hin.
    + cbn in Hin. destruct Hin as [Hin|[]]. discriminate.
    + cbn in Hin. destruct Hin as [Hin|[]]. discriminate.
Qed.

(** A property of the captured variables that every returning invocation
    keeps holds of what the loop returns. *)
Lemma NewRetry_loop_preserves (I : C -> Prop) :
  (forall c w stop err c1,
      I c -> fst (fst (fn c w)) = Ret (stop, err, c1) -> I c1) ->
  forall (n : nat) (c : C) (w : W) err c',
    I c ->
    fst (fst (NewRetry_loop n options fn c w)) = Ret (err, c') ->
    I c'.
Proof.
  intros Hpres. induction n as [|m IH]; intros c w err c' Hc E.
  - cbn in E. inversion E; subst. exact Hc.
  - rewrite NewRetry_loop_S in E.
    pose proof (Hpres c w) as Hstep.
    destruct (fn c w) as [[r1 w1] t1].
    destruct r1 as [[[stop err1] c1] | pk | ]; cbn in Hstep.
    + specialize (Hstep _ _ _ Hc eq_refl).
      destruct stop.
      * cbn in E. inversion E; subst. exact Hstep.
      * destruct (Sleeper options (Context options) w1) as [[e1|] w2].
        -- cbn in E. inversion E; subst. exact Hstep.
        -- specialize (IH c1 w2 err c' Hstep).
           destruct (NewRetry_loop m options fn c1 w2) as [[r3 w3] t3].
           cbn in E, IH. auto.
    + cbn in E. discriminate.
    + cbn in E. discriminate.
Qed.

(** What the loop returns is either reached through invocations that did
    not say stop, or is what a recorded, stopping invocation returned. *)
Lemma NewRetry_loop_final (I : C -> Prop) :
  (forall c w err c1,
      I c -> fst (fst (fn c w)) = Ret (false, err, c1) -> I c1) ->
  forall (n : nat) (c : C) (w : W) err c',
    I c ->
    fst (fst (NewRetry_loop n options fn c w)) = Ret (err, c') ->
    I c'
    \/ exists c1 w1,
         I c1
         /\ fst (fst (fn c1 w1)) = Ret (true, err, c')
         /\ In (EvFn (Some (true, err)) (snd (fn c1 w1)))
              (snd (NewRetry_loop n options fn c w)).
Proof.
  intros Hpres. induction n as [|m IH]; intros c w err c' Hc E.
  - cbn in E. inversion E; subst. left. exact Hc.
  - rewrite NewRetry_loop_S in E |- *.
    pose proof (Hpres c w) as Hstep.
    destruct (fn c w) as [[r1 w1] t1] eqn:E1.
    destruct r1 as [[[stop err1] c1] | pk | ]; cbn in Hstep.
    + destruct stop.
      * cbn in E. inversion E; subst. right. exists c, w.
        rewrite E1. cbn. auto.
      * specialize (Hstep _ _ Hc eq_refl).
        destruct (Sleeper options (Context options) w1) as [[e1|] w2].
        -- cbn in E. inversion E; subst. left. exact Hstep.
        -- specialize (IH c1 w2 err c' Hstep).
           destruct (NewRetry_loop m options fn c1 w2) as [[r3 w3] t3].
           cbn in E, IH |- *.
           destruct (IH E) as [Hl|(c2 & w4 & H2 & H3 & H4)]; [left; exact Hl|].
           right. exists c2, w4. auto.
    + cbn in E. discriminate.
    + cbn in E. discriminate.
Qed.

(** A loop with an iteration left starts with an invocation. *)
Lemma NewRetry_loop_first (n : nat) (c : C) (w : W) :
  exists rest,
    snd (NewRetry_loop (S n) options fn c w)
    = EvFn (returned (fst (fst (fn c w)))) (snd (fn c w)) :: rest.
Proof.
  rewrite NewRetry_loop_S.
  destruct (fn c w) as [[r1 w1] t1].
  destruct r1 as [[[stop err] c1] | pk | ]; cbn; eauto.
  destruct stop; cbn; eauto.
  destruct (Sleeper options (Context options) w1) as [[e1|] w2]; cbn; eauto.
  destruct (NewRetry_loop n options fn c1 w2) as [[r3 w3] t3]. cbn; eauto.
Qed.

End RetryFacts.

(** The loop as it is written, for every MaxRetries = N >= 1: when the
    function always returns (false, nil) and the Sleeper never fails,
    NewRetry invokes the function N times, the Sleeper answers N times, the
    last answer being the last thing recorded, and nil is returned. *)
Lemma NewRetry_never_stop_run :
  forall (W C : Type) (options : RetryOptions W)
         (fn : C -> M W (bool * option error * C)) (N : Z),
    MaxRetries options = N ->
    (1 <= N)%Z ->
    (forall c w, exists c1 w1 t1, fn c w = (Ret (false, None, c1), w1, t1)) ->
    (forall w, fst (Sleeper options (Context options) w) = None) ->
    forall (c : C) (w : W), exists c' w' t,
      NewRetry options fn c w = (Ret (None, c'), w', t)
      /\ Z.of_nat (fn_calls t) = N
      /\ Z.of_nat (List.length (sleeps t)) = N
      /\ exists t0, t = t0 ++ [EvSleep None].
Proof.
  intros W C options fn N HN Hpos Hfn Hsl c w.
  unfold NewRetry. rewrite HN.
  destruct (NewRetry_loop_never_stop options fn (Z.to_nat N) Hfn Hsl c w)
    as (c' & w' & t & E & Hf & Hs & Hl).
  exists c', w', t. split; [exact E|].
  split; [rewrite Hf; lia|].
  split; [rewrite Hs, repeat_length; lia|].
  apply Hl. lia.
Qed.

(** C1: NewRetry run with MaxRetries = 1, a function that always returns
    (false, nil) and a Sleeper that always succeeds.  The function is
    invoked once and nil is returned, as the claim says; the Sleeper is then
    invoked once, after the only and final attempt, where the claim and the
    comments of the function (wait between retries, wait before the next
    retry) have 1 - 1 = 0 waits. *)
Lemma NewRetry_waits_after_final_attempt :
  NewRetry Scenario.one_attempt Scenario.never_stop tt 0%nat
    = (Ret (None, tt), 1%nat, [EvFn (Some (false, None)) []; EvSleep None])
  /\ fn_calls (snd (NewRetry Scenario.one_attempt Scenario.never_stop tt 0%nat))
     = 1%nat
  /\ List.length
       (sleeps (snd (NewRetry Scenario.one_attempt Scenario.never_stop tt 0%nat)))
     = 1%nat
  /\ (Z.of_nat
        (List.length
           (sleeps (snd (NewRetry Scenario.one_attempt Scenario.never_stop tt
                           0%nat))))
      =? MaxRetries Scenario.one_attempt - 1)%Z = false.
Proof. repeat split. Qed.

(** C7: for every attempt count and every function, if wait number j on the
    Sleeper fails in a run of NewRetry, then NewRetry returns that failure,
    the failed wait is the last thing it does, and the function was invoked
    j times in all: never again after the failure. *)
Theorem NewRetry_sleeper_failure_aborts :
  forall (W C : Type) (options : RetryOptions W)
         (fn : C -> M W (bool * option error * C)) (c : C) (w : W)
         (j : nat) (e : error),
    (1 <= j)%nat ->
    nth_error (sleeps (snd (NewRetry options fn c w))) (j - 1) = Some (Some e) ->
    (exists c', fst (fst (NewRetry options fn c w)) = Ret (Some e, c'))
    /\ fn_calls (snd (NewRetry options fn c w)) = j
    /\ List.length (sleeps (snd (NewRetry options fn c w))) = j
    /\ exists t0, snd (NewRetry options fn c w) = t0 ++ [EvSleep (Some e)].
Proof.
  intros W C options fn c w j e Hj Hn.
  unfold NewRetry in *.
  destruct (NewRetry_loop (Z.to_nat (MaxRetries options)) options fn c w)
    as [[r w'] t] eqn:E.
  cbn [fst snd] in *.
  destruct (NewRetry_loop_sleeper_failure options fn _ _ _ (j - 1) E Hn)
    as (Hr & Hf & Hs & Hl).
  replace (S (j - 1)) with j in * by lia.
  repeat split; assumption.
Qed.

Lemma NewRetry_sleeper_failure_aborts_witness :
  (exists c', fst (fst (NewRetry Scenario.five_attempts Scenario.never_stop tt
                          0%nat)) = Ret (Some ErrCanceled, c'))
  /\ fn_calls (snd (NewRetry Scenario.five_attempts Scenario.never_stop tt 0%nat))
     = 3%nat
  /\ List.length
       (sleeps (snd (NewRetry Scenario.five_attempts Scenario.never_stop tt
                       0%nat))) = 3%nat
  /\ exists t0,
       snd (NewRetry Scenario.five_attempts Scenario.never_stop tt 0%nat)
       = t0 ++ [EvSleep (Some ErrCanceled)].
Proof.
  apply (@NewRetry_sleeper_failure_aborts nat unit Scenario.five_attempts
           Scenario.never_stop tt 0%nat 3%nat ErrCanceled).
  - lia.
  - reflexivity.
Defined.

(** ** Properties of Page.Search *)

(** Case analysis on the next call to the protocol client in the goal. *)
Ltac next_call :=
  cbn [fst snd app];
  match goal with
  | |- context [EnableDomain_DOMEnable ?c ?p ?w] =>
      destruct (EnableDomain_DOMEnable c p w) as [? ?] eqn:?
  | |- context [DOMDiscardSearchResults_Call ?c ?p ?i ?w] =>
      destruct (DOMDiscardSearchResults_Call c p i w) as [? ?] eqn:?
  | |- context [DOMPerformSearch_Call ?c ?p ?q ?b ?w] =>
      destruct (DOMPerformSearch_Call c p q b w) as [[?|?] ?] eqn:?
  | |- context [DOMGetSearchResults_Call ?c ?p ?i ?a ?b ?w] =>
      destruct (DOMGetSearchResults_Call c p i a b w) as [[[|? ?]|?] ?] eqn:?
  | |- context [DOMGetDocument_Call ?c ?p ?w] =>
      destruct (DOMGetDocument_Call c p w) as [? ?] eqn:?
  | |- context [ElementFromNode ?c ?p ?i ?w] =>
      destruct (ElementFromNode c p i w) as [[?|?] ?] eqn:?
  | |- context [if (?a =? ?b)%Z then _ else _] =>
      destruct (Z.eqb_spec a b)
  end.

Section SearchFacts.

Context {W : Type}.
Variable cl : Client W.
Variable p : Page W.
Variable query : string.

(** Every run of the function of Page.Search is one of the outcomes. *)
Lemma search_attempt_outcome (sr : SearchResult W) (w : W) :
  attempt_outcome query sr (fst (fst (search_attempt cl p query sr w)))
    (snd (search_attempt cl p query sr w)).
Proof.
  destruct sr as [[prev|] pg rst fi].
  all: unfold search_attempt, discard, bind, call, ret, go_panic.
  all: cbn [sr_DOMPerformSearchResult].
  all: repeat next_call.
  all: try match goal with
    | Hc : ResultCount ?d <> 0%Z |- attempt_outcome ?q ?s _ _ =>
        match goal with
        | |- context [errors_Is ?e IsCtxNotFound] =>
            let X := fresh "X" in
            pose proof (@fetch_fails W q s d e Hc) as X;
            unfold transient in X;
            destruct (errors_Is e IsCtxNotFound
                      || errors_Is e IsSearchSessionNotFound);
            exact X
        end
    end.
  all: cbn; subst.
  all: match goal with
    | |- attempt_outcome ?q ?s _ [EvDOMPerformSearch _ _ (inr ?e)] =>
        exact (@search_fails W q s e)
    | |- attempt_outcome ?q ?s _ [_; EvDOMPerformSearch _ _ (inr ?e)] =>
        exact (@search_fails W q s e)
    | Hc : ResultCount ?d = 0%Z |- attempt_outcome ?q ?s _ _ =>
        exact (@no_result W q s d Hc)
    | Hc : ResultCount ?d <> 0%Z |- attempt_outcome ?q ?s (Panicked _) _ =>
        exact (@no_node_id W q s d Hc)
    | Hc : ResultCount ?d <> 0%Z |- attempt_outcome ?q ?s _ ?t =>
        match t with
        | context [EvDOMGetSearchResults _ _ _ (inl (_ :: ?ids))] =>
            match t with
            | context [EvDOMGetDocument] =>
                exact (@document_updated W q s d ids Hc)
            | context [EvElementFromNode ?id (inl ?el)] =>
                match goal with
                | Hid : id <> 0%Z |- _ =>
                    exact (@node_found W q s d id ids el Hc Hid)
                end
            | context [EvElementFromNode ?id (inr ?e)] =>
                match goal with
                | Hid : id <> 0%Z |- _ =>
                    exact (@node_fails W q s d id ids e Hc Hid)
                end
            end
        end
    end.
Qed.

(** Page.Search, by the answer of its retry loop. *)
Lemma Search_run (w : W) :
  Search cl p query w =
  match EnableDomain_DOMEnable cl p w with
  | (rst, w0) =>
      match NewRetry_loop 3 (search_options p) (search_attempt cl p query)
              (new_SearchResult p rst) w0 with
      | (Ret (Some e, _), w1, t) => (Ret (None, Some e), w1, EvEnableDomain :: t)
      | (Ret (None, sr1), w1, t) => (Ret (Some sr1, None), w1, EvEnableDomain :: t)
      | (Panicked pk, w1, t) => (Panicked pk, w1, EvEnableDomain :: t)
      | (OutOfFuel, w1, t) => (OutOfFuel, w1, EvEnableDomain :: t)
      end
  end.
Proof.
  unfold Search, NewRetry, bind, call, ret.
  destruct (EnableDomain_DOMEnable cl p w) as [rst w0].
  change (Z.to_nat (MaxRetries _)) with 3%nat.
  change {| Context := ctx p; Sleeper := sleeper p; MaxRetries := 3 |}
    with (search_options p).
  change {| sr_DOMPerformSearchResult := None; page := p; restore := rst;
            First := None |} with (new_SearchResult p rst).
  destruct (NewRetry_loop 3 (search_options p) (search_attempt cl p query)
              (new_SearchResult p rst) w0) as [[r w1] t].
  destruct r as [[[e|] sr1] | pk | ]; cbn; rewrite ?app_nil_r; reflexivity.
Qed.

(** The fields an attempt leaves alone. *)
Lemma search_attempt_keeps (sr : SearchResult W) (w : W) stop err sr1 :
  fst (fst (search_attempt cl p query sr w)) = Ret (stop, err, sr1) ->
  page sr1 = page sr /\ restore sr1 = restore sr
  /\ ((exists r, sr_DOMPerformSearchResult sr1 = Some r)
      \/ (sr1 = sr /\ stop = true /\ exists e, err = Some e))
  /\ (stop = false -> First sr1 = First sr).
Proof.
  intros E. pose proof (search_attempt_outcome sr w) as H.
  rewrite E in H. inversion H; subst; cbn.
  all: try (destruct (transient err0);
            match goal with Hx : (_, _, _) = (_, _, _) |- _ =>
              inversion Hx; subst end; cbn).
  all: repeat split; eauto; try discriminate.
Qed.

(** Only a found node sets First, and never from the identifier 0. *)
Lemma search_attempt_First (sr : SearchResult W) (w : W) stop err sr1 el :
  First sr = None ->
  fst (fst (search_attempt cl p query sr w)) = Ret (stop, err, sr1) ->
  First sr1 = Some el ->
  stop = true /\ err = None
  /\ exists id, id <> 0%Z
       /\ In (EvElementFromNode id (inl el)) (snd (search_attempt cl p query sr w)).
Proof.
  intros HF E Hel. pose proof (search_attempt_outcome sr w) as H.
  rewrite E in H. inversion H; subst; cbn in Hel.
  all: try (destruct (transient err0);
            match goal with Hx : (_, _, _) = (_, _, _) |- _ =>
              inversion Hx; subst end; cbn in Hel).
  all: try congruence.
  inversion Hel; subst. repeat split. exists id. split; [assumption|].
  apply in_or_app. right. cbn. auto.
Qed.

Lemma prior_discard_events (sr : SearchResult W) (ev : event W) :
  In ev (prior_discard sr) -> exists id, ev = EvDOMDiscardSearchResults id.
Proof.
  unfold prior_discard. destruct (sr_DOMPerformSearchResult sr); cbn.
  - intros [<-|[]]. eauto.
  - intros [].
Qed.

(** No attempt asks for the element of the node identifier 0. *)
Lemma search_attempt_no_zero_node (sr : SearchResult W) (w : W) x :
  ~ In (EvElementFromNode 0 x) (snd (search_attempt cl p query sr w)).
Proof.
  intros Hin. pose proof (search_attempt_outcome sr w) as H.
  inversion H as [ e E1 E2 | r Hz E1 E2 | r e Hc E1 E2 | r Hc E1 E2
                 | r ids Hc E1 E2 | r id ids e Hc Hid E1 E2
                 | r id ids el Hc Hid E1 E2 ];
    rewrite <- E2 in Hin; apply in_app_or in Hin;
    (destruct Hin as [Hin|Hin];
     [ apply prior_discard_events in Hin; destruct Hin; discriminate | ]);
    cbn in Hin; intuition (try discriminate).
  - match goal with Hx : EvElementFromNode _ _ = _ |- _ => inversion Hx end.
    congruence.
  - match goal with Hx : EvElementFromNode _ _ = _ |- _ => inversion Hx end.
    congruence.
Qed.

(** A failed fetch inside an attempt: what the attempt did and returned. *)
Lemma search_attempt_fetch_error (sr : SearchResult W) (w : W) id a b err :
  In (EvDOMGetSearchResults id a b (inr err))
     (snd (search_attempt cl p query sr w)) ->
  exists r,
    ResultCount r <> 0%Z
    /\ snd (search_attempt cl p query sr w)
       = prior_discard sr ++
         [EvDOMPerformSearch query true (inl r);
          EvDOMGetSearchResults (SearchID r) 0 1 (inr err)]
    /\ fst (fst (search_attempt cl p query sr w))
       = Ret (if transient err
              then (false, None, set_DOMPerformSearchResult sr r)
              else (true, Some err, set_DOMPerformSearchResult sr r)).
Proof.
  intros Hin. pose proof (search_attempt_outcome sr w) as H.
  inversion H as [ e E1 E2 | r Hz E1 E2 | r e Hc E1 E2 | r Hc E1 E2
                 | r ids Hc E1 E2 | r id0 ids e Hc Hid E1 E2
                 | r id0 ids el Hc Hid E1 E2 ];
    rewrite <- E2 in Hin; apply in_app_or in Hin;
    (destruct Hin as [Hin|Hin];
     [ apply prior_discard_events in Hin; destruct Hin; discriminate | ]);
    cbn in Hin; intuition (try discriminate).
  match goal with Hx : EvDOMGetSearchResults _ _ _ _ = _ |- _ =>
    inversion Hx; subst end.
  exists r. auto.
Qed.

(** A fetch that answers the node identifier 0 inside an attempt. *)
Lemma search_attempt_sentinel (sr : SearchResult W) (w : W) id a b ids :
  In (EvDOMGetSearchResults id a b (inl (0%Z :: ids)))
     (snd (search_attempt cl p query sr w)) ->
  exists r,
    ResultCount r <> 0%Z
    /\ snd (search_attempt cl p query sr w)
       = prior_discard sr ++
         [EvDOMPerformSearch query true (inl r);
          EvDOMGetSearchResults (SearchID r) 0 1 (inl (0%Z :: ids));
          EvDOMGetDocument]
    /\ fst (fst (search_attempt cl p query sr w))
       = Ret (false, None, set_DOMPerformSearchResult sr r).
Proof.
  intros Hin. pose proof (search_attempt_outcome sr w) as H.
  inversion H as [ e E1 E2 | r Hz E1 E2 | r e Hc E1 E2 | r Hc E1 E2
                 | r ids0 Hc E1 E2 | r id0 ids0 e Hc Hid E1 E2
                 | r id0 ids0 el Hc Hid E1 E2 ];
    rewrite <- E2 in Hin; apply in_app_or in Hin;
    (destruct Hin as [Hin|Hin];
     [ apply prior_discard_events in Hin; destruct Hin; discriminate | ]);
    cbn in Hin; intuition (try discriminate).
  all: match goal with Hx : EvDOMGetSearchResults _ _ _ _ = _ |- _ =>
    inversion Hx; subst end.
  - exists r. auto.
  - congruence.
  - congruence.
Qed.

(** An attempt whose search finds nothing. *)
Lemma search_attempt_no_match (sr : SearchResult W) (w : W) :
  (forall w0, exists r w1,
      DOMPerformSearch_Call cl p query true w0 = (inl r, w1)
      /\ ResultCount r = 0%Z) ->
  exists r w1,
    search_attempt cl p query sr w
    = (Ret (false, None, set_DOMPerformSearchResult sr r), w1,
       prior_discard sr ++ [EvDOMPerformSearch query true (inl r)]).
Proof.
  intros Hps. destruct sr as [[prev|] pg rst fi].
  all: unfold search_attempt, discard, prior_discard, bind, call, ret.
  all: cbn [sr_DOMPerformSearchResult].
  - destruct (DOMDiscardSearchResults_Call cl p (SearchID prev) w) as [o w0].
    destruct (Hps w0) as (r & w1 & E & Hz). rewrite E, Hz. cbn.
    exists r, w1. reflexivity.
  - destruct (Hps w) as (r & w1 & E & Hz). cbn. rewrite E, Hz. cbn.
    exists r, w1. reflexivity.
Qed.

(** An attempt whose search finds something and whose fetch answers the
    node identifier 0: it refreshes the document and asks for a retry. *)
Lemma search_attempt_refresh (sr : SearchResult W) (w : W)
  (r : DOMPerformSearchResult) (w1 : W) (ids : list Z) (w2 : W) :
  DOMPerformSearch_Call cl p query true (after_prior_discard cl p sr w)
    = (inl r, w1) ->
  ResultCount r <> 0%Z ->
  DOMGetSearchResults_Call cl p (SearchID r) 0 1 w1 = (inl (0%Z :: ids), w2) ->
  search_attempt cl p query sr w
  = (Ret (false, None, set_DOMPerformSearchResult sr r),
     snd (DOMGetDocument_Call cl p w2),
     prior_discard sr ++
     [EvDOMPerformSearch query true (inl r);
      EvDOMGetSearchResults (SearchID r) 0 1 (inl (0%Z :: ids));
      EvDOMGetDocument]).
Proof.
  intros Hs Hc Hg. destruct sr as [[prev|] pg rst fi].
  all: unfold after_prior_discard in Hs; cbn [sr_DOMPerformSearchResult] in Hs.
  all: unfold search_attempt, discard, prior_discard, bind, call, ret.
  all: cbn [sr_DOMPerformSearchResult].
  - destruct (DOMDiscardSearchResults_Call cl p (SearchID prev) w) as [o w0].
    cbn [snd] in Hs. rewrite Hs.
    destruct (Z.eqb_spec (ResultCount r) 0) as [Hz|_]; [contradiction|].
    rewrite Hg. cbn.
    destruct (DOMGetDocument_Call cl p w2) as [o2 w3]. reflexivity.
  - rewrite Hs.
    destruct (Z.eqb_spec (ResultCount r) 0) as [Hz|_]; [contradiction|].
    rewrite Hg. cbn.
    destruct (DOMGetDocument_Call cl p w2) as [o2 w3]. reflexivity.
Qed.

(** Every attempt starts with the discard of the session before it. *)
Lemma search_attempt_starts (sr : SearchResult W) (w : W) :
  exists t, snd (search_attempt cl p query sr w) = prior_discard sr ++ t.
Proof.
  pose proof (search_attempt_outcome sr w) as H.
  inversion H; eauto.
Qed.

(** The trace and the result of Page.Search, from those of its loop. *)
Lemma Search_trace (w : W) :
  snd (Search cl p query w)
  = EvEnableDomain ::
    snd (NewRetry_loop 3 (search_options p) (search_attempt cl p query)
           (new_SearchResult p (fst (EnableDomain_DOMEnable cl p w)))
           (snd (EnableDomain_DOMEnable cl p w))).
Proof.
  rewrite Search_run.
  destruct (EnableDomain_DOMEnable cl p w) as [rst w0]. cbn [fst snd].
  destruct (NewRetry_loop 3 (search_options p) (search_attempt cl p query)
              (new_SearchResult p rst) w0) as [[r w1] t].
  destruct r as [[[e|] sr1] | pk | ]; reflexivity.
Qed.

Lemma Search_returns (w : W) :
  fst (fst (Search cl p query w))
  = match fst (fst (NewRetry_loop 3 (search_options p)
                      (search_attempt cl p query)
                      (new_SearchResult p (fst (EnableDomain_DOMEnable cl p w)))
                      (snd (EnableDomain_DOMEnable cl p w)))) with
    | Ret (Some e, _) => Ret (None, Some e)
    | Ret (None, sr1) => Ret (Some sr1, None)
    | Panicked pk => Panicked pk
    | OutOfFuel => OutOfFuel
    end.
Proof.
  rewrite Search_run.
  destruct (EnableDomain_DOMEnable cl p w) as [rst w0]. cbn [fst snd].
  destruct (NewRetry_loop 3 (search_options p) (search_attempt cl p query)
              (new_SearchResult p rst) w0) as [[r w1] t].
  destruct r as [[[e|] sr1] | pk | ]; reflexivity.
Qed.

(** Every attempt Page.Search records is a run of its function. *)
Lemma Search_attempts (w : W) r inner :
  In (EvFn r inner) (snd (Search cl p query w)) ->
  exists sr0 w0,
    inner = snd (search_attempt cl p query sr0 w0)
    /\ r = returned (fst (fst (search_attempt cl p query sr0 w0))).
Proof.
  rewrite Search_trace. intros [Hin|Hin]; [discriminate|].
  eapply NewRetry_loop_fn_events. exact Hin.
Qed.

End SearchFacts.

(** C2 (as the code has it): when every DOMPerformSearch call succeeds with
    result count 0 and the Sleeper of the page never fails, Page.Search runs
    exactly 3 attempts, with a wait after the first and after the second,
    and returns a SearchResult with First == nil and a nil error; the first
    attempt discards nothing, and the second and the third first discard the
    session of the attempt before them.  What Search does after the third
    attempt holds no attempt and is not described. *)
Theorem Search_no_match_three_attempts :
  forall (W : Type) (cl : Client W) (p : Page W) (query : string),
    (forall w0, exists r w1,
        DOMPerformSearch_Call cl p query true w0 = (inl r, w1)
        /\ ResultCount r = 0%Z) ->
    (forall w0, fst (sleeper p (ctx p) w0) = None) ->
    forall w : W, exists sr r1 r2 r3 rest,
      fst (fst (Search cl p query w)) = Ret (Some sr, None)
      /\ First sr = None
      /\ sr_DOMPerformSearchResult sr = Some r3
      /\ snd (Search cl p query w)
         = [EvEnableDomain;
            EvFn (Some (false, None))
              [EvDOMPerformSearch query true (inl r1)];
            EvSleep None;
            EvFn (Some (false, None))
              [EvDOMDiscardSearchResults (SearchID r1);
               EvDOMPerformSearch query true (inl r2)];
            EvSleep None;
            EvFn (Some (false, None))
              [EvDOMDiscardSearchResults (SearchID r2);
               EvDOMPerformSearch query true (inl r3)]] ++ rest
      /\ attempts rest = []
      /\ List.length (attempts (snd (Search cl p query w))) = 3%nat.
Proof.
  intros W cl p query Hps Hsl w.
  rewrite Search_run.
  destruct (EnableDomain_DOMEnable cl p w) as [rst w0].
  destruct (search_attempt_no_match cl p query (new_SearchResult p rst) w0 Hps)
    as (r1 & w1 & E1).
  rewrite NewRetry_loop_S, E1. cbn [search_options Sleeper Context].
  pose proof (Hsl w1) as S1.
  destruct (sleeper p (ctx p) w1) as [o1 w2]. cbn in S1. subst o1.
  destruct (search_attempt_no_match cl p query
              (set_DOMPerformSearchResult (new_SearchResult p rst) r1) w2 Hps)
    as (r2 & w3 & E2).
  rewrite NewRetry_loop_S, E2. cbn [search_options Sleeper Context].
  pose proof (Hsl w3) as S2.
  destruct (sleeper p (ctx p) w3) as [o2 w4]. cbn in S2. subst o2.
  destruct (search_attempt_no_match cl p query
              (set_DOMPerformSearchResult
                 (set_DOMPerformSearchResult (new_SearchResult p rst) r1) r2)
              w4 Hps)
    as (r3 & w5 & E3).
  rewrite NewRetry_loop_S, E3. cbn [search_options Sleeper Context].
  pose proof (Hsl w5) as S3.
  destruct (sleeper p (ctx p) w5) as [o3 w6]. cbn in S3. subst o3.
  cbn.
  eexists _, r1, r2, r3, [EvSleep None]. repeat split.
Qed.

Lemma Search_no_match_three_attempts_witness :
  exists sr r1 r2 r3 rest,
    fst (fst (Search Scenario.no_match Scenario.pg "q" 0%nat))
    = Ret (Some sr, None)
    /\ First sr = None
    /\ sr_DOMPerformSearchResult sr = Some r3
    /\ snd (Search Scenario.no_match Scenario.pg "q" 0%nat)
       = [EvEnableDomain;
          EvFn (Some (false, None))
            [EvDOMPerformSearch "q" true (inl r1)];
          EvSleep None;
          EvFn (Some (false, None))
            [EvDOMDiscardSearchResults (SearchID r1);
             EvDOMPerformSearch "q" true (inl r2)];
          EvSleep None;
          EvFn (Some (false, None))
            [EvDOMDiscardSearchResults (SearchID r2);
             EvDOMPerformSearch "q" true (inl r3)]] ++ rest
    /\ attempts rest = []
    /\ List.length
         (attempts (snd (Search Scenario.no_match Scenario.pg "q" 0%nat)))
       = 3%nat.
Proof.
  apply (@Search_no_match_three_attempts nat Scenario.no_match Scenario.pg "q").
  - intros w0. eexists _, w0. split; reflexivity.
  - intros w0. reflexivity.
Defined.

(** C2 (as the design states it) fails: on a page whose context is already
    cancelled, in a browser where every search succeeds with result count 0,
    Page.Search makes one attempt, and returns no SearchResult and the
    failure of the Sleeper. *)
Lemma Search_no_match_cancelled :
  (forall p q b w,
      DOMPerformSearch_Call Scenario.no_match p q b w
      = (inl {| SearchID := Scenario.session w; ResultCount := 0 |}, w))
  /\ Search Scenario.no_match Scenario.pg_cancelled "q" 0%nat
     = (Ret (None, Some ErrCanceled), 0%nat,
        [EvEnableDomain;
         EvFn (Some (false, None))
           [EvDOMPerformSearch "q" true
              (inl {| SearchID := "s1"; ResultCount := 0 |})];
         EvSleep (Some ErrCanceled)])
  /\ fn_calls (snd (Search Scenario.no_match Scenario.pg_cancelled "q" 0%nat))
     = 1%nat.
Proof. repeat split. Qed.

(** C4: inside a Search attempt, a fetch of the first result that fails with
    a "context not found" or "search session not found" error ends the
    attempt there, with the signal to retry (stop=false, no error) and with
    no call after the failed fetch, so nothing is discarded; a fetch that
    fails with any other error ends the attempt with stop=true and that
    error, and Search returns no SearchResult and that error unchanged. *)
Theorem Search_fetch_failure :
  forall (W : Type) (cl : Client W) (p : Page W) (query : string) (w : W)
         (r : option (bool * option error)) (inner : list (event W))
         (id : string) (a b : Z) (err : error),
    In (EvFn r inner) (snd (Search cl p query w)) ->
    In (EvDOMGetSearchResults id a b (inr err)) inner ->
    (exists sr0 r0,
        ResultCount r0 <> 0%Z
        /\ inner = prior_discard sr0 ++
                   [EvDOMPerformSearch query true (inl r0);
                    EvDOMGetSearchResults (SearchID r0) 0 1 (inr err)]
        /\ r = Some (if errors_Is err IsCtxNotFound
                        || errors_Is err IsSearchSessionNotFound
                     then (false, None)
                     else (true, Some err)))
    /\ (errors_Is err IsCtxNotFound || errors_Is err IsSearchSessionNotFound
        = false ->
        fst (fst (Search cl p query w)) = Ret (None, Some err)).
Proof.
  intros W cl p query w r inner id a b err Hfn Hget.
  destruct (Search_attempts cl p query w r inner Hfn) as (sr0 & w0 & Hi & Hr).
  rewrite Hi in Hget.
  destruct (search_attempt_fetch_error cl p query sr0 w0 id a b err Hget)
    as (r0 & Hc & Ht & Hres).
  unfold transient in Hres.
  assert (Er : r = Some (if errors_Is err IsCtxNotFound
                            || errors_Is err IsSearchSessionNotFound
                         then (false, None) else (true, Some err))).
  { rewrite Hr, Hres.
    destruct (errors_Is err IsCtxNotFound
              || errors_Is err IsSearchSessionNotFound); reflexivity. }
  split.
  - exists sr0, r0. rewrite Hi, Ht. auto.
  - intros Hfatal. rewrite Hfatal in Er. rewrite Er in Hfn.
    rewrite Search_trace in Hfn. destruct Hfn as [Hfn|Hfn]; [discriminate|].
    apply NewRetry_loop_stop in Hfn. destruct Hfn as [c' Hc'].
    rewrite Search_returns, Hc'. reflexivity.
Qed.

Lemma Search_fetch_failure_witness :
  (exists sr0 r0,
      ResultCount r0 <> 0%Z
      /\ Scenario.failed_fetch
         = prior_discard sr0 ++
           [EvDOMPerformSearch "q" true (inl r0);
            EvDOMGetSearchResults (SearchID r0) 0 1 (inr (ErrOther "boom"))]
      /\ Some (true, Some (ErrOther "boom"))
         = Some (if errors_Is (ErrOther "boom") IsCtxNotFound
                    || errors_Is (ErrOther "boom") IsSearchSessionNotFound
                 then (false, None)
                 else (true, Some (ErrOther "boom"))))
  /\ fst (fst (Search Scenario.fetch_fails Scenario.pg "q" 0%nat))
     = Ret (None, Some (ErrOther "boom")).
Proof.
  refine (let H := @Search_fetch_failure nat Scenario.fetch_fails Scenario.pg
                     "q" 0%nat (Some (true, Some (ErrOther "boom")))
                     Scenario.failed_fetch "s1" 0%Z 1%Z (ErrOther "boom") _ _
          in conj (proj1 H) (proj2 H eq_refl)).
  - cbn. right. left. reflexivity.
  - cbn. right. left. reflexivity.
Defined.

(** C5: a Search attempt whose search finds something and whose fetch of
    the first result answers the node identifier 0 makes one DOMGetDocument
    call and ends with the signal to retry (stop=false, no error); when this
    happens on the first attempt of Search, Search waits and, the wait
    granted, makes a second attempt, which starts by discarding the session
    of the first (a failed wait ends Search with its failure).  Read off
    the trace: a fetch that answers 0 is always followed by the
    DOMGetDocument call, Search never asks for the element of the node
    identifier 0, and a First it returns is the element of a node identifier
    other than 0. *)
Theorem Search_sentinel_node :
  forall (W : Type) (cl : Client W) (p : Page W) (query : string) (w : W),
    (forall sr0 w0 r w1 ids w2,
        DOMPerformSearch_Call cl p query true (after_prior_discard cl p sr0 w0)
          = (inl r, w1) ->
        ResultCount r <> 0%Z ->
        DOMGetSearchResults_Call cl p (SearchID r) 0 1 w1
          = (inl (0%Z :: ids), w2) ->
        search_attempt cl p query sr0 w0
        = (Ret (false, None, set_DOMPerformSearchResult sr0 r),
           snd (DOMGetDocument_Call cl p w2),
           prior_discard sr0 ++
           [EvDOMPerformSearch query true (inl r);
            EvDOMGetSearchResults (SearchID r) 0 1 (inl (0%Z :: ids));
            EvDOMGetDocument]))
    /\ (forall r w1 ids w2,
          DOMPerformSearch_Call cl p query true
            (snd (EnableDomain_DOMEnable cl p w)) = (inl r, w1) ->
          ResultCount r <> 0%Z ->
          DOMGetSearchResults_Call cl p (SearchID r) 0 1 w1
            = (inl (0%Z :: ids), w2) ->
          exists rest,
            snd (Search cl p query w)
            = EvEnableDomain ::
              EvFn (Some (false, None))
                [EvDOMPerformSearch query true (inl r);
                 EvDOMGetSearchResults (SearchID r) 0 1 (inl (0%Z :: ids));
                 EvDOMGetDocument] ::
              EvSleep (fst (sleeper p (ctx p)
                              (snd (DOMGetDocument_Call cl p w2)))) :: rest
            /\ (fst (sleeper p (ctx p) (snd (DOMGetDocument_Call cl p w2)))
                  = None ->
                exists r' inner' rest',
                  rest = EvFn r' (EvDOMDiscardSearchResults (SearchID r)
                                  :: inner') :: rest')
            /\ (forall e,
                  fst (sleeper p (ctx p) (snd (DOMGetDocument_Call cl p w2)))
                    = Some e ->
                  rest = []
                  /\ fst (fst (Search cl p query w)) = Ret (None, Some e)))
    /\ (forall r inner id a b ids,
        In (EvFn r inner) (snd (Search cl p query w)) ->
        In (EvDOMGetSearchResults id a b (inl (0%Z :: ids))) inner ->
        exists sr0 r0,
          ResultCount r0 <> 0%Z
          /\ inner = prior_discard sr0 ++
                     [EvDOMPerformSearch query true (inl r0);
                      EvDOMGetSearchResults (SearchID r0) 0 1
                        (inl (0%Z :: ids));
                      EvDOMGetDocument]
          /\ r = Some (false, None))
    /\ (forall x, ~ In (EvElementFromNode 0 x) (snd (Search cl p query w)))
    /\ (forall r inner x,
          In (EvFn r inner) (snd (Search cl p query w)) ->
          ~ In (EvElementFromNode 0 x) inner)
    /\ (forall sr el,
          fst (fst (Search cl p query w)) = Ret (Some sr, None) ->
          First sr = Some el ->
          exists inner id,
            id <> 0%Z
            /\ In (EvFn (Some (true, None)) inner) (snd (Search cl p query w))
            /\ In (EvElementFromNode id (inl el)) inner).
Proof.
  intros W cl p query w.
  split; [|split; [|repeat split]].
  - intros sr0 w0 r w1 ids w2 Hs Hc Hg.
    exact (search_attempt_refresh cl p query sr0 w0 Hs Hc Hg).
  - intros r w1 ids w2 Hs Hc Hg.
    rewrite Search_run.
    destruct (EnableDomain_DOMEnable cl p w) as [rst w0]. cbn [snd] in Hs.
    pose proof (search_attempt_refresh cl p query (new_SearchResult p rst) w0
                  Hs Hc Hg) as E1.
    change (prior_discard (new_SearchResult p rst)) with (@nil (event W)) in E1.
    cbn [app] in E1.
    rewrite NewRetry_loop_S, E1. cbn [search_options Sleeper Context].
    set (w3 := snd (DOMGetDocument_Call cl p w2)).
    destruct (sleeper p (ctx p) w3) as [[e|] w4].
    + cbn. exists []. split; [reflexivity|]. split; [discriminate|].
      intros e0 He. inversion He; subst. split; reflexivity.
    + destruct (NewRetry_loop_first (search_options p)
                  (search_attempt cl p query) 1
                  (set_DOMPerformSearchResult (new_SearchResult p rst) r) w4)
        as (rest' & Hrest).
      destruct (search_attempt_starts cl p query
                  (set_DOMPerformSearchResult (new_SearchResult p rst) r) w4)
        as (t & Ht).
      rewrite Ht in Hrest.
      destruct (NewRetry_loop 2 (search_options p) (search_attempt cl p query)
                  (set_DOMPerformSearchResult (new_SearchResult p rst) r) w4)
        as [[r3 w5] t3].
      cbn [snd] in Hrest. subst t3.
      exists (EvFn
                (returned
                   (fst (fst (search_attempt cl p query
                                (set_DOMPerformSearchResult
                                   (new_SearchResult p rst) r) w4))))
                (prior_discard
                   (set_DOMPerformSearchResult (new_SearchResult p rst) r)
                 ++ t) :: rest').
      split; [|split].
      * destruct r3 as [[[e|] sr1] | pk | ]; reflexivity.
      * intros _. eexists _, t, rest'. reflexivity.
      * cbn. intros e He. discriminate.
  - intros r inner id a b ids Hfn Hget.
    destruct (Search_attempts cl p query w r inner Hfn) as (sr0 & w0 & Hi & Hr).
    rewrite Hi in Hget.
    destruct (search_attempt_sentinel cl p query sr0 w0 id a b ids Hget)
      as (r0 & Hc & Ht & Hres).
    exists sr0, r0. rewrite Hi, Ht, Hr, Hres. auto.
  - intros x. rewrite Search_trace. intros [Hin|Hin]; [discriminate|].
    apply NewRetry_loop_events in Hin.
    destruct Hin as [(r & inner & E)|(r & E)]; discriminate.
  - intros r inner x Hfn Hin.
    destruct (Search_attempts cl p query w r inner Hfn) as (sr0 & w0 & Hi & Hr).
    rewrite Hi in Hin. exact (search_attempt_no_zero_node cl p query sr0 w0 x Hin).
  - intros sr el Hres Hel.
    rewrite Search_returns in Hres. rewrite Search_trace.
    set (rst := fst (EnableDomain_DOMEnable cl p w)) in *.
    set (w0 := snd (EnableDomain_DOMEnable cl p w)) in *.
    destruct (fst (fst (NewRetry_loop 3 (search_options p)
                          (search_attempt cl p query)
                          (new_SearchResult p rst) w0)))
      as [[[e|] sr1] | pk | ] eqn:E; try discriminate.
    inversion Hres; subst sr1.
    assert (Hpres : forall c w2 err c1,
               First c = None ->
               fst (fst (search_attempt cl p query c w2)) = Ret (false, err, c1) ->
               First c1 = None).
    { intros c w2 err c1 Hc Hatt.
      destruct (search_attempt_keeps cl p query c w2 Hatt) as (_ & _ & _ & HF).
      rewrite HF; auto. }
    destruct (@NewRetry_loop_final W (SearchResult W) (search_options p)
                (search_attempt cl p query) (fun c => First c = None) Hpres
                3%nat (new_SearchResult p rst) w0 None sr eq_refl E)
      as [Hnone|(c1 & w1 & Hc1 & Hrun & Hin)].
    + congruence.
    + destruct (search_attempt_First cl p query c1 w1 Hc1 Hrun Hel)
        as (_ & _ & id & Hid & Hnode).
      exists (snd (search_attempt cl p query c1 w1)), id.
      repeat split; auto. right. exact Hin.
Qed.

Lemma Search_sentinel_node_witness :
  exists rest,
    snd (Search Scenario.document_replaced Scenario.pg "q" 0%nat)
    = EvEnableDomain ::
      EvFn (Some (false, None)) Scenario.refreshed :: EvSleep None :: rest
    /\ exists r' inner' rest',
         rest = EvFn r' (EvDOMDiscardSearchResults "s1" :: inner') :: rest'.
Proof.
  destruct (proj1 (proj2 (@Search_sentinel_node nat Scenario.document_replaced
                            Scenario.pg "q" 0%nat))
              {| SearchID := "s1"; ResultCount := 1 |} 0%nat [] 0%nat
              eq_refl ltac:(cbn; lia) eq_refl)
    as (rest & Ht & Hnext & _).
  exists rest. split; [exact Ht | exact (Hnext eq_refl)].
Defined.

(** C9: every SearchResult that Page.Search returns with a nil error holds
    the result of a DOMPerformSearch call, whether or not First was set;
    Release on it runs the restore action that EnableDomain gave, then the
    remote discard call for the SearchID of that result, and returns without
    a panic. *)
Theorem Search_result_release_safe :
  forall (W : Type) (cl : Client W) (p : Page W) (query : string) (w : W)
         (sr : SearchResult W),
    fst (fst (Search cl p query w)) = Ret (Some sr, None) ->
    exists r,
      sr_DOMPerformSearchResult sr = Some r
      /\ page sr = p
      /\ restore sr = fst (EnableDomain_DOMEnable cl p w)
      /\ forall w0,
          SearchResult_Release cl sr w0
          = (Ret tt,
             snd (DOMDiscardSearchResults_Call cl p (SearchID r)
                    (snd (restore sr w0))),
             [EvRestore; EvDOMDiscardSearchResults (SearchID r)]).
Proof.
  intros W cl p query w sr Hres.
  rewrite Search_returns in Hres.
  set (rst := fst (EnableDomain_DOMEnable cl p w)) in *.
  set (w0 := snd (EnableDomain_DOMEnable cl p w)) in *.
  set (I := fun c : SearchResult W =>
              page c = p /\ restore c = rst
              /\ exists r, sr_DOMPerformSearchResult c = Some r).
  assert (HI : I sr).
  { rewrite NewRetry_loop_S in Hres.
    pose proof (@search_attempt_keeps W cl p query (new_SearchResult p rst) w0)
      as Hk.
    destruct (search_attempt cl p query (new_SearchResult p rst) w0)
      as [[r1 w1] t1].
    destruct r1 as [[[stop err] c1] | pk | ]; cbn in Hk;
      [ | cbn in Hres; discriminate | cbn in Hres; discriminate ].
    destruct (Hk _ _ _ eq_refl) as (Hp & Hr & Hs & _).
    assert (HI1 : err = None -> I c1).
    { intros ->. repeat split; auto.
      destruct Hs as [Hs|(_ & _ & e & He)]; [exact Hs|discriminate]. }
    destruct stop.
    - cbn in Hres. destruct err; inversion Hres; subst. auto.
    - assert (Hc1 : I c1).
      { repeat split; auto.
        destruct Hs as [Hs|(_ & Hstop & _)]; [exact Hs|discriminate]. }
      cbn [search_options Sleeper Context] in Hres.
      destruct (sleeper p (ctx p) w1) as [[e1|] w2];
        [cbn in Hres; discriminate|].
      destruct (NewRetry_loop 2 (search_options p) (search_attempt cl p query)
                  c1 w2) as [[r3 w3] t3] eqn:E3.
      cbn in Hres.
      destruct r3 as [[[e|] sr1] | pk | ]; try discriminate.
      inversion Hres; subst sr1.
      apply (@NewRetry_loop_preserves W (SearchResult W) (search_options p)
               (search_attempt cl p query) I) with (n := 2%nat) (c := c1)
               (w := w2) (err := None); auto.
      + intros c w4 stop err0 c2 (Hcp & Hcr & r & Hcs) Hatt.
        destruct (search_attempt_keeps cl p query c w4 Hatt)
          as (Hp2 & Hr2 & Hs2 & _).
        repeat split; try congruence.
        destruct Hs2 as [Hs2|(-> & _)]; eauto.
      + rewrite E3. reflexivity. }
  destruct HI as (Hp & Hr & r & Hs).
  exists r. repeat split; auto.
  intros w1. unfold SearchResult_Release, discard, bind, call, ret.
  rewrite Hs, Hp.
  destruct (restore sr w1) as [u w2]. cbn.
  destruct (DOMDiscardSearchResults_Call cl p (SearchID r) w2) as [o w3].
  reflexivity.
Qed.

Lemma Search_result_release_safe_witness :
  exists r,
    sr_DOMPerformSearchResult Scenario.empty_handed = Some r
    /\ page Scenario.empty_handed = Scenario.pg
    /\ restore Scenario.empty_handed
       = fst (EnableDomain_DOMEnable Scenario.no_match Scenario.pg 0%nat)
    /\ forall w0,
        SearchResult_Release Scenario.no_match Scenario.empty_handed w0
        = (Ret tt,
           snd (DOMDiscardSearchResults_Call Scenario.no_match Scenario.pg
                  (SearchID r) (snd (restore Scenario.empty_handed w0))),
           [EvRestore; EvDOMDiscardSearchResults (SearchID r)]).
Proof.
  apply (@Search_result_release_safe nat Scenario.no_match Scenario.pg "q"
           0%nat Scenario.empty_handed).
  reflexivity.
Defined.

(** ** Properties of Page.ElementsByJS *)

Section ElementsFacts.

Context {W : Type}.
Variable cl : Client W.
Variable p : Page W.

Lemma subtype_is_node_true (s : RuntimeRemoteObjectSubtype) :
  subtype_is_node s = true <-> s = SubtypeNode.
Proof. destruct s; cbn; split; congruence. Qed.

(** The loop over the own properties returns; what it returns and does. *)
Lemma ElementsByJS_loop_run (l : list RuntimePropertyDescriptor) :
  forall (acc : list (Element W)) (w : W),
  exists out w' t,
    ElementsByJS_loop cl p l acc w = (Ret out, w', t)
    /\ (forall obj, ~ In (EvRelease obj) t)
    /\ (forall els, out = inl els ->
          exists new,
            els = acc ++ new
            /\ List.length new = List.length (kept l)
            /\ Forall (fun d => Subtype (Value d) = SubtypeNode) (kept l)
            /\ t = materialized (kept l) new).
Proof.
  induction l as [|obj l IH]; intros acc w.
  - exists (inl acc), w, []. cbn. repeat split; auto.
    intros els E. inversion E; subst. exists []. rewrite app_nil_r.
    repeat split. constructor.
  - cbn [ElementsByJS_loop kept filter].
    destruct (skipped_name (Name obj)) eqn:Hskip; cbn [negb].
    + apply IH.
    + destruct (subtype_is_node (Subtype (Value obj))) eqn:Hnode; cbn [negb].
      * unfold bind, call.
        destruct (ElementFromObject cl p (Value obj) w) as [[el|err] w1].
        -- destruct (IH (acc ++ [el]) w1) as (out & w' & t & E & Hrel & Hok).
           rewrite E.
           exists out, w', (EvElementFromObject (Value obj) (inl el) :: t).
           split; [reflexivity|]. split.
           ++ intros o [Hin|Hin]; [discriminate|]. exact (Hrel o Hin).
           ++ intros els Hout.
              destruct (Hok els Hout) as (new & He & Hl & Hf & Ht).
              exists (el :: new). rewrite <- app_assoc in He.
              repeat split; auto.
              ** cbn. rewrite Hl. reflexivity.
              ** constructor; [apply subtype_is_node_true; exact Hnode|exact Hf].
              ** cbn. rewrite Ht. reflexivity.
        -- exists (inr err), w1, [EvElementFromObject (Value obj) (inr err)].
           cbn. repeat split; try discriminate.
           intros o [Hin|[]]. discriminate.
      * exists (inr (ErrExpectElements (Value obj))), w, []. cbn.
        repeat split; auto. discriminate.
Qed.

(** The loop succeeds when every kept value is a node and can be turned
    into an element. *)
Lemma ElementsByJS_loop_total (l : list RuntimePropertyDescriptor) :
  Forall (fun d => Subtype (Value d) = SubtypeNode) (kept l) ->
  (forall d w0, In d (kept l) ->
     exists el w1, ElementFromObject cl p (Value d) w0 = (inl el, w1)) ->
  forall (acc : list (Element W)) (w : W),
  exists els, fst (fst (ElementsByJS_loop cl p l acc w)) = Ret (inl els).
Proof.
  induction l as [|obj l IH]; intros Hnodes Hobj acc w.
  - exists acc. reflexivity.
  - cbn [ElementsByJS_loop]. cbn [kept filter] in Hnodes, Hobj.
    destruct (skipped_name (Name obj)) eqn:Hskip; cbn [negb] in *.
    + apply IH; assumption.
    + inversion Hnodes as [|? ? Hn Hrest]; subst.
      apply subtype_is_node_true in Hn. rewrite Hn. cbn [negb].
      unfold bind, call.
      destruct (Hobj obj w (or_introl eq_refl)) as (el & w1 & E). rewrite E.
      destruct (IH Hrest (fun d w0 Hd => Hobj d w0 (or_intror Hd))
                  (acc ++ [el]) w1) as (els & Hels).
      destruct (ElementsByJS_loop cl p l (acc ++ [el]) w1) as [[r w2] t].
      cbn in Hels |- *. subst r. exists els. reflexivity.
Qed.

End ElementsFacts.

(** C8: when the evaluation yields an array-typed remote object,
    ElementsByJS asks for its own properties, skips the entries named
    "__proto__" and "length", and returns; the array object is released
    exactly once, as the last call, whether the result is a list or an
    error.  A returned list holds, in enumeration order, one element per
    entry that is not skipped, all of them node-typed; an entry that is not
    skipped and not node-typed makes the call return an error; and the call
    returns a list when all of them are node-typed and become elements. *)
Theorem ElementsByJS_array :
  forall (W : Type) (cl : Client W) (p : Page W) (opts : EvalOptions) (w : W)
         (res : RuntimeRemoteObject) (w1 : W)
         (gp : list RuntimePropertyDescriptor + error) (w2 : W),
    Evaluate cl p (ByObject opts) w = (inl res, w1) ->
    Subtype res = SubtypeArray ->
    RuntimeGetProperties_Call cl p (ObjectID res) true w1 = (gp, w2) ->
    exists out w' t0,
      ElementsByJS cl p opts w
      = (Ret out, w',
         [EvEvaluate (ByObject opts) (inl res);
          EvRuntimeGetProperties (ObjectID res) true gp]
         ++ t0 ++ [EvRelease res])
      /\ (forall obj, ~ In (EvRelease obj) t0)
      /\ match gp with
         | inr err => out = inr err /\ t0 = []
         | inl props =>
             (forall els, out = inl els ->
                Forall (fun d => Subtype (Value d) = SubtypeNode) (kept props)
                /\ List.length els = List.length (kept props)
                /\ t0 = materialized (kept props) els)
             /\ ((exists d, In d (kept props)
                            /\ Subtype (Value d) <> SubtypeNode) ->
                 exists err, out = inr err)
             /\ (Forall (fun d => Subtype (Value d) = SubtypeNode)
                    (kept props) ->
                 (forall d w0, In d (kept props) ->
                    exists el w3,
                      ElementFromObject cl p (Value d) w0 = (inl el, w3)) ->
                 exists els, out = inl els)
         end.
Proof.
  intros W cl p opts w res w1 gp w2 Hev Harr Hgp.
  unfold ElementsByJS, bind, call, ret.
  rewrite Hev, Harr. cbn [subtype_is_array negb]. rewrite Hgp.
  destruct gp as [props|err].
  - pose proof (ElementsByJS_loop_total cl p props) as Htot.
    destruct (ElementsByJS_loop_run cl p props [] w2)
      as (out & w3 & t & E & Hrel & Hok).
    specialize (fun H1 H2 => Htot H1 H2 [] w2).
    rewrite E in *. cbn in Htot.
    destruct (Release cl p res w3) as [o w4].
    exists out, w4, t. cbn. rewrite ?app_nil_r.
    split; [reflexivity|]. split; [exact Hrel|].
    assert (Hlist : forall els, out = inl els ->
              Forall (fun d => Subtype (Value d) = SubtypeNode) (kept props)
              /\ List.length els = List.length (kept props)
              /\ t = materialized (kept props) els).
    { intros els Hout.
      destruct (Hok els Hout) as (new & He & Hl & Hf & Ht).
      cbn in He. subst new. auto. }
    split; [exact Hlist|]. split.
    + intros (d & Hd & Hnn).
      destruct out as [els|err]; [|eauto].
      destruct (Hlist els eq_refl) as (Hf & _).
      rewrite Forall_forall in Hf. elim Hnn. apply Hf. exact Hd.
    + intros H1 H2. destruct (Htot H1 H2) as [els Hels].
      inversion Hels. eauto.
  - destruct (Release cl p res w2) as [o w4].
    exists (inr err), w4, []. cbn. repeat split; auto.
Qed.

Lemma ElementsByJS_array_witness :
  exists out w' t0,
    ElementsByJS Scenario.node_list Scenario.pg Scenario.any_js 0%nat
    = (Ret out, w',
       [EvEvaluate (ByObject Scenario.any_js) (inl Scenario.array_object);
        EvRuntimeGetProperties (ObjectID Scenario.array_object) true
          (inl Scenario.three_nodes)]
       ++ t0 ++ [EvRelease Scenario.array_object])
    /\ (forall obj, ~ In (EvRelease obj) t0)
    /\ (forall els, out = inl els ->
          Forall (fun d => Subtype (Value d) = SubtypeNode)
            (kept Scenario.three_nodes)
          /\ List.length els = List.length (kept Scenario.three_nodes)
          /\ t0 = materialized (kept Scenario.three_nodes) els)
    /\ ((exists d, In d (kept Scenario.three_nodes)
                   /\ Subtype (Value d) <> SubtypeNode) ->
        exists err, out = inr err)
    /\ (Forall (fun d => Subtype (Value d) = SubtypeNode)
           (kept Scenario.three_nodes) ->
        (forall d w0, In d (kept Scenario.three_nodes) ->
           exists el w3,
             ElementFromObject Scenario.node_list Scenario.pg (Value d) w0
             = (inl el, w3)) ->
        exists els, out = inl els).
Proof.
  apply (@ElementsByJS_array nat Scenario.node_list Scenario.pg Scenario.any_js
           0%nat Scenario.array_object 0%nat (inl Scenario.three_nodes) 0%nat).
  - reflexivity.
  - reflexivity.
  - reflexivity.
Defined.

(** The array of three nodes: the three elements, in order, and one
    release of the array. *)
Example ElementsByJS_three_nodes :
  ElementsByJS Scenario.node_list Scenario.pg Scenario.any_js 0%nat
  = (Ret (inl [Scenario.handle Scenario.pg (Scenario.node_object "a");
               Scenario.handle Scenario.pg (Scenario.node_object "b");
               Scenario.handle Scenario.pg (Scenario.node_object "c")]),
     0%nat,
     [EvEvaluate (ByObject Scenario.any_js) (inl Scenario.array_object);
      EvRuntimeGetProperties "arr" true (inl Scenario.three_nodes);
      EvElementFromObject (Scenario.node_object "a")
        (inl (Scenario.handle Scenario.pg (Scenario.node_object "a")));
      EvElementFromObject (Scenario.node_object "b")
        (inl (Scenario.handle Scenario.pg (Scenario.node_object "b")));
      EvElementFromObject (Scenario.node_object "c")
        (inl (Scenario.handle Scenario.pg (Scenario.node_object "c")));
      EvRelease Scenario.array_object]).
Proof. reflexivity. Qed.

(** ** Properties of the unbounded retry loop *)

Section utilsRetryFacts.

Context {W C : Type}.
Variable c0 : context.
Variable s : utils_Sleeper W.
Variable fn : C -> M W (bool * option error * C).

Lemma utils_Retry_S (n : nat) (c : C) (w : W) :
  utils_Retry (S n) c0 s fn c w =
  match fn c w with
  | (Ret (true, err, c1), w1, t1) =>
      (Ret (err, c1), w1, [EvFn (Some (true, err)) t1])
  | (Ret (false, err, c1), w1, t1) =>
      match s c0 w1 with
      | (Some e, w2) =>
          (Ret (Some e, c1), w2,
           [EvFn (Some (false, err)) t1; EvSleep (Some e)])
      | (None, w2) =>
          match utils_Retry n c0 s fn c1 w2 with
          | (r, w3, t3) =>
              (r, w3, EvFn (Some (false, err)) t1 :: EvSleep None :: t3)
          end
      end
  | (Panicked pk, w1, t1) => (Panicked pk, w1, [EvFn None t1])
  | (OutOfFuel, w1, t1) => (OutOfFuel, w1, [EvFn None t1])
  end.
Proof.
  cbn [utils_Retry]. unfold bind, invoke, sleep, call, ret.
  destruct (fn c w) as [[r w1] t1].
  destruct r as [[[stop err] c1] | pk | ]; try reflexivity.
  destruct stop; try reflexivity.
  destruct (s c0 w1) as [[e|] w2]; try reflexivity.
  destruct (utils_Retry n c0 s fn c1 w2) as [[r w3] t3]. reflexivity.
Qed.

(** Every recorded round is a run of the function. *)
Lemma utils_Retry_fn_events (n : nat) :
  forall (c : C) (w : W) r inner,
    In (EvFn r inner) (snd (utils_Retry n c0 s fn c w)) ->
    exists c1 w1,
      inner = snd (fn c1 w1) /\ r = returned (fst (fst (fn c1 w1))).
Proof.
  induction n as [|m IH]; intros c w r inner Hin.
  - cbn in Hin. contradiction.
  - rewrite utils_Retry_S in Hin.
    destruct (fn c w) as [[r1 w1] t1] eqn:E1.
    assert (Hhere : EvFn (returned r1) t1 = EvFn r inner ->
                    exists c1 w1,
                      inner = snd (fn c1 w1)
                      /\ r = returned (fst (fst (fn c1 w1)))).
    { intros Hx. inversion Hx; subst. exists c, w. rewrite E1. auto. }
    destruct r1 as [[[stop err] c1] | pk | ].
    + destruct stop.
      * cbn in Hin. destruct Hin as [Hin|[]]. auto.
      * destruct (s c0 w1) as [[e1|] w2].
        -- cbn in Hin. destruct Hin as [Hin|[Hin|[]]]; [auto|discriminate].
        -- specialize (IH c1 w2 r inner).
           destruct (utils_Retry m c0 s fn c1 w2) as [[r3 w3] t3].
           cbn in Hin. destruct Hin as [Hin|[Hin|Hin]]; [auto|discriminate|auto].
    + cbn in Hin. destruct Hin as [Hin|[]]. auto.
    + cbn in Hin. destruct Hin as [Hin|[]]. auto.
Qed.

(** A round that says stop is the last thing the loop does, and the loop
    returns what that round returned.  [I] is a property of the captured
    variables that rounds which do not stop keep. *)
Lemma utils_Retry_stop (I : C -> Prop) :
  (forall c w err c1,
      I c -> fst (fst (fn c w)) = Ret (false, err, c1) -> I c1) ->
  forall (n : nat) (c : C) (w : W) err inner,
    I c ->
    In (EvFn (Some (true, err)) inner) (snd (utils_Retry n c0 s fn c w)) ->
    exists c1 w1 c' t0,
      I c1
      /\ fst (fst (fn c1 w1)) = Ret (true, err, c')
      /\ snd (fn c1 w1) = inner
      /\ fst (fst (utils_Retry n c0 s fn c w)) = Ret (err, c')
      /\ snd (utils_Retry n c0 s fn c w)
         = t0 ++ [EvFn (Some (true, err)) inner].
Proof.
  intros Hpres. induction n as [|m IH]; intros c w err inner Hc Hin.
  - cbn in Hin. contradiction.
  - rewrite utils_Retry_S in Hin |- *.
    pose proof (Hpres c w) as Hstep.
    destruct (fn c w) as [[r1 w1] t1] eqn:E1.
    destruct r1 as [[[stop err1] c1] | pk | ]; cbn in Hstep.
    + destruct stop.
      * cbn in Hin |- *. destruct Hin as [Hin|[]]. inversion Hin; subst.
        exists c, w, c1, []. rewrite E1. cbn. auto.
      * specialize (Hstep _ _ Hc eq_refl).
        destruct (s c0 w1) as [[e1|] w2].
        -- cbn in Hin. destruct Hin as [Hin|[Hin|[]]]; discriminate.
        -- specialize (IH c1 w2 err inner Hstep).
           destruct (utils_Retry m c0 s fn c1 w2) as [[r3 w3] t3].
           cbn in Hin, IH |- *.
           destruct Hin as [Hin|[Hin|Hin]]; try discriminate.
           destruct (IH Hin) as (c2 & w4 & c' & t0 & H1 & H2 & H3 & H4 & H5).
           exists c2, w4, c', (EvFn (Some (false, err1)) t1 :: EvSleep None :: t0).
           rewrite H5. auto.
    + cbn in Hin. destruct Hin as [Hin|[]]. discriminate.
    + cbn in Hin. destruct Hin as [Hin|[]]. discriminate.
Qed.

(** A run that ended within the bound is the same under any larger bound. *)
Lemma utils_Retry_mono (n : nat) :
  forall (c : C) (w : W) (n' : nat),
    fst (fst (utils_Retry n c0 s fn c w)) <> OutOfFuel ->
    (n <= n')%nat ->
    utils_Retry n' c0 s fn c w = utils_Retry n c0 s fn c w.
Proof.
  induction n as [|m IH]; intros c w n' Hfuel Hle.
  - cbn in Hfuel. congruence.
  - destruct n' as [|m']; [lia|].
    rewrite utils_Retry_S in Hfuel. rewrite !utils_Retry_S.
    destruct (fn c w) as [[r1 w1] t1].
    destruct r1 as [[[stop err1] c1] | pk | ]; try reflexivity.
    destruct stop; try reflexivity.
    destruct (s c0 w1) as [[e1|] w2]; try reflexivity.
    rewrite (IH c1 w2 m'); [reflexivity| |lia].
    destruct (utils_Retry m c0 s fn c1 w2) as [[r3 w3] t3]. exact Hfuel.
Qed.

End utilsRetryFacts.

(** ** Properties of the race *)

Section RaceFacts.

Context {W : Type}.
Variable p : Page W.

(** Events of conditions carry the positions from [i] on and the answers. *)
Lemma In_cond_events (rs : list (option (Element W) * option error)) :
  forall (i k : nat) r,
    In (EvCondition k r) (cond_events i rs) ->
    In r rs /\ (i <= k < i + List.length rs)%nat.
Proof.
  induction rs as [|r0 rs IH]; intros i k r Hin; cbn in Hin.
  - contradiction.
  - destruct Hin as [Hin|Hin].
    + inversion Hin; subst. cbn. split; [auto|lia].
    + destruct (IH _ _ _ Hin) as [H1 H2]. cbn. split; [auto|lia].
Qed.

Lemma cond_events_only (rs : list (option (Element W) * option error)) :
  forall (i : nat) ev,
    In ev (cond_events i rs) -> exists k r, ev = EvCondition k r.
Proof.
  induction rs as [|r0 rs IH]; intros i ev Hin; cbn in Hin.
  - contradiction.
  - destruct Hin as [<-|Hin]; eauto.
Qed.

(** One more branch in front, whose condition answered not-found. *)
Lemma tick_outcome_cons (b : raceBranch W) (bs : list (raceBranch W)) (i : nat)
  (el : option (Element W)) r0 r t :
  not_found_answer r0 = true ->
  tick_outcome p bs (S i) el r t ->
  tick_outcome p (b :: bs) i el r (EvCondition i r0 :: t).
Proof.
  intros Hnf H.
  destruct H as [rs Hf Hl | rs b1 bEl cberr Hf Hn Hcb | rs x e Hf Hl He
                | rs Hf Hl].
  - apply (@nobody_yet W p (b :: bs) i el (r0 :: rs)).
    + constructor; assumption.
    + cbn. rewrite Hl. reflexivity.
  - rewrite Nat.add_succ_r.
    apply (@winner W p (b :: bs) i el (r0 :: rs) b1 bEl cberr); auto.
  - rewrite Nat.add_succ_r.
    apply (@fatal W p (b :: bs) i el (r0 :: rs) x e); auto. cbn. lia.
  - rewrite Nat.add_succ_r.
    apply (@nil_element W p (b :: bs) i el (r0 :: rs)); auto. cbn. lia.
Qed.

(** Every tick is one of the outcomes. *)
Lemma race_tick_outcome (bs : list (raceBranch W)) :
  forall (i : nat) (el : option (Element W)) (w : W),
    tick_outcome p bs i el (fst (fst (race_tick p bs i el w)))
      (snd (race_tick p bs i el w)).
Proof.
  induction bs as [|b bs IH]; intros i el w.
  - cbn. apply (@nobody_yet W p [] i el []); auto.
  - cbn [race_tick]. unfold bind, call.
    destruct (condition b (Page_Sleeper p NotFoundSleeper) w)
      as [[bEl err] w1].
    destruct err as [e|].
    + destruct (errors_Is e IsElementNotFound) eqn:He; cbn [negb].
      * specialize (IH (S i) el w1).
        destruct (race_tick p bs (S i) el w1) as [[r w2] t]. cbn in IH |- *.
        apply tick_outcome_cons; [|exact IH].
        unfold not_found_answer. cbn. exact He.
      * cbn. apply (@fatal W p (b :: bs) i el [] bEl e); auto. cbn. lia.
    + destruct bEl as [x|].
      * destruct (callback b) as [cb|] eqn:Hcb.
        -- unfold bind, call, ret.
           destruct (cb (Element_Sleeper x (sleeper p)) w1) as [cberr w2]. cbn.
           pose proof (@winner W p (b :: bs) i el [] b x cberr
                         (Forall_nil _) eq_refl) as Hw.
           unfold callback_events in Hw. rewrite Hcb in Hw. cbn in Hw.
           apply Hw. discriminate.
        -- cbn.
           pose proof (@winner W p (b :: bs) i el [] b x None
                         (Forall_nil _) eq_refl) as Hw.
           unfold callback_events in Hw. rewrite Hcb in Hw. cbn in Hw.
           apply Hw. reflexivity.
      * cbn. apply (@nil_element W p (b :: bs) i el []); auto. cbn. lia.
Qed.

(** A tick never changes the captured element unless it stops. *)
Lemma race_tick_keeps (bs : list (raceBranch W)) (i : nat)
  (el : option (Element W)) (w : W) err el1 :
  fst (fst (race_tick p bs i el w)) = Ret (false, err, el1) -> el1 = el.
Proof.
  intros E. pose proof (race_tick_outcome bs i el w) as H.
  rewrite E in H. inversion H; subst; reflexivity.
Qed.

Lemma callback_events_only (b : raceBranch W) (i : nat) (x : Element W)
  (cberr : option error) ev :
  In ev (callback_events b i x cberr) -> ev = EvCallback i x cberr.
Proof.
  unfold callback_events. destruct (callback b); cbn.
  - intros [<-|[]]. reflexivity.
  - intros [].
Qed.

(** The tick in which a condition answered with an element and no error. *)
Lemma tick_outcome_winner (bs : list (raceBranch W)) (el : option (Element W))
  res inner (i : nat) (bEl : Element W) :
  tick_outcome p bs 0 el res inner ->
  In (EvCondition i (Some bEl, None)) inner ->
  exists b rs cberr,
    nth_error bs i = Some b
    /\ List.length rs = i
    /\ Forall (fun r => not_found_answer r = true) rs
    /\ inner = cond_events 0 rs ++
               EvCondition i (Some bEl, None) ::
               callback_events b i (Element_Sleeper bEl (sleeper p)) cberr
    /\ (callback b = None -> cberr = None)
    /\ res = Ret (true, cberr, Some (Element_Sleeper bEl (sleeper p))).
Proof.
  intros H Hin.
  assert (Hcond : forall rs,
             Forall (fun r => not_found_answer r = true) rs ->
             ~ In (EvCondition i (Some bEl, None)) (cond_events 0 rs)).
  { intros rs Hf Hc. apply In_cond_events in Hc. destruct Hc as [Hc _].
    rewrite Forall_forall in Hf. specialize (Hf _ Hc). discriminate. }
  destruct H as [rs Hf Hl | rs b1 bEl1 cberr Hf Hn Hcb | rs x e Hf Hl He
                | rs Hf Hl].
  - elim (Hcond rs Hf Hin).
  - apply in_app_or in Hin. destruct Hin as [Hin|[Hin|Hin]].
    + elim (Hcond rs Hf Hin).
    + inversion Hin; subst. rewrite Nat.add_0_r in *.
      exists b1, rs, cberr. auto 10.
    + apply callback_events_only in Hin. discriminate.
  - apply in_app_or in Hin. destruct Hin as [Hin|[Hin|[]]].
    + elim (Hcond rs Hf Hin).
    + discriminate.
  - apply in_app_or in Hin. destruct Hin as [Hin|[Hin|[]]].
    + elim (Hcond rs Hf Hin).
    + discriminate.
Qed.

(** The tick in which a condition answered with an error that is not the
    not-found classification. *)
Lemma tick_outcome_fatal (bs : list (raceBranch W)) (el : option (Element W))
  res inner (i : nat) (x : option (Element W)) (e : error) :
  tick_outcome p bs 0 el res inner ->
  In (EvCondition i (x, Some e)) inner ->
  errors_Is e IsElementNotFound = false ->
  exists rs,
    List.length rs = i
    /\ (i < List.length bs)%nat
    /\ Forall (fun r => not_found_answer r = true) rs
    /\ inner = cond_events 0 rs ++ [EvCondition i (x, Some e)]
    /\ res = Ret (true, Some e, el).
Proof.
  intros H Hin He.
  assert (Hcond : forall rs,
             Forall (fun r => not_found_answer r = true) rs ->
             ~ In (EvCondition i (x, Some e)) (cond_events 0 rs)).
  { intros rs Hf Hc. apply In_cond_events in Hc. destruct Hc as [Hc _].
    rewrite Forall_forall in Hf. specialize (Hf _ Hc).
    unfold not_found_answer in Hf. cbn in Hf. congruence. }
  destruct H as [rs Hf Hl | rs b1 bEl1 cberr Hf Hn Hcb | rs x1 e1 Hf Hl He1
                | rs Hf Hl].
  - elim (Hcond rs Hf Hin).
  - apply in_app_or in Hin. destruct Hin as [Hin|[Hin|Hin]].
    + elim (Hcond rs Hf Hin).
    + discriminate.
    + apply callback_events_only in Hin. discriminate.
  - apply in_app_or in Hin. destruct Hin as [Hin|[Hin|[]]].
    + elim (Hcond rs Hf Hin).
    + inversion Hin; subst. rewrite Nat.add_0_r in *.
      exists rs. auto.
  - apply in_app_or in Hin. destruct Hin as [Hin|[Hin|[]]].
    + elim (Hcond rs Hf Hin).
    + discriminate.
Qed.

(** ** A tick, from the answers of the conditions *)

Lemma eval_conditions_length (bs : list (raceBranch W)) :
  forall w rs w1,
    eval_conditions p bs w = (rs, w1) -> List.length rs = List.length bs.
Proof.
  induction bs as [|b bs IH]; intros w rs w1 E; cbn in E.
  - inversion E; subst. reflexivity.
  - destruct (condition b (Page_Sleeper p NotFoundSleeper) w) as [r0 w0].
    destruct (eval_conditions p bs w0) as [rs' w'] eqn:E'.
    inversion E; subst. cbn. f_equal. eapply IH. exact E'.
Qed.

(** The branches whose conditions answer not-found are passed over, in
    order, each condition called in the store the one before it left. *)
Lemma race_tick_skip (pre : list (raceBranch W)) :
  forall (rest : list (raceBranch W)) (i : nat) (el : option (Element W))
         (w : W) rs w1,
    eval_conditions p pre w = (rs, w1) ->
    forallb not_found_answer rs = true ->
    race_tick p (pre ++ rest) i el w
    = match race_tick p rest (List.length pre + i) el w1 with
      | (r, w2, t) => (r, w2, cond_events i rs ++ t)
      end.
Proof.
  induction pre as [|b pre IH]; intros rest i el w rs w1 E Hnf; cbn in E.
  - inversion E; subst. cbn.
    destruct (race_tick p rest i el w1) as [[r w2] t]. reflexivity.
  - destruct (condition b (Page_Sleeper p NotFoundSleeper) w) as [r0 w0] eqn:Ec.
    destruct (eval_conditions p pre w0) as [rs' w'] eqn:E'.
    inversion E; subst. cbn in Hnf. apply andb_prop in Hnf.
    destruct Hnf as [H0 Hrest].
    cbn [app race_tick]. unfold bind, call. rewrite Ec.
    destruct r0 as [bEl [e|]]; unfold not_found_answer in H0; cbn in H0;
      [|discriminate].
    rewrite H0. cbn [negb].
    rewrite (IH rest (S i) el w0 rs' w1 E' Hrest).
    cbn [List.length]. rewrite Nat.add_succ_r. cbn [Nat.add].
    destruct (race_tick p rest (S (List.length pre + i)) el w1)
      as [[r w2] t].
    reflexivity.
Qed.

(** The tick in which every condition answers not-found. *)
Lemma race_tick_nobody (bs : list (raceBranch W)) (i : nat)
  (el : option (Element W)) (w : W) rs w1 :
  eval_conditions p bs w = (rs, w1) ->
  forallb not_found_answer rs = true ->
  race_tick p bs i el w = (Ret (false, None, el), w1, cond_events i rs).
Proof.
  intros E Hnf.
  pose proof (race_tick_skip bs [] i el w E Hnf) as H.
  rewrite app_nil_r in H. rewrite H. cbn. rewrite app_nil_r. reflexivity.
Qed.

(** The branch in front answers something else than not-found. *)
Lemma race_tick_decided (b : raceBranch W) (post : list (raceBranch W))
  (j : nat) (el : option (Element W)) (w1 : W) ans (w2 : W) :
  condition b (Page_Sleeper p NotFoundSleeper) w1 = (ans, w2) ->
  not_found_answer ans = false ->
  race_tick p (b :: post) j el w1
  = match ans with
    | (Some bEl, None) =>
        (Ret (true,
              fst (callback_run b (Element_Sleeper bEl (sleeper p)) w2),
              Some (Element_Sleeper bEl (sleeper p))),
         snd (callback_run b (Element_Sleeper bEl (sleeper p)) w2),
         EvCondition j ans ::
         callback_events b j (Element_Sleeper bEl (sleeper p))
           (fst (callback_run b (Element_Sleeper bEl (sleeper p)) w2)))
    | (None, None) => (Panicked NilDereference, w2, [EvCondition j ans])
    | (_, Some e) => (Ret (true, Some e, el), w2, [EvCondition j ans])
    end.
Proof.
  intros Ec Hnf. cbn [race_tick]. unfold bind, call. rewrite Ec.
  destruct ans as [bEl [e|]].
  - unfold not_found_answer in Hnf. cbn in Hnf. rewrite Hnf. cbn.
    destruct bEl; reflexivity.
  - destruct bEl as [x|]; [|reflexivity].
    unfold callback_run, callback_events.
    destruct (callback b) as [cb|]; [|reflexivity].
    unfold bind, call, ret.
    destruct (cb (Element_Sleeper x (sleeper p)) w2) as [cberr w3].
    reflexivity.
Qed.

(** From any store, either every condition answers not-found, or there is
    a first branch whose condition answers something else. *)
Lemma eval_conditions_cases (bs : list (raceBranch W)) :
  forall w,
    (exists rs w1,
        eval_conditions p bs w = (rs, w1)
        /\ forallb not_found_answer rs = true)
    \/ (exists pre b post rs w1 ans w2,
          bs = pre ++ b :: post
          /\ eval_conditions p pre w = (rs, w1)
          /\ forallb not_found_answer rs = true
          /\ condition b (Page_Sleeper p NotFoundSleeper) w1 = (ans, w2)
          /\ not_found_answer ans = false).
Proof.
  induction bs as [|b bs IH]; intros w.
  - left. exists [], w. split; reflexivity.
  - destruct (condition b (Page_Sleeper p NotFoundSleeper) w) as [r0 w0] eqn:Ec.
    destruct (not_found_answer r0) eqn:H0.
    + destruct (IH w0) as [(rs & w1 & E & Hnf)
                          |(pre & b1 & post & rs & w1 & ans & w2
                            & Hbs & E & Hnf & Hc & Ha)].
      * left. exists (r0 :: rs), w1. cbn. rewrite Ec, E. cbn.
        rewrite H0, Hnf. split; reflexivity.
      * right. exists (b :: pre), b1, post, (r0 :: rs), w1, ans, w2.
        cbn. rewrite Ec, E, Hbs. cbn. rewrite H0, Hnf. auto.
    + right. exists [], b, bs, [], w, r0, w0. cbn. auto.
Qed.

End RaceFacts.

Section DoFacts.

Context {W : Type}.
Variable rc : RaceContext W.

(** RaceContext.Do, by the answer of its loop. *)
Lemma Do_run (fuel : nat) (w : W) :
  Do fuel rc w =
  match utils_Retry fuel (ctx (rc_page rc)) (sleeper (rc_page rc))
          (race_tick (rc_page rc) (branches rc) 0) None w with
  | (Ret (err, el), w1, t) => (Ret (el, err), w1, t)
  | (Panicked pk, w1, t) => (Panicked pk, w1, t)
  | (OutOfFuel, w1, t) => (OutOfFuel, w1, t)
  end.
Proof.
  unfold Do, bind, ret.
  destruct (utils_Retry fuel (ctx (rc_page rc)) (sleeper (rc_page rc))
              (race_tick (rc_page rc) (branches rc) 0) None w) as [[r w1] t].
  destruct r as [[err el] | pk | ]; rewrite ?app_nil_r; reflexivity.
Qed.

Lemma Do_trace (fuel : nat) (w : W) :
  snd (Do fuel rc w)
  = snd (utils_Retry fuel (ctx (rc_page rc)) (sleeper (rc_page rc))
           (race_tick (rc_page rc) (branches rc) 0) None w).
Proof.
  rewrite Do_run.
  destruct (utils_Retry fuel (ctx (rc_page rc)) (sleeper (rc_page rc))
              (race_tick (rc_page rc) (branches rc) 0) None w) as [[r w1] t].
  destruct r as [[err el] | pk | ]; reflexivity.
Qed.

(** A run of Do that ended within the bound is the same under any larger
    bound. *)
Lemma Do_mono (fuel fuel' : nat) (w : W) :
  fst (fst (Do fuel rc w)) <> OutOfFuel ->
  (fuel <= fuel')%nat ->
  Do fuel' rc w = Do fuel rc w.
Proof.
  intros Hf Hle. rewrite !Do_run in *.
  rewrite (@utils_Retry_mono W _ (ctx (rc_page rc)) (sleeper (rc_page rc))
             (race_tick (rc_page rc) (branches rc) 0) fuel None w fuel');
    [reflexivity| |exact Hle].
  destruct (utils_Retry fuel (ctx (rc_page rc)) (sleeper (rc_page rc))
              (race_tick (rc_page rc) (branches rc) 0) None w) as [[r w1] t].
  destruct r as [[err el] | pk | ]; cbn in Hf |- *; congruence.
Qed.

(** A tick of Do that stopped: it started with no element captured, it is
    the last thing Do did, and Do returns what it returned. *)
Lemma Do_stop (fuel : nat) (w : W) err inner :
  In (EvFn (Some (true, err)) inner) (snd (Do fuel rc w)) ->
  exists w1 el t0,
    fst (fst (race_tick (rc_page rc) (branches rc) 0 None w1))
    = Ret (true, err, el)
    /\ snd (race_tick (rc_page rc) (branches rc) 0 None w1) = inner
    /\ fst (fst (Do fuel rc w)) = Ret (el, err)
    /\ snd (Do fuel rc w) = t0 ++ [EvFn (Some (true, err)) inner].
Proof.
  rewrite Do_trace. intros Hin.
  destruct (@utils_Retry_stop W _ (ctx (rc_page rc)) (sleeper (rc_page rc))
              (race_tick (rc_page rc) (branches rc) 0) (fun c => c = None))
    with (n := fuel) (c := @None (Element W)) (w := w) (err := err)
         (inner := inner)
    as (c1 & w1 & el & t0 & Hc1 & Hrun & Htr & Hres & Hlast); auto.
  - intros c w2 e c2 -> Hk. exact (race_tick_keeps _ _ _ _ _ Hk).
  - subst c1. exists w1, el, t0.
    rewrite Do_run.
    destruct (utils_Retry fuel (ctx (rc_page rc)) (sleeper (rc_page rc))
                (race_tick (rc_page rc) (branches rc) 0) None w)
      as [[r w3] t].
    cbn in Hres, Hlast |- *. subst r. auto.
Qed.

(** Every tick Do records is a tick over all the branches, from the first. *)
Lemma Do_ticks (fuel : nat) (w : W) r inner :
  In (EvFn r inner) (snd (Do fuel rc w)) ->
  exists el0 res,
    tick_outcome (rc_page rc) (branches rc) 0 el0 res inner
    /\ r = returned res.
Proof.
  rewrite Do_trace. intros Hin.
  apply utils_Retry_fn_events in Hin. destruct Hin as (c1 & w1 & Hi & Hr).
  exists c1, (fst (fst (race_tick (rc_page rc) (branches rc) 0 c1 w1))).
  split; [|exact Hr]. rewrite Hi. apply race_tick_outcome.
Qed.

(** Ticks in which nobody answers, each followed by a granted wait, are
    passed one after the other. *)
Lemma Do_idle_ticks (n : nat) :
  forall (w w0 : W) (m : nat),
    idle_ticks rc n w = Some w0 ->
    utils_Retry (n + m) (ctx (rc_page rc)) (sleeper (rc_page rc))
      (race_tick (rc_page rc) (branches rc) 0) None w
    = match utils_Retry m (ctx (rc_page rc)) (sleeper (rc_page rc))
              (race_tick (rc_page rc) (branches rc) 0) None w0 with
      | (r, w3, t3) => (r, w3, idle_trace rc n w ++ t3)
      end.
Proof.
  induction n as [|n IH]; intros w w0 m Hidle; cbn in Hidle.
  - inversion Hidle; subst. cbn [Nat.add idle_trace app].
    destruct (utils_Retry m (ctx (rc_page rc)) (sleeper (rc_page rc))
                (race_tick (rc_page rc) (branches rc) 0) None w0)
      as [[r w3] t3]. reflexivity.
  - destruct (idle_tick rc w) as [w1|] eqn:Et; [|discriminate].
    cbn [Nat.add idle_trace]. rewrite Et. rewrite utils_Retry_S.
    unfold idle_tick in Et.
    destruct (eval_conditions (rc_page rc) (branches rc) w) as [rs w'] eqn:E.
    destruct (forallb not_found_answer rs) eqn:Hnf; [|discriminate].
    rewrite (race_tick_nobody (rc_page rc) (branches rc) 0 None w E Hnf).
    destruct (sleeper (rc_page rc) (ctx (rc_page rc)) w') as [[e|] w2];
      [discriminate|].
    inversion Et; subst w2.
    rewrite (IH w1 w0 m Hidle). cbn [fst].
    destruct (utils_Retry m (ctx (rc_page rc)) (sleeper (rc_page rc))
                (race_tick (rc_page rc) (branches rc) 0) None w0)
      as [[r w3] t3]. reflexivity.
Qed.

(** The tick in which a branch answers with an element, all the branches
    before it having answered not-found. *)
Lemma race_tick_wins (pre : list (raceBranch W)) (b : raceBranch W)
  (post : list (raceBranch W)) (w0 : W) rs (w1 : W) (bEl : Element W)
  (w2 : W) :
  branches rc = pre ++ b :: post ->
  eval_conditions (rc_page rc) pre w0 = (rs, w1) ->
  forallb not_found_answer rs = true ->
  condition b (Page_Sleeper (rc_page rc) NotFoundSleeper) w1
    = ((Some bEl, None), w2) ->
  race_tick (rc_page rc) (branches rc) 0 None w0
  = (Ret (true,
          fst (callback_run b
                 (Element_Sleeper bEl (sleeper (rc_page rc))) w2),
          Some (Element_Sleeper bEl (sleeper (rc_page rc)))),
     snd (callback_run b (Element_Sleeper bEl (sleeper (rc_page rc))) w2),
     cond_events 0 rs ++
     EvCondition (List.length pre) (Some bEl, None) ::
     callback_events b (List.length pre)
       (Element_Sleeper bEl (sleeper (rc_page rc)))
       (fst (callback_run b
               (Element_Sleeper bEl (sleeper (rc_page rc))) w2))).
Proof.
  intros Hbs E Hnf Hc.
  rewrite Hbs, (race_tick_skip (rc_page rc) pre (b :: post) 0 None w0 E Hnf).
  rewrite Nat.add_0_r.
  rewrite (race_tick_decided (rc_page rc) b post (List.length pre) None w1 Hc
             eq_refl).
  reflexivity.
Qed.

(** The tick in which a branch is the first not to answer not-found. *)
Lemma race_tick_first_answer (pre : list (raceBranch W)) (b : raceBranch W)
  (post : list (raceBranch W)) (el : option (Element W)) (w0 : W) rs (w1 : W)
  ans (w2 : W) :
  branches rc = pre ++ b :: post ->
  eval_conditions (rc_page rc) pre w0 = (rs, w1) ->
  forallb not_found_answer rs = true ->
  condition b (Page_Sleeper (rc_page rc) NotFoundSleeper) w1 = (ans, w2) ->
  not_found_answer ans = false ->
  race_tick (rc_page rc) (branches rc) 0 el w0
  = match ans with
    | (Some bEl, None) =>
        (Ret (true,
              fst (callback_run b
                     (Element_Sleeper bEl (sleeper (rc_page rc))) w2),
              Some (Element_Sleeper bEl (sleeper (rc_page rc)))),
         snd (callback_run b (Element_Sleeper bEl (sleeper (rc_page rc))) w2),
         cond_events 0 rs ++
         EvCondition (List.length pre) ans ::
         callback_events b (List.length pre)
           (Element_Sleeper bEl (sleeper (rc_page rc)))
           (fst (callback_run b
                   (Element_Sleeper bEl (sleeper (rc_page rc))) w2)))
    | (None, None) =>
        (Panicked NilDereference, w2,
         cond_events 0 rs ++ [EvCondition (List.length pre) ans])
    | (_, Some e) =>
        (Ret (true, Some e, el), w2,
         cond_events 0 rs ++ [EvCondition (List.length pre) ans])
    end.
Proof.
  intros Hbs E Hnf Hc Ha.
  rewrite Hbs, (race_tick_skip (rc_page rc) pre (b :: post) 0 el w0 E Hnf).
  rewrite Nat.add_0_r.
  rewrite (race_tick_decided (rc_page rc) b post (List.length pre) el w1 Hc Ha).
  destruct ans as [[bEl|] [e|]]; reflexivity.
Qed.

(** Every tick Do records, from the answers of the conditions: it ran from
    some store; either every condition answered not-found, or the
    conditions before a first branch did and that branch decided. *)
Lemma Do_tick_cases (fuel : nat) (w : W) r inner :
  In (EvFn r inner) (snd (Do fuel rc w)) ->
  exists w0,
    (exists rs w1,
        eval_conditions (rc_page rc) (branches rc) w0 = (rs, w1)
        /\ forallb not_found_answer rs = true
        /\ inner = cond_events 0 rs
        /\ r = Some (false, None))
    \/ (exists pre b post rs w1 ans w2 tl,
          branches rc = pre ++ b :: post
          /\ eval_conditions (rc_page rc) pre w0 = (rs, w1)
          /\ forallb not_found_answer rs = true
          /\ condition b (Page_Sleeper (rc_page rc) NotFoundSleeper) w1
             = (ans, w2)
          /\ not_found_answer ans = false
          /\ inner = cond_events 0 rs ++
                     EvCondition (List.length pre) ans :: tl
          /\ tl = match ans with
                  | (Some bEl, None) =>
                      callback_events b (List.length pre)
                        (Element_Sleeper bEl (sleeper (rc_page rc)))
                        (fst (callback_run b
                                (Element_Sleeper bEl (sleeper (rc_page rc)))
                                w2))
                  | _ => []
                  end
          /\ r = match ans with
                 | (Some bEl, None) =>
                     Some (true,
                           fst (callback_run b
                                  (Element_Sleeper bEl
                                     (sleeper (rc_page rc))) w2))
                 | (None, None) => None
                 | (_, Some e) => Some (true, Some e)
                 end).
Proof.
  rewrite Do_trace. intros Hin.
  apply utils_Retry_fn_events in Hin. destruct Hin as (c1 & w0 & Hi & Hr).
  exists w0.
  destruct (eval_conditions_cases (rc_page rc) (branches rc) w0)
    as [(rs & w1 & E & Hnf)
       |(pre & b & post & rs & w1 & ans & w2 & Hbs & E & Hnf & Hc & Ha)].
  - left. exists rs, w1.
    rewrite (race_tick_nobody (rc_page rc) (branches rc) 0 c1 w0 E Hnf)
      in Hi, Hr.
    cbn in Hi, Hr. auto.
  - right.
    rewrite Hbs in Hi, Hr.
    rewrite (race_tick_skip (rc_page rc) pre (b :: post) 0 c1 w0 E Hnf)
      in Hi, Hr.
    rewrite Nat.add_0_r in Hi, Hr.
    rewrite (race_tick_decided (rc_page rc) b post (List.length pre) c1 w1 Hc
               Ha) in Hi, Hr.
    exists pre, b, post, rs, w1, ans, w2.
    destruct ans as [[bEl|] [e|]]; cbn in Hi, Hr;
      eexists; repeat split; eauto.
Qed.

End DoFacts.

(** C3: on every tick RaceContext.Do calls the conditions of the branches
    in registration order, from the first, each in the store the one before
    it left, and goes on to the next branch only on a not-found answer.  The
    first branch whose condition returns an element without error wins: no
    later condition is called, its callback, if it has one, is called once
    with that element (bound to the sleeper of the page), the tick is the
    last thing Do does, and Do returns that element together with the error
    of the callback (nil without a callback).  This holds on whatever tick
    it happens, after ticks on which every branch answered not-found and the
    wait was granted; so of two branches that would both succeed on a tick,
    the one registered first gives the element. *)
Theorem Do_first_success_wins :
  forall (W : Type) (rc : RaceContext W) (fuel : nat) (w : W),
    (forall r inner,
        In (EvFn r inner) (snd (Do fuel rc w)) ->
        exists w0,
          (exists rs w1,
              eval_conditions (rc_page rc) (branches rc) w0 = (rs, w1)
              /\ forallb not_found_answer rs = true
              /\ inner = cond_events 0 rs
              /\ r = Some (false, None))
          \/ (exists pre b post rs w1 ans w2 tl,
                branches rc = pre ++ b :: post
                /\ eval_conditions (rc_page rc) pre w0 = (rs, w1)
                /\ forallb not_found_answer rs = true
                /\ condition b (Page_Sleeper (rc_page rc) NotFoundSleeper) w1
                   = (ans, w2)
                /\ not_found_answer ans = false
                /\ inner = cond_events 0 rs ++
                           EvCondition (List.length pre) ans :: tl
                /\ forall ev, In ev tl ->
                     exists x e, ev = EvCallback (List.length pre) x e))
    /\ (forall r inner i bEl,
          In (EvFn r inner) (snd (Do fuel rc w)) ->
          In (EvCondition i (Some bEl, None)) inner ->
          exists pre b post w0 rs w1 w2 cberr t0,
            branches rc = pre ++ b :: post
            /\ List.length pre = i
            /\ nth_error (branches rc) i = Some b
            /\ eval_conditions (rc_page rc) pre w0 = (rs, w1)
            /\ List.length rs = i
            /\ forallb not_found_answer rs = true
            /\ condition b (Page_Sleeper (rc_page rc) NotFoundSleeper) w1
               = ((Some bEl, None), w2)
            /\ cberr
               = fst (callback_run b
                        (Element_Sleeper bEl (sleeper (rc_page rc))) w2)
            /\ (callback b = None -> cberr = None)
            /\ inner = cond_events 0 rs ++
                       EvCondition i (Some bEl, None) ::
                       callback_events b i
                         (Element_Sleeper bEl (sleeper (rc_page rc))) cberr
            /\ r = Some (true, cberr)
            /\ snd (Do fuel rc w) = t0 ++ [EvFn r inner]
            /\ fst (fst (Do fuel rc w))
               = Ret (Some (Element_Sleeper bEl (sleeper (rc_page rc))), cberr)
            /\ forall fuel', (fuel <= fuel')%nat ->
                             Do fuel' rc w = Do fuel rc w)
    /\ (forall n w0 pre b post rs w1 bEl w2,
          idle_ticks rc n w = Some w0 ->
          branches rc = pre ++ b :: post ->
          eval_conditions (rc_page rc) pre w0 = (rs, w1) ->
          forallb not_found_answer rs = true ->
          condition b (Page_Sleeper (rc_page rc) NotFoundSleeper) w1
            = ((Some bEl, None), w2) ->
          forall k,
            Do (S (n + k)) rc w
            = (Ret (Some (Element_Sleeper bEl (sleeper (rc_page rc))),
                    fst (callback_run b
                           (Element_Sleeper bEl (sleeper (rc_page rc))) w2)),
               snd (callback_run b
                      (Element_Sleeper bEl (sleeper (rc_page rc))) w2),
               idle_trace rc n w ++
               [EvFn (Some (true,
                            fst (callback_run b
                                   (Element_Sleeper bEl
                                      (sleeper (rc_page rc))) w2)))
                  (cond_events 0 rs ++
                   EvCondition (List.length pre) (Some bEl, None) ::
                   callback_events b (List.length pre)
                     (Element_Sleeper bEl (sleeper (rc_page rc)))
                     (fst (callback_run b
                             (Element_Sleeper bEl (sleeper (rc_page rc)))
                             w2)))])).
Proof.
  intros W rc fuel w. split; [|split].
  - intros r inner Hfn.
    destruct (Do_tick_cases rc fuel w r inner Hfn)
      as (w0 & [(rs & w1 & E & Hnf & Hi & Hr)
               |(pre & b & post & rs & w1 & ans & w2 & tl
                 & Hbs & E & Hnf & Hc & Ha & Hi & Htl & Hr)]).
    + exists w0. left. exists rs, w1. auto.
    + exists w0. right. exists pre, b, post, rs, w1, ans, w2, tl.
      repeat split; auto.
      intros ev Hev. rewrite Htl in Hev.
      destruct ans as [[bEl|] [e|]]; try contradiction.
      apply callback_events_only in Hev. eauto.
  - intros r inner i bEl Hfn Hc.
    assert (Hcond : forall j rs,
               forallb not_found_answer rs = true ->
               ~ In (EvCondition i (Some bEl, None)) (cond_events j rs)).
    { intros j rs Hf Hin. apply In_cond_events in Hin. destruct Hin as [Hin _].
      rewrite forallb_forall in Hf. specialize (Hf _ Hin). discriminate. }
    destruct (Do_tick_cases rc fuel w r inner Hfn)
      as (w0 & [(rs & w1 & E & Hnf & Hi & Hr)
               |(pre & b & post & rs & w1 & ans & w2 & tl
                 & Hbs & E & Hnf & Hcnd & Ha & Hi & Htl & Hr)]).
    + rewrite Hi in Hc. elim (Hcond _ _ Hnf Hc).
    + assert (Hans : ans = (Some bEl, None) /\ List.length pre = i).
      { rewrite Hi in Hc. apply in_app_or in Hc. destruct Hc as [Hc|[Hc|Hc]].
        - elim (Hcond _ _ Hnf Hc).
        - inversion Hc; subst. auto.
        - rewrite Htl in Hc. destruct ans as [[x|] [e|]]; try contradiction.
          apply callback_events_only in Hc. discriminate. }
      destruct Hans as [-> Hlen]. rewrite Hlen in *.
      set (cberr := fst (callback_run b
                           (Element_Sleeper bEl (sleeper (rc_page rc))) w2))
        in *.
      rewrite Htl in Hi. rewrite Hr in Hfn.
      destruct (Do_stop rc fuel w cberr inner Hfn)
        as (w3 & el & t0 & Hrun & Htr & Hdo & Hlast).
      pose proof (race_tick_outcome (rc_page rc) (branches rc) 0 None w3) as Ho1.
      rewrite Hrun, Htr in Ho1.
      assert (Hc' : In (EvCondition i (Some bEl, None)) inner).
      { rewrite Hi. apply in_or_app. right. left. reflexivity. }
      destruct (@tick_outcome_winner W _ _ _ _ _ _ _ Ho1 Hc')
        as (b1 & rs1 & cberr1 & _ & _ & _ & _ & _ & Hres1).
      inversion Hres1; subst el.
      exists pre, b, post, w0, rs, w1, w2, cberr, t0.
      rewrite Hr.
      split; [exact Hbs|]. split; [exact Hlen|].
      split; [rewrite Hbs, <- Hlen, nth_error_app2, Nat.sub_diag;
              [reflexivity|lia]|].
      split; [exact E|].
      split; [rewrite <- Hlen; eapply eval_conditions_length; exact E|].
      split; [exact Hnf|]. split; [exact Hcnd|].
      split; [reflexivity|].
      split; [intros Hcb; unfold cberr, callback_run; rewrite Hcb;
              reflexivity|].
      split; [exact Hi|]. split; [reflexivity|]. split; [exact Hlast|].
      split; [exact Hdo|].
      intros fuel' Hle. apply Do_mono; [|exact Hle].
      rewrite Hdo. discriminate.
  - intros n w0 pre b post rs w1 bEl w2 Hidle Hbs E Hnf Hc k.
    rewrite Do_run. replace (S (n + k)) with (n + S k)%nat by lia.
    rewrite (Do_idle_ticks rc n w (S k) Hidle).
    rewrite utils_Retry_S.
    rewrite (race_tick_wins rc pre b post w0 Hbs E Hnf Hc).
    reflexivity.
Qed.

Lemma Do_first_success_wins_witness :
  Do 2 Fixture.second_of_three 0%nat
  = (Ret (Some (Scenario.found "B"), Some (ErrOther "callback")), 1%nat,
     [EvFn (Some (false, None))
        [EvCondition 0 (None, Some ErrElementNotFound);
         EvCondition 1 (None, Some ErrElementNotFound);
         EvCondition 2 (None, Some ErrElementNotFound)];
      EvSleep None;
      EvFn (Some (true, Some (ErrOther "callback")))
        [EvCondition 0 (None, Some ErrElementNotFound);
         EvCondition 1
           (Some (Scenario.handle (Page_Sleeper Scenario.pg NotFoundSleeper)
                    (Scenario.node_object "B")), None);
         EvCallback 1 (Scenario.found "B") (Some (ErrOther "callback"))]])
  /\ fst (fst (Do 2 Fixture.third_first 0%nat))
     = Ret (Some (Scenario.found "C"), None).
Proof.
  split.
  - exact (proj2 (proj2 (@Do_first_success_wins nat Fixture.second_of_three
                           0%nat 0%nat))
             1%nat 1%nat [Scenario.absent]
             (Fixture.late "B" Scenario.complain) [Fixture.late "C" None]
             [(None, Some ErrElementNotFound)] 1%nat
             (Scenario.handle (Page_Sleeper Scenario.pg NotFoundSleeper)
                (Scenario.node_object "B"))
             1%nat eq_refl eq_refl eq_refl eq_refl eq_refl 0%nat).
  - exact (f_equal (fun x => fst (fst x))
             (proj2 (proj2 (@Do_first_success_wins nat Fixture.third_first
                              0%nat 0%nat))
                1%nat 1%nat [Scenario.absent]
                (Fixture.late "C" None)
                [Fixture.late "B" Scenario.complain]
                [(None, Some ErrElementNotFound)] 1%nat
                (Scenario.handle (Page_Sleeper Scenario.pg NotFoundSleeper)
                   (Scenario.node_object "C"))
                1%nat eq_refl eq_refl eq_refl eq_refl eq_refl 0%nat)).
Defined.

(** C6: in the tick of RaceContext.Do in which a condition returns an error
    that is not the not-found classification, at whatever position, every
    earlier branch answered not-found, no later branch is evaluated and no
    callback is called; the tick is the last thing Do does (no wait, no
    further tick), and Do returns no element and that error. *)
Theorem Do_fatal_condition_aborts :
  forall (W : Type) (rc : RaceContext W) (fuel : nat) (w : W)
         (r : option (bool * option error)) (inner : list (event W))
         (i : nat) (x : option (Element W)) (e : error),
    In (EvFn r inner) (snd (Do fuel rc w)) ->
    In (EvCondition i (x, Some e)) inner ->
    errors_Is e IsElementNotFound = false ->
    exists rs t0,
      List.length rs = i
      /\ (i < List.length (branches rc))%nat
      /\ Forall (fun a => not_found_answer a = true) rs
      /\ inner = cond_events 0 rs ++ [EvCondition i (x, Some e)]
      /\ r = Some (true, Some e)
      /\ snd (Do fuel rc w) = t0 ++ [EvFn r inner]
      /\ fst (fst (Do fuel rc w)) = Ret (None, Some e)
      /\ forall fuel', (fuel <= fuel')%nat -> Do fuel' rc w = Do fuel rc w.
Proof.
  intros W rc fuel w r inner i x e Hfn Hc He.
  destruct (Do_ticks rc fuel w r inner Hfn) as (el0 & res & Ho & Hr).
  destruct (@tick_outcome_fatal W _ _ _ _ _ _ _ _ Ho Hc He) as (rs & Hl & Hlt & Hf & Hi & Hres).
  assert (Er : r = Some (true, Some e)) by (rewrite Hr, Hres; reflexivity).
  rewrite Er in Hfn.
  destruct (Do_stop rc fuel w (Some e) inner Hfn)
    as (w1 & el & t0 & Hrun & Htr & Hdo & Hlast).
  pose proof (race_tick_outcome (rc_page rc) (branches rc) 0 None w1) as Ho1.
  rewrite Hrun, Htr in Ho1.
  destruct (@tick_outcome_fatal W _ _ _ _ _ _ _ _ Ho1 Hc He) as (rs1 & _ & _ & _ & _ & Hres1).
  inversion Hres1; subst el.
  exists rs, t0. rewrite Er. repeat split; auto.
  intros fuel' Hle. apply Do_mono; [|exact Hle].
  rewrite Hdo. discriminate.
Qed.

Lemma Do_fatal_condition_aborts_witness :
  exists rs t0,
    List.length rs = 1%nat
    /\ (1 < List.length
              (branches (Scenario.race_of
                 [Scenario.absent; Scenario.broken; Scenario.finds "A"])))%nat
    /\ Forall (fun a => @not_found_answer nat a = true) rs
    /\ Scenario.crashed
       = cond_events 0 rs ++ [EvCondition 1 (None, Some (ErrOther "crash"))]
    /\ Some (true, Some (ErrOther "crash")) = Some (true, Some (ErrOther "crash"))
    /\ snd (Do 1 (Scenario.race_of
                    [Scenario.absent; Scenario.broken; Scenario.finds "A"])
              0%nat)
       = t0 ++ [EvFn (Some (true, Some (ErrOther "crash"))) Scenario.crashed]
    /\ fst (fst (Do 1 (Scenario.race_of
                         [Scenario.absent; Scenario.broken; Scenario.finds "A"])
                   0%nat))
       = Ret (None, Some (ErrOther "crash"))
    /\ forall fuel', (1 <= fuel')%nat ->
          Do fuel' (Scenario.race_of
                      [Scenario.absent; Scenario.broken; Scenario.finds "A"])
            0%nat
          = Do 1 (Scenario.race_of
                    [Scenario.absent; Scenario.broken; Scenario.finds "A"])
              0%nat.
Proof.
  apply (@Do_fatal_condition_aborts nat
           (Scenario.race_of
              [Scenario.absent; Scenario.broken; Scenario.finds "A"])
           1%nat 0%nat (Some (true, Some (ErrOther "crash")))
           Scenario.crashed 1%nat None (ErrOther "crash")).
  - cbn. left. reflexivity.
  - cbn. right. left. reflexivity.
  - reflexivity.
Defined.

(** C10: RaceContext.Handle sets the callback of the branch registered last
    and leaves the other branches alone; on a RaceContext without branches
    it indexes the empty slice at -1 and panics. *)
Theorem Handle_needs_a_branch :
  forall (W : Type) (rc : RaceContext W)
         (cb : option (Element W -> Act W (option error))),
    (branches rc = [] -> Handle rc cb = Panicked IndexOutOfRange)
    /\ (forall bs b,
          branches rc = bs ++ [b] ->
          Handle rc cb
          = Ret {| rc_page := rc_page rc;
                   branches :=
                     bs ++ [{| condition := condition b; callback := cb |}] |}).
Proof.
  intros W rc cb. split.
  - intros E. unfold Handle. rewrite E. reflexivity.
  - intros bs b E. unfold Handle. rewrite E.
    rewrite length_app. cbn [List.length].
    replace (Z.of_nat (List.length bs + 1) - 1)%Z
      with (Z.of_nat (List.length bs)) by lia.
    destruct (Z.ltb_spec (Z.of_nat (List.length bs)) 0); [lia|].
    rewrite Nat2Z.id.
    assert (Hset : forall l : list (raceBranch W),
               set_callback (l ++ [b]) (List.length l) cb
               = Some (l ++ [{| condition := condition b; callback := cb |}])).
    { induction l as [|a l IH]; cbn; [reflexivity|]. rewrite IH. reflexivity. }
    rewrite Hset. reflexivity.
Qed.

Lemma Handle_needs_a_branch_witness :
  Handle (Race Scenario.pg) Scenario.complain = Panicked IndexOutOfRange
  /\ Handle (ElementFunc (Race Scenario.pg) (condition (Scenario.finds "A")))
       Scenario.complain
     = Ret {| rc_page := Scenario.pg;
              branches :=
                [{| condition := condition (Scenario.finds "A");
                    callback := Scenario.complain |}] |}.
Proof.
  split.
  - apply (proj1 (@Handle_needs_a_branch nat (Race Scenario.pg)
                    Scenario.complain)).
    reflexivity.
  - apply (proj2 (@Handle_needs_a_branch nat
                    (ElementFunc (Race Scenario.pg)
                       (condition (Scenario.finds "A")))
                    Scenario.complain) [] (Scenario.finds "A")).
    reflexivity.
Defined.

(** ** More on the retry primitive *)

Section RetryMore.

Context {W C : Type}.
Variable options : RetryOptions W.
Variable fn : C -> M W (bool * option error * C).

(** A run in which an invocation says stop: the waits before it all
    succeeded, and there is one wait less than there are invocations. *)
Lemma NewRetry_loop_stop_counts (n : nat) :
  forall (c : C) (w : W) err inner,
    In (EvFn (Some (true, err)) inner) (snd (NewRetry_loop n options fn c w)) ->
    (exists t0, snd (NewRetry_loop n options fn c w)
                = t0 ++ [EvFn (Some (true, err)) inner])
    /\ fn_calls (snd (NewRetry_loop n options fn c w))
       = S (List.length (sleeps (snd (NewRetry_loop n options fn c w))))
    /\ Forall (fun r => r = None)
         (sleeps (snd (NewRetry_loop n options fn c w))).
Proof.
  induction n as [|m IH]; intros c w err inner Hin.
  - cbn in Hin. contradiction.
  - rewrite NewRetry_loop_S in Hin |- *.
    destruct (fn c w) as [[r1 w1] t1].
    destruct r1 as [[[stop err1] c1] | pk | ].
    + destruct stop.
      * cbn in Hin |- *. destruct Hin as [Hin|[]]. inversion Hin; subst.
        repeat split; auto. exists []. reflexivity.
      * destruct (Sleeper options (Context options) w1) as [[e1|] w2].
        -- cbn in Hin. destruct Hin as [Hin|[Hin|[]]]; discriminate.
        -- specialize (IH c1 w2 err inner).
           destruct (NewRetry_loop m options fn c1 w2) as [[r3 w3] t3].
           cbn in Hin, IH |- *.
           destruct Hin as [Hin|[Hin|Hin]]; try discriminate.
           destruct (IH Hin) as ((t0 & Ht) & Hc & Hs).
           repeat split; auto.
           exists (EvFn (Some (false, err1)) t1 :: EvSleep None :: t0).
           rewrite Ht. reflexivity.
    + cbn in Hin. destruct Hin as [Hin|[]]. discriminate.
    + cbn in Hin. destruct Hin as [Hin|[]]. discriminate.
Qed.

(** Invocations and waits alternate, and the bound holds. *)
Lemma NewRetry_loop_counts (n : nat) :
  forall (c : C) (w : W),
    (fn_calls (snd (NewRetry_loop n options fn c w)) <= n)%nat
    /\ (List.length (sleeps (snd (NewRetry_loop n options fn c w)))
        <= fn_calls (snd (NewRetry_loop n options fn c w)))%nat
    /\ (fn_calls (snd (NewRetry_loop n options fn c w))
        <= S (List.length (sleeps (snd (NewRetry_loop n options fn c w)))))%nat.
Proof.
  induction n as [|m IH]; intros c w.
  - cbn. lia.
  - rewrite NewRetry_loop_S.
    destruct (fn c w) as [[r1 w1] t1].
    destruct r1 as [[[stop err1] c1] | pk | ]; try (cbn; lia).
    destruct stop; try (cbn; lia).
    destruct (Sleeper options (Context options) w1) as [[e1|] w2];
      try (cbn; lia).
    specialize (IH c1 w2).
    destruct (NewRetry_loop m options fn c1 w2) as [[r3 w3] t3].
    cbn in IH |- *. lia.
Qed.

End RetryMore.

(** X1: when an invocation of the function says stop with err, NewRetry
    returns err unchanged and does nothing after that invocation; every
    wait before it succeeded, and there is exactly one wait less than there
    are invocations (k invocations, k - 1 waits). *)
Theorem NewRetry_stop_returns_error :
  forall (W C : Type) (options : RetryOptions W)
         (fn : C -> M W (bool * option error * C)) (c : C) (w : W)
         (err : option error) (inner : list (event W)),
    In (EvFn (Some (true, err)) inner) (snd (NewRetry options fn c w)) ->
    (exists c', fst (fst (NewRetry options fn c w)) = Ret (err, c'))
    /\ (exists t0, snd (NewRetry options fn c w)
                  = t0 ++ [EvFn (Some (true, err)) inner])
    /\ fn_calls (snd (NewRetry options fn c w))
       = S (List.length (sleeps (snd (NewRetry options fn c w))))
    /\ Forall (fun r => r = None) (sleeps (snd (NewRetry options fn c w))).
Proof.
  intros W C options fn c w err inner Hin. unfold NewRetry in *.
  split.
  - apply NewRetry_loop_stop with (inner := inner). exact Hin.
  - apply NewRetry_loop_stop_counts. exact Hin.
Qed.

Lemma NewRetry_stop_returns_error_witness :
  (exists c', fst (fst (NewRetry Scenario.one_attempt
                          (fun c : unit => ret (true, Some ErrCanceled, c))
                          tt 0%nat))
              = Ret (Some ErrCanceled, c'))
  /\ (exists t0, snd (NewRetry Scenario.one_attempt
                        (fun c : unit => ret (true, Some ErrCanceled, c))
                        tt 0%nat)
                = t0 ++ [EvFn (Some (true, Some ErrCanceled)) []])
  /\ fn_calls (snd (NewRetry Scenario.one_attempt
                      (fun c : unit => ret (true, Some ErrCanceled, c))
                      tt 0%nat))
     = S (List.length
            (sleeps (snd (NewRetry Scenario.one_attempt
                            (fun c : unit => ret (true, Some ErrCanceled, c))
                            tt 0%nat))))
  /\ Forall (fun r => r = None)
       (sleeps (snd (NewRetry Scenario.one_attempt
                       (fun c : unit => ret (true, Some ErrCanceled, c))
                       tt 0%nat))).
Proof.
  apply (@NewRetry_stop_returns_error nat unit Scenario.one_attempt
           (fun c : unit => ret (true, Some ErrCanceled, c)) tt 0%nat
           (Some ErrCanceled) []).
  cbn. left. reflexivity.
Defined.

(** X2: NewRetry never invokes the function more than MaxRetries times (not
    at all when MaxRetries is zero or negative, and then it returns nil at
    once); in every run invocations and waits alternate, so the number of
    waits is the number of invocations or one less. *)
Theorem NewRetry_bounded :
  forall (W C : Type) (options : RetryOptions W)
         (fn : C -> M W (bool * option error * C)) (c : C) (w : W),
    (Z.of_nat (fn_calls (snd (NewRetry options fn c w)))
     <= Z.max 0 (MaxRetries options))%Z
    /\ (List.length (sleeps (snd (NewRetry options fn c w)))
        <= fn_calls (snd (NewRetry options fn c w)))%nat
    /\ (fn_calls (snd (NewRetry options fn c w))
        <= S (List.length (sleeps (snd (NewRetry options fn c w)))))%nat
    /\ ((MaxRetries options <= 0)%Z ->
        NewRetry options fn c w = (Ret (None, c), w, [])).
Proof.
  intros W C options fn c w. unfold NewRetry.
  destruct (NewRetry_loop_counts options fn (Z.to_nat (MaxRetries options)) c w)
    as (H1 & H2 & H3).
  repeat split; try assumption.
  - lia.
  - intros Hz. replace (Z.to_nat (MaxRetries options)) with O by lia.
    reflexivity.
Qed.

Lemma NewRetry_bounded_witness :
  NewRetry Fixture.no_attempt Scenario.never_stop tt 0%nat
  = (Ret (None, tt), 0%nat, []).
Proof.
  apply (proj2 (proj2 (proj2 (@NewRetry_bounded nat unit Fixture.no_attempt
                                Scenario.never_stop tt 0%nat)))).
  cbn. lia.
Defined.

(** ** More on Page.Search *)

Section SearchMore.

Context {W : Type}.
Variable cl : Client W.
Variable p : Page W.
Variable query : string.

(** A result that Search returns with a nil error holds the result of a
    search, on the page of the call. *)
Lemma Search_nil_error_has_result (w : W) (sr : SearchResult W) :
  fst (fst (Search cl p query w)) = Ret (Some sr, None) ->
  page sr = p /\ exists r, sr_DOMPerformSearchResult sr = Some r.
Proof.
  intros Hres. rewrite Search_returns in Hres.
  set (rst := fst (EnableDomain_DOMEnable cl p w)) in *.
  set (w0 := snd (EnableDomain_DOMEnable cl p w)) in *.
  set (I := fun c : SearchResult W =>
              page c = p /\ exists r, sr_DOMPerformSearchResult c = Some r).
  change (I sr).
  rewrite NewRetry_loop_S in Hres.
  pose proof (@search_attempt_keeps W cl p query (new_SearchResult p rst) w0)
    as Hk.
  destruct (search_attempt cl p query (new_SearchResult p rst) w0)
    as [[r1 w1] t1].
  destruct r1 as [[[stop err] c1] | pk | ]; cbn in Hk;
    [ | cbn in Hres; discriminate | cbn in Hres; discriminate ].
  destruct (Hk _ _ _ eq_refl) as (Hp & _ & Hs & _).
  destruct stop.
  - cbn in Hres. destruct err; inversion Hres; subst. split; auto.
    destruct Hs as [Hs|(_ & _ & e & He)]; [exact Hs|discriminate].
  - assert (Hc1 : I c1).
    { split; auto.
      destruct Hs as [Hs|(_ & Hstop & _)]; [exact Hs|discriminate]. }
    cbn [search_options Sleeper Context] in Hres.
    destruct (sleeper p (ctx p) w1) as [[e1|] w2];
      [cbn in Hres; discriminate|].
    destruct (NewRetry_loop 2 (search_options p) (search_attempt cl p query)
                c1 w2) as [[r3 w3] t3] eqn:E3.
    cbn in Hres.
    destruct r3 as [[[e|] sr1] | pk | ]; try discriminate.
    inversion Hres; subst sr1.
    apply (@NewRetry_loop_preserves W (SearchResult W) (search_options p)
             (search_attempt cl p query) I) with (n := 2%nat) (c := c1)
             (w := w2) (err := None); auto.
    + intros c w4 stop err0 c2 (Hcp & r & Hcs) Hatt.
      destruct (search_attempt_keeps cl p query c w4 Hatt)
        as (Hp2 & _ & Hs2 & _).
      split; try congruence.
      destruct Hs2 as [Hs2|(-> & _)]; eauto.
    + rewrite E3. reflexivity.
Qed.

(** An attempt in which the search or the making of the element fails. *)
Lemma search_attempt_fatal (sr : SearchResult W) (w : W) (e : error) :
  (exists q b, In (EvDOMPerformSearch q b (inr e))
                  (snd (search_attempt cl p query sr w)))
  \/ (exists id, In (EvElementFromNode id (inr e))
                   (snd (search_attempt cl p query sr w))) ->
  exists sr1,
    fst (fst (search_attempt cl p query sr w)) = Ret (true, Some e, sr1)
    /\ exists t0 ev, snd (search_attempt cl p query sr w) = t0 ++ [ev]
                     /\ (ev = EvDOMPerformSearch query true (inr e)
                         \/ exists id, ev = EvElementFromNode id (inr e)).
Proof.
  intros Hin. pose proof (search_attempt_outcome cl p query sr w) as H.
  inversion H as [ e0 E1 E2 | r Hz E1 E2 | r e0 Hc E1 E2 | r Hc E1 E2
                 | r ids Hc E1 E2 | r id0 ids e0 Hc Hid E1 E2
                 | r id0 ids el Hc Hid E1 E2 ];
    rewrite <- E2 in Hin;
    destruct Hin as [(q & b & Hin)|(id & Hin)];
    apply in_app_or in Hin;
    (destruct Hin as [Hin|Hin];
     [ apply prior_discard_events in Hin; destruct Hin; discriminate | ]);
    cbn in Hin; intuition (try discriminate).
  - match goal with Hx : EvDOMPerformSearch _ _ _ = _ |- _ =>
      inversion Hx; subst end.
    exists sr. split; [reflexivity|].
    eexists (prior_discard sr), _. split; [reflexivity|]. left. reflexivity.
  - match goal with Hx : EvElementFromNode _ _ = _ |- _ =>
      inversion Hx; subst end.
    eexists. split; [reflexivity|].
    eexists (prior_discard sr ++ [_; _]), _.
    split; [rewrite <- app_assoc; reflexivity|]. right. eauto.
Qed.

End SearchMore.

(** X3: when the first attempt of Page.Search finds results, fetches a
    first node identifier other than 0 and turns it into an element, Search
    returns at once: one attempt, no wait, no discard, First is that
    element and the result holds the session of the search; only the first
    identifier fetched is used. *)
Theorem Search_found_at_once :
  forall (W : Type) (cl : Client W) (p : Page W) (query : string) (w w1 w2 w3 : W)
         (r : DOMPerformSearchResult) (id : Z) (ids : list Z) (el : Element W),
    DOMPerformSearch_Call cl p query true
      (snd (EnableDomain_DOMEnable cl p w)) = (inl r, w1) ->
    ResultCount r <> 0%Z ->
    DOMGetSearchResults_Call cl p (SearchID r) 0 1 w1 = (inl (id :: ids), w2) ->
    id <> 0%Z ->
    ElementFromNode cl p id w2 = (inl el, w3) ->
    Search cl p query w
    = (Ret (Some {| sr_DOMPerformSearchResult := Some r; page := p;
                    restore := fst (EnableDomain_DOMEnable cl p w);
                    First := Some el |}, None),
       w3,
       [EvEnableDomain;
        EvFn (Some (true, None))
          [EvDOMPerformSearch query true (inl r);
           EvDOMGetSearchResults (SearchID r) 0 1 (inl (id :: ids));
           EvElementFromNode id (inl el)]]).
Proof.
  intros W cl p query w w1 w2 w3 r id ids el Hps Hc Hget Hid Hel.
  rewrite Search_run.
  destruct (EnableDomain_DOMEnable cl p w) as [rst w0]. cbn [fst snd] in *.
  rewrite NewRetry_loop_S.
  unfold search_attempt, new_SearchResult, bind, call, ret.
  cbn [sr_DOMPerformSearchResult].
  rewrite Hps. cbn.
  destruct (Z.eqb_spec (ResultCount r) 0); [contradiction|].
  rewrite Hget. cbn.
  destruct (Z.eqb_spec id 0); [contradiction|].
  rewrite Hel. reflexivity.
Qed.

Lemma Search_found_at_once_witness :
  Search Fixture.two_found Scenario.pg "q" 0%nat
  = (Ret (Some {| sr_DOMPerformSearchResult :=
                    Some {| SearchID := "s1"; ResultCount := 2 |};
                  page := Scenario.pg;
                  restore :=
                    fst (EnableDomain_DOMEnable Fixture.two_found Scenario.pg
                           0%nat);
                  First := Some (Fixture.first_hit Scenario.pg) |}, None),
     0%nat,
     [EvEnableDomain;
      EvFn (Some (true, None))
        [EvDOMPerformSearch "q" true
           (inl {| SearchID := "s1"; ResultCount := 2 |});
         EvDOMGetSearchResults
           (SearchID {| SearchID := "s1"; ResultCount := 2 |}) 0 1
           (inl [7%Z; 8%Z]);
         EvElementFromNode 7 (inl (Fixture.first_hit Scenario.pg))]]).
Proof.
  apply (@Search_found_at_once nat Fixture.two_found Scenario.pg "q"
           0%nat 0%nat 0%nat 0%nat).
  - reflexivity.
  - cbn. lia.
  - reflexivity.
  - lia.
  - reflexivity.
Defined.

(** X4: a failure of DOMPerformSearch, or of turning the fetched node
    identifier into an element, in any attempt of Page.Search ends that
    attempt with stop=true: it is the last call the attempt makes, and
    Search returns no SearchResult and that error unchanged. *)
Theorem Search_fatal_errors_propagate :
  forall (W : Type) (cl : Client W) (p : Page W) (query : string) (w : W)
         (r : option (bool * option error)) (inner : list (event W))
         (e : error),
    In (EvFn r inner) (snd (Search cl p query w)) ->
    (exists q b, In (EvDOMPerformSearch q b (inr e)) inner)
    \/ (exists id, In (EvElementFromNode id (inr e)) inner) ->
    r = Some (true, Some e)
    /\ (exists t0 ev, inner = t0 ++ [ev]
                      /\ (ev = EvDOMPerformSearch query true (inr e)
                          \/ exists id, ev = EvElementFromNode id (inr e)))
    /\ fst (fst (Search cl p query w)) = Ret (None, Some e).
Proof.
  intros W cl p query w r inner e Hfn Hev.
  destruct (Search_attempts cl p query w r inner Hfn) as (sr0 & w0 & Hi & Hr).
  rewrite Hi in Hev.
  destruct (search_attempt_fatal cl p query sr0 w0 e Hev)
    as (sr1 & Hres & Hlast).
  assert (Er : r = Some (true, Some e)) by (rewrite Hr, Hres; reflexivity).
  split; [exact Er|]. split; [rewrite Hi; exact Hlast|].
  rewrite Er in Hfn. rewrite Search_trace in Hfn.
  destruct Hfn as [Hfn|Hfn]; [discriminate|].
  apply NewRetry_loop_stop in Hfn. destruct Hfn as [c' Hc'].
  rewrite Search_returns, Hc'. reflexivity.
Qed.

Lemma Search_fatal_errors_propagate_witness :
  Some (true, Some (ErrOther "down")) = Some (true, Some (ErrOther "down"))
  /\ (exists t0 ev,
        [EvDOMPerformSearch "q" true (inr (ErrOther "down"))] = t0 ++ [ev]
        /\ (ev = @EvDOMPerformSearch nat "q" true (inr (ErrOther "down"))
            \/ exists id, ev = EvElementFromNode id (inr (ErrOther "down"))))
  /\ fst (fst (Search Fixture.search_down Scenario.pg "q" 0%nat))
     = Ret (None, Some (ErrOther "down")).
Proof.
  apply (@Search_fatal_errors_propagate nat Fixture.search_down Scenario.pg
           "q" 0%nat (Some (true, Some (ErrOther "down")))
           [EvDOMPerformSearch "q" true (inr (ErrOther "down"))]
           (ErrOther "down")).
  - cbn. right. left. reflexivity.
  - left. exists "q"%string, true. cbn. left. reflexivity.
Defined.

(** ** Sessions of a search *)

Section Sessions.

Context {W : Type}.
Variable cl : Client W.
Variable p : Page W.
Variable query : string.

Lemma created_app (t1 t2 : list (event W)) :
  created (t1 ++ t2) = created t1 ++ created t2.
Proof.
  induction t1 as [|ev t1 IH]; [reflexivity|].
  destruct ev as [ | | | | q b [r|e] | | | | | | | | | | ]; cbn; rewrite IH;
    reflexivity.
Qed.

Lemma discarded_app (t1 t2 : list (event W)) :
  discarded (t1 ++ t2) = discarded t1 ++ discarded t2.
Proof.
  induction t1 as [|ev t1 IH]; [reflexivity|].
  destruct ev; cbn; rewrite IH; reflexivity.
Qed.

Lemma prior_discard_sessions (sr : SearchResult W) :
  discarded (prior_discard sr) = outstanding sr
  /\ created (prior_discard sr) = [].
Proof.
  unfold prior_discard, outstanding.
  destruct (sr_DOMPerformSearchResult sr); split; reflexivity.
Qed.

(** The sessions of one attempt: it discards the session the result held,
    and creates at most one, which the result then holds. *)
Lemma search_attempt_sessions (sr : SearchResult W) (w : W) :
  discarded (snd (search_attempt cl p query sr w)) = outstanding sr
  /\ ((created (snd (search_attempt cl p query sr w)) = []
       /\ exists e, fst (fst (search_attempt cl p query sr w))
                    = Ret (true, Some e, sr))
      \/ (exists r,
            created (snd (search_attempt cl p query sr w)) = [SearchID r]
            /\ forall stop err sr1,
                fst (fst (search_attempt cl p query sr w))
                = Ret (stop, err, sr1) ->
                outstanding sr1 = [SearchID r])).
Proof.
  pose proof (search_attempt_outcome cl p query sr w) as H.
  destruct (prior_discard_sessions sr) as [Hd Hc].
  inversion H as [ e0 E1 E2 | r Hz E1 E2 | r e0 Hcn E1 E2 | r Hcn E1 E2
                 | r ids Hcn E1 E2 | r id0 ids e0 Hcn Hid E1 E2
                 | r id0 ids el Hcn Hid E1 E2 ];
    rewrite discarded_app, created_app, Hd, Hc; cbn; rewrite ?app_nil_r;
    (split; [reflexivity|]).
  - left. eauto.
  - right. exists r. split; [reflexivity|].
    intros stop err sr1 E. inversion E; subst. reflexivity.
  - right. exists r. split; [reflexivity|].
    intros stop err sr1 E. destruct (transient e0); inversion E; subst;
      reflexivity.
  - right. exists r. split; [reflexivity|]. intros stop err sr1 E. discriminate.
  - right. exists r. split; [reflexivity|].
    intros stop err sr1 E. inversion E; subst. reflexivity.
  - right. exists r. split; [reflexivity|].
    intros stop err sr1 E. inversion E; subst. reflexivity.
  - right. exists r. split; [reflexivity|].
    intros stop err sr1 E. inversion E; subst. reflexivity.
Qed.

Lemma outstanding_length (sr : SearchResult W) :
  (List.length (outstanding sr) <= 1)%nat.
Proof. unfold outstanding. destruct (sr_DOMPerformSearchResult sr); cbn; lia. Qed.

(** Over the attempts of a search every session but the last is discarded
    before the next one is created. *)
Lemma Search_loop_sessions (n : nat) :
  forall (sr : SearchResult W) (w : W),
  exists rest,
    outstanding sr
    ++ created (inner_events
                  (snd (NewRetry_loop n (search_options p)
                          (search_attempt cl p query) sr w)))
    = discarded (inner_events
                   (snd (NewRetry_loop n (search_options p)
                           (search_attempt cl p query) sr w)))
      ++ rest
    /\ (List.length rest <= 1)%nat
    /\ forall sr',
        fst (fst (NewRetry_loop n (search_options p)
                    (search_attempt cl p query) sr w)) = Ret (None, sr') ->
        rest = outstanding sr'.
Proof.
  induction n as [|m IH]; intros sr w.
  - exists (outstanding sr). cbn. rewrite app_nil_r.
    split; [reflexivity|]. split; [apply outstanding_length|].
    intros sr' E. inversion E. reflexivity.
  - rewrite NewRetry_loop_S.
    destruct (search_attempt_sessions sr w) as [Hd Hc].
    destruct (search_attempt cl p query sr w) as [[r1 w1] t1].
    cbn [fst snd] in Hd, Hc.
    assert (Hone : forall r rest0 t,
               created t1 = [SearchID r] ->
               [SearchID r] ++ created (inner_events t)
               = discarded (inner_events t) ++ rest0 ->
               outstanding sr ++ created (t1 ++ inner_events t)
               = discarded (t1 ++ inner_events t) ++ rest0).
    { intros r rest0 t Hcr Hrest.
      rewrite created_app, discarded_app, Hd, Hcr, <- app_assoc, Hrest.
      reflexivity. }
    destruct Hc as [(Hcr & e & Hres)|(r & Hcr & Hnext)].
    + inversion Hres; subst. cbn. rewrite app_nil_r.
      exists []. rewrite Hcr, Hd. split; [reflexivity|].
      split; [cbn; lia|]. intros sr' E. discriminate.
    + destruct r1 as [[[stop err] c1] | pk | ].
      * specialize (Hnext _ _ _ eq_refl).
        destruct stop.
        -- cbn. exists [SearchID r]. split.
           ++ apply (Hone r [SearchID r] []); [exact Hcr|reflexivity].
           ++ split; [cbn; lia|].
              intros sr' E. inversion E; subst. symmetry. exact Hnext.
        -- cbn [search_options Sleeper Context].
           destruct (sleeper p (ctx p) w1) as [[e1|] w2].
           ++ cbn. exists [SearchID r]. split.
              ** apply (Hone r [SearchID r] []); [exact Hcr|reflexivity].
              ** split; [cbn; lia|]. intros sr' E. discriminate.
           ++ destruct (IH c1 w2) as (rest & Heq & Hlen & Hfin).
              destruct (NewRetry_loop m (search_options p)
                          (search_attempt cl p query) c1 w2)
                as [[r3 w3] t3].
              cbn in Heq, Hfin |- *. exists rest. split.
              ** apply (Hone r rest t3); [exact Hcr|].
                 rewrite <- Hnext. exact Heq.
              ** split; [exact Hlen|exact Hfin].
      * cbn. exists [SearchID r]. split.
        -- apply (Hone r [SearchID r] []); [exact Hcr|reflexivity].
        -- split; [cbn; lia|]. intros sr' E. discriminate.
      * cbn. exists [SearchID r]. split.
        -- apply (Hone r [SearchID r] []); [exact Hcr|reflexivity].
        -- split; [cbn; lia|]. intros sr' E. discriminate.
Qed.

End Sessions.

(** X5: Page.Search never leaks a session across its attempts: the sessions
    it discards are, in order, the sessions its searches created, except
    that the last one created may still be open when Search stops; and when
    Search returns a SearchResult, that open session is the one the result
    holds, so that Release discards it: a search followed by Release
    discards every session that was created, once. *)
Theorem Search_discards_all_but_last_session :
  forall (W : Type) (cl : Client W) (p : Page W) (query : string) (w : W),
  exists rest,
    created (inner_events (snd (Search cl p query w)))
    = discarded (inner_events (snd (Search cl p query w))) ++ rest
    /\ (List.length rest <= 1)%nat
    /\ forall sr,
        fst (fst (Search cl p query w)) = Ret (Some sr, None) ->
        rest = outstanding sr
        /\ forall w0,
            created (inner_events (snd (Search cl p query w)))
            = discarded (inner_events (snd (Search cl p query w)))
              ++ discarded (snd (SearchResult_Release cl sr w0)).
Proof.
  intros W cl p query w.
  destruct (Search_loop_sessions cl p query 3
              (new_SearchResult p (fst (EnableDomain_DOMEnable cl p w)))
              (snd (EnableDomain_DOMEnable cl p w)))
    as (rest & Heq & Hlen & Hfin).
  exists rest. rewrite Search_trace. cbn [inner_events].
  change (outstanding (new_SearchResult p (fst (EnableDomain_DOMEnable cl p w))))
    with (@nil string) in Heq.
  cbn [app] in Heq. split; [exact Heq|]. split; [exact Hlen|].
  intros sr Hres.
  assert (Hrest : rest = outstanding sr).
  { apply Hfin. rewrite Search_returns in Hres.
    destruct (fst (fst (NewRetry_loop 3 (search_options p)
                          (search_attempt cl p query)
                          (new_SearchResult p
                             (fst (EnableDomain_DOMEnable cl p w)))
                          (snd (EnableDomain_DOMEnable cl p w)))))
      as [[[e|] sr1] | pk | ]; try discriminate.
    inversion Hres. reflexivity. }
  split; [exact Hrest|].
  intros w0. rewrite Heq, Hrest. f_equal.
  unfold SearchResult_Release, outstanding, discard, bind, call, ret.
  destruct (restore sr w0) as [u w1].
  destruct (sr_DOMPerformSearchResult sr) as [r|]; [|reflexivity].
  destruct (DOMDiscardSearchResults_Call cl (page sr) (SearchID r) w1).
  reflexivity.
Qed.

Lemma Search_discards_all_but_last_session_witness :
  created (inner_events (snd (Search Scenario.no_match Scenario.pg "q" 0%nat)))
  = discarded (inner_events
                 (snd (Search Scenario.no_match Scenario.pg "q" 0%nat)))
    ++ discarded (snd (SearchResult_Release Scenario.no_match
                         Scenario.empty_handed 3%nat)).
Proof.
  destruct (@Search_discards_all_but_last_session nat Scenario.no_match
              Scenario.pg "q" 0%nat) as (rest & _ & _ & H).
  exact (proj2 (H Scenario.empty_handed eq_refl) 3%nat).
Defined.

(** ** Paging through a search result *)

Section GetFacts.

Context {W : Type}.
Variable cl : Client W.
Variable p : Page W.

(** The loop of Get returns: a list with one element per identifier, or the
    error of the call it stopped at. *)
Lemma Get_loop_run (ids : list Z) :
  forall (acc : list (Element W)) (w : W),
  exists out w' t,
    Get_loop cl p ids acc w = (Ret out, w', t)
    /\ (forall els, out = inl els ->
          exists new,
            els = acc ++ new
            /\ List.length new = List.length ids
            /\ t = from_nodes ids new)
    /\ (forall e, out = inr e ->
          exists t0 id,
            In id ids /\ t = t0 ++ [EvElementFromNode id (inr e)]).
Proof.
  induction ids as [|id ids IH]; intros acc w.
  - exists (inl acc), w, []. cbn. split; [reflexivity|]. split.
    + intros els E. inversion E; subst. exists []. rewrite app_nil_r. auto.
    + intros e E. discriminate.
  - cbn [Get_loop]. unfold bind, call.
    destruct (ElementFromNode cl p id w) as [[el|err] w1].
    + destruct (IH (acc ++ [el]) w1) as (out & w' & t & E & Hok & Hbad).
      rewrite E. exists out, w', (EvElementFromNode id (inl el) :: t).
      split; [reflexivity|]. split.
      * intros els Hout. destruct (Hok els Hout) as (new & He & Hl & Ht).
        exists (el :: new). rewrite <- app_assoc in He.
        repeat split; auto.
        -- cbn. rewrite Hl. reflexivity.
        -- cbn. rewrite Ht. reflexivity.
      * intros e Hout. destruct (Hbad e Hout) as (t0 & id0 & Hin & Ht).
        exists (EvElementFromNode id (inl el) :: t0), id0.
        split; [right; exact Hin|]. rewrite Ht. reflexivity.
    + exists (inr err), w1, [EvElementFromNode id (inr err)]. cbn.
      split; [reflexivity|]. split.
      * intros els E. discriminate.
      * intros e E. inversion E; subst. exists [], id. auto.
Qed.

Lemma wrap_int_small (z : Z) :
  (- 2 ^ 63 <= z < 2 ^ 63)%Z -> wrap_int z = z.
Proof.
  intros Hz. unfold wrap_int.
  rewrite Z.mod_small; lia.
Qed.

End GetFacts.

(** X6: SearchResult.Get on a result that holds a search makes one fetch of
    the range from i to i + l of that session and returns without a panic.
    When the fetch fails, Get returns that error and asks for no element;
    otherwise it asks for the element of every identifier fetched, in
    order, the identifier 0 included, and returns as many elements as
    identifiers, or the error of the first call that failed, after which
    it makes no further call. *)
Theorem SearchResult_Get_pages :
  forall (W : Type) (cl : Client W) (s : SearchResult W) (i l : Z) (w w1 : W)
         (r : DOMPerformSearchResult) (x : list Z + error),
    sr_DOMPerformSearchResult s = Some r ->
    DOMGetSearchResults_Call cl (page s) (SearchID r) i (wrap_int (i + l)) w
    = (x, w1) ->
    exists out w' t0,
      SearchResult_Get cl s i l w
      = (Ret out, w',
         EvDOMGetSearchResults (SearchID r) i (wrap_int (i + l)) x :: t0)
      /\ match x with
         | inr e => out = inr e /\ t0 = []
         | inl ids =>
             (forall els, out = inl els ->
                List.length els = List.length ids /\ t0 = from_nodes ids els)
             /\ (forall e, out = inr e ->
                   exists t1 id,
                     In id ids /\ t0 = t1 ++ [EvElementFromNode id (inr e)])
         end.
Proof.
  intros W cl s i l w w1 r x Hr Hget.
  unfold SearchResult_Get, bind, call, ret. rewrite Hr, Hget.
  destruct x as [ids|e].
  - destruct (Get_loop_run cl (page s) ids [] w1)
      as (out & w' & t & E & Hok & Hbad).
    rewrite E. exists out, w', t. split; [reflexivity|]. split.
    + intros els Hout. destruct (Hok els Hout) as (new & He & Hl & Ht).
      cbn in He. subst new. auto.
    + exact Hbad.
  - exists (inr e), w1, []. cbn. auto.
Qed.

Lemma SearchResult_Get_pages_witness :
  exists out w' t0,
    SearchResult_Get Fixture.two_found Scenario.empty_handed 0 2 0%nat
    = (Ret out, w',
       EvDOMGetSearchResults "s3" 0 (wrap_int (0 + 2)) (inl [7%Z; 8%Z]) :: t0)
    /\ (forall els, out = inl els ->
          List.length els = List.length [7%Z; 8%Z]
          /\ t0 = from_nodes [7%Z; 8%Z] els)
    /\ (forall e, out = inr e ->
          exists t1 id,
            In id [7%Z; 8%Z] /\ t0 = t1 ++ [EvElementFromNode id (inr e)]).
Proof.
  apply (@SearchResult_Get_pages nat Fixture.two_found Scenario.empty_handed
           0%Z 2%Z 0%nat 0%nat {| SearchID := "s3"; ResultCount := 0 |}
           (inl [7%Z; 8%Z])).
  - reflexivity.
  - reflexivity.
Defined.

(** X7: on every SearchResult that Page.Search returns with a nil error,
    All returns without a panic: it fetches, from the session the result
    holds, the range that starts at 0 and ends at the result count (for a
    count that is a non-negative int), and then goes on as Get does.  On a
    SearchResult that holds no search, Get and All panic on the nil
    pointer before any call. *)
Theorem Search_result_All_safe :
  forall (W : Type) (cl : Client W) (p : Page W) (query : string) (w : W)
         (sr : SearchResult W),
    fst (fst (Search cl p query w)) = Ret (Some sr, None) ->
    exists r,
      sr_DOMPerformSearchResult sr = Some r
      /\ (forall w0,
            SearchResult_All cl sr w0 = SearchResult_Get cl sr 0 (ResultCount r) w0
            /\ exists out w' x t0,
                 SearchResult_All cl sr w0
                 = (Ret out, w',
                    EvDOMGetSearchResults (SearchID r) 0
                      (wrap_int (0 + ResultCount r)) x :: t0))
      /\ ((0 <= ResultCount r < 2 ^ 63)%Z ->
          wrap_int (0 + ResultCount r) = ResultCount r)
      /\ forall i l w0,
          SearchResult_Get cl (new_SearchResult p (restore sr)) i l w0
          = (Panicked NilDereference, w0, [])
          /\ SearchResult_All cl (new_SearchResult p (restore sr)) w0
             = (Panicked NilDereference, w0, []).
Proof.
  intros W cl p query w sr Hres.
  destruct (@Search_nil_error_has_result W cl p query w sr Hres) as (Hp & r & Hr).
  exists r. split; [exact Hr|]. split; [|split].
  - intros w0. unfold SearchResult_All. rewrite Hr. split; [reflexivity|].
    destruct (DOMGetSearchResults_Call cl (page sr) (SearchID r) 0
                (wrap_int (0 + ResultCount r)) w0) as [x w1] eqn:Hget.
    destruct (@SearchResult_Get_pages W cl sr 0%Z (ResultCount r) w0 w1 r x
                Hr Hget) as (out & w' & t0 & E & _).
    exists out, w', x, t0. exact E.
  - intros Hc. apply wrap_int_small. lia.
  - intros i l w0. split; reflexivity.
Qed.

Lemma Search_result_All_safe_witness :
  exists out w' x t0,
    SearchResult_All Scenario.no_match Scenario.empty_handed 3%nat
    = (Ret out, w',
       EvDOMGetSearchResults "s3" 0 (wrap_int (0 + 0)) x :: t0).
Proof.
  destruct (@Search_result_All_safe nat Scenario.no_match Scenario.pg "q"
              0%nat Scenario.empty_handed eq_refl) as (r & Hr & Hall & _).
  inversion Hr; subst r. exact (proj2 (Hall 3%nat)).
Defined.

(** ** Callers of Page.Search *)

Section RetryAbnormal.

Context {W C : Type}.
Variable options : RetryOptions W.
Variable fn : C -> M W (bool * option error * C).

(** The loop does not return only when an invocation does not. *)
Lemma NewRetry_loop_abnormal (n : nat) :
  forall (c : C) (w : W),
    match fst (fst (NewRetry_loop n options fn c w)) with
    | Ret _ => True
    | Panicked pk => exists c1 w1, fst (fst (fn c1 w1)) = Panicked pk
    | OutOfFuel => exists c1 w1, fst (fst (fn c1 w1)) = OutOfFuel
    end.
Proof.
  induction n as [|m IH]; intros c w.
  - cbn. exact I.
  - rewrite NewRetry_loop_S.
    destruct (fn c w) as [[r1 w1] t1] eqn:E1.
    destruct r1 as [[[stop err1] c1] | pk | ].
    + destruct stop; [exact I|].
      destruct (Sleeper options (Context options) w1) as [[e1|] w2]; [exact I|].
      specialize (IH c1 w2).
      destruct (NewRetry_loop m options fn c1 w2) as [[r3 w3] t3]. exact IH.
    + cbn. exists c, w. rewrite E1. reflexivity.
    + cbn. exists c, w. rewrite E1. reflexivity.
Qed.

End RetryAbnormal.

Section SearchCallers.

Context {W : Type}.
Variable cl : Client W.
Variable p : Page W.
Variable query : string.

(** How Page.Search can end: with a result that holds a search, with an
    error, or with the panic of an empty list of node identifiers. *)
Lemma Search_outcomes (w : W) :
  (exists sr r, fst (fst (Search cl p query w)) = Ret (Some sr, None)
                /\ sr_DOMPerformSearchResult sr = Some r)
  \/ (exists e, fst (fst (Search cl p query w)) = Ret (None, Some e))
  \/ fst (fst (Search cl p query w)) = Panicked IndexOutOfRange.
Proof.
  destruct (fst (fst (Search cl p query w))) as [[[sr|] [e|]] | pk | ] eqn:E.
  - rewrite Search_returns in E.
    destruct (fst (fst (NewRetry_loop 3 (search_options p)
                          (search_attempt cl p query) _ _)))
      as [[[e0|] sr1] | pk | ]; discriminate.
  - left. destruct (@Search_nil_error_has_result W cl p query w sr E)
      as (_ & r & Hr). eauto.
  - right. left. eauto.
  - rewrite Search_returns in E.
    destruct (fst (fst (NewRetry_loop 3 (search_options p)
                          (search_attempt cl p query) _ _)))
      as [[[e0|] sr1] | pk | ]; discriminate.
  - right. right. rewrite Search_returns in E.
    pose proof (NewRetry_loop_abnormal (search_options p)
                  (search_attempt cl p query) 3
                  (new_SearchResult p (fst (EnableDomain_DOMEnable cl p w)))
                  (snd (EnableDomain_DOMEnable cl p w))) as Hab.
    destruct (fst (fst (NewRetry_loop 3 (search_options p)
                          (search_attempt cl p query) _ _)))
      as [[[e0|] sr1] | pk0 | ]; try discriminate.
    inversion E; subst pk0. destruct Hab as (c1 & w1 & Hp).
    pose proof (search_attempt_outcome cl p query c1 w1) as Ho.
    rewrite Hp in Ho. inversion Ho. reflexivity.
  - exfalso. rewrite Search_returns in E.
    pose proof (NewRetry_loop_abnormal (search_options p)
                  (search_attempt cl p query) 3
                  (new_SearchResult p (fst (EnableDomain_DOMEnable cl p w)))
                  (snd (EnableDomain_DOMEnable cl p w))) as Hab.
    destruct (fst (fst (NewRetry_loop 3 (search_options p)
                          (search_attempt cl p query) _ _)))
      as [[[e0|] sr1] | pk0 | ]; try discriminate.
    destruct Hab as (c1 & w1 & Hp).
    pose proof (search_attempt_outcome cl p query c1 w1) as Ho.
    rewrite Hp in Ho. inversion Ho.
Qed.

(** Release on a result that holds a search. *)
Lemma SearchResult_Release_run (sr : SearchResult W) (r : DOMPerformSearchResult)
  (w : W) :
  sr_DOMPerformSearchResult sr = Some r ->
  exists w',
    SearchResult_Release cl sr w
    = (Ret tt, w', [EvRestore; EvDOMDiscardSearchResults (SearchID r)]).
Proof.
  intros Hr. unfold SearchResult_Release, discard, bind, call, ret.
  rewrite Hr. destruct (restore sr w) as [u w1].
  destruct (DOMDiscardSearchResults_Call cl (page sr) (SearchID r) w1)
    as [o w2]. exists w2. reflexivity.
Qed.

(** Page.Search on a page whose Sleeper always fails: one attempt, and a
    result only when that attempt found an element. *)
Lemma Search_without_patience (w : W) :
  (forall w0, exists e, fst (sleeper p (ctx p) w0) = Some e) ->
  fn_calls (snd (Search cl p query w)) = 1%nat
  /\ forall sr, fst (fst (Search cl p query w)) = Ret (Some sr, None) ->
                exists el, First sr = Some el.
Proof.
  intros Hs. rewrite Search_run.
  destruct (EnableDomain_DOMEnable cl p w) as [rst w0].
  rewrite NewRetry_loop_S.
  pose proof (search_attempt_outcome cl p query (new_SearchResult p rst) w0)
    as Ho.
  destruct (search_attempt cl p query (new_SearchResult p rst) w0)
    as [[r1 w1] t1].
  cbn [fst snd] in Ho. cbn [search_options Sleeper Context].
  destruct (Hs w1) as [e He].
  destruct (sleeper p (ctx p) w1) as [o w2]. cbn in He. subst o.
  inversion Ho; subst; try destruct (transient err); cbn;
    (split; [reflexivity|]); intros sr E; try discriminate.
  inversion E; subst. cbn. eauto.
Qed.

(** A search that finds nothing, on a page under NotFoundSleeper. *)
Lemma Search_no_match_hasty (w : W) :
  (forall w0, exists r w1,
      DOMPerformSearch_Call cl (Page_Sleeper p NotFoundSleeper) query true w0
      = (inl r, w1)
      /\ ResultCount r = 0%Z) ->
  fst (fst (Search cl (Page_Sleeper p NotFoundSleeper) query w))
  = Ret (None, Some ErrElementNotFound).
Proof.
  intros Hps. rewrite Search_run.
  destruct (EnableDomain_DOMEnable cl (Page_Sleeper p NotFoundSleeper) w)
    as [rst w0].
  destruct (search_attempt_no_match cl (Page_Sleeper p NotFoundSleeper) query
              (new_SearchResult (Page_Sleeper p NotFoundSleeper) rst) w0 Hps)
    as (r1 & w1 & E1).
  rewrite NewRetry_loop_S, E1. reflexivity.
Qed.

End SearchCallers.

(** X8: the function that RaceContext.Search registers, run on the page a
    race gives to its conditions (the page under NotFoundSleeper), makes
    one attempt of the search; it ends with an element and no error, after
    releasing the result (restore, then discard, as its last two calls), or
    with an error and no element, or with the panic of an empty list of
    node identifiers: never with nil and nil, and never with a nil
    dereference.  When the search finds nothing, the error is the
    not-found failure of the Sleeper, so that the race goes on to its next
    branch. *)
Theorem Race_Search_branch :
  forall (W : Type) (cl : Client W) (p : Page W) (query : string) (w : W),
    fn_calls (snd (RaceContext_Search_fn cl query
                     (Page_Sleeper p NotFoundSleeper) w)) = 1%nat
    /\ ((exists el t0 id,
           fst (fst (RaceContext_Search_fn cl query
                       (Page_Sleeper p NotFoundSleeper) w))
           = Ret (Some el, None)
           /\ snd (RaceContext_Search_fn cl query
                     (Page_Sleeper p NotFoundSleeper) w)
              = t0 ++ [EvRestore; EvDOMDiscardSearchResults id])
        \/ (exists e,
              fst (fst (RaceContext_Search_fn cl query
                          (Page_Sleeper p NotFoundSleeper) w))
              = Ret (None, Some e))
        \/ fst (fst (RaceContext_Search_fn cl query
                       (Page_Sleeper p NotFoundSleeper) w))
           = Panicked IndexOutOfRange)
    /\ ((forall w0, exists r w1,
            DOMPerformSearch_Call cl (Page_Sleeper p NotFoundSleeper) query
              true w0 = (inl r, w1)
            /\ ResultCount r = 0%Z) ->
        fst (fst (RaceContext_Search_fn cl query
                    (Page_Sleeper p NotFoundSleeper) w))
        = Ret (None, Some ErrElementNotFound)).
Proof.
  intros W cl p query w.
  set (hp := Page_Sleeper p NotFoundSleeper).
  assert (Hs : forall w0, exists e, fst (sleeper hp (ctx hp) w0) = Some e).
  { intros w0. exists ErrElementNotFound. reflexivity. }
  destruct (Search_without_patience cl hp query w Hs) as [Hcalls Hfirst].
  pose proof (Search_outcomes cl hp query w) as Hout.
  pose proof (Search_no_match_hasty cl p query w) as Hnone.
  fold hp in Hnone.
  unfold RaceContext_Search_fn, bind, ret.
  destruct (Search cl hp query w) as [[r1 w1] t1].
  cbn [fst snd] in Hcalls, Hfirst, Hout, Hnone.
  split; [|split].
  - destruct Hout as [(sr & r & E & Hr)|[(e & E)|E]]; subst r1.
    + destruct (SearchResult_Release_run cl sr w1 Hr) as [w2 Hrel].
      rewrite Hrel. cbn [fst snd].
      assert (Happ : forall t : list (event W),
                 fn_calls (t ++ [EvRestore;
                                 EvDOMDiscardSearchResults (SearchID r)] ++ [])
                 = fn_calls t).
      { induction t as [|ev t IH]; [reflexivity|].
        cbn [app] in IH |- *. destruct ev; cbn [fn_calls]; rewrite IH;
          reflexivity. }
      rewrite Happ. exact Hcalls.
    + cbn. rewrite app_nil_r. exact Hcalls.
    + cbn. exact Hcalls.
  - destruct Hout as [(sr & r & E & Hr)|[(e & E)|E]]; subst r1.
    + left. destruct (Hfirst sr eq_refl) as [el Hel].
      destruct (SearchResult_Release_run cl sr w1 Hr) as [w2 Hrel].
      rewrite Hrel. cbn. rewrite Hel. exists el, t1, (SearchID r).
      split; reflexivity.
    + right. left. exists e. reflexivity.
    + right. right. reflexivity.
  - intros Hps. rewrite (Hnone Hps). reflexivity.
Qed.

Lemma Race_Search_branch_witness :
  fst (fst (RaceContext_Search_fn Scenario.no_match "q"
              (Page_Sleeper Scenario.pg NotFoundSleeper) 0%nat))
  = Ret (None, Some ErrElementNotFound).
Proof.
  apply (proj2 (proj2 (@Race_Search_branch nat Scenario.no_match Scenario.pg
                         "q" 0%nat))).
  intros w0. eexists _, w0. split; reflexivity.
Defined.

(** X9: SearchParams of the README never dereferences a nil pointer: when
    Search fails it returns no result and false; otherwise it returns the
    result of Search, which holds a search, and whether the result count of
    that search is not 0. *)
Theorem SearchParams_reads_count :
  forall (W : Type) (cl : Client W) (p : Page W) (text : string) (w : W),
    (exists sr r,
        fst (fst (Search cl p text w)) = Ret (Some sr, None)
        /\ sr_DOMPerformSearchResult sr = Some r
        /\ fst (fst (SearchParams cl p text w))
           = Ret (Some sr, negb (ResultCount r =? 0)%Z))
    \/ (exists e,
          fst (fst (Search cl p text w)) = Ret (None, Some e)
          /\ fst (fst (SearchParams cl p text w)) = Ret (None, false))
    \/ (fst (fst (Search cl p text w)) = Panicked IndexOutOfRange
        /\ fst (fst (SearchParams cl p text w)) = Panicked IndexOutOfRange).
Proof.
  intros W cl p text w.
  pose proof (Search_outcomes cl p text w) as Hout.
  unfold SearchParams, bind, ret.
  destruct (Search cl p text w) as [[r1 w1] t1]. cbn [fst snd] in Hout |- *.
  destruct Hout as [(sr & r & E & Hr)|[(e & E)|E]]; subst r1.
  - left. exists sr, r. rewrite Hr. cbn. auto.
  - right. left. exists e. cbn. auto.
  - right. right. cbn. auto.
Qed.

(** ** The single-element lookup *)

Section ElementByJSFacts.

Context {W : Type}.
Variable cl : Client W.
Variable tryTraceQuery : Page W -> EvalOptions -> Act W (Act W unit).
Variable p : Page W.
Variable opts : EvalOptions.

Lemma evaluations_app (t1 t2 : list (event W)) :
  evaluations (t1 ++ t2) = evaluations t1 ++ evaluations t2.
Proof.
  induction t1 as [|ev t1 IH]; [reflexivity|].
  destruct ev; cbn; rewrite IH; reflexivity.
Qed.

(** One round of the lookup: one evaluation, and what it says. *)
Lemma ElementByJS_attempt_run (c : byjs_vars) (w : W) :
  exists r w' remove,
    ElementByJS_attempt cl tryTraceQuery p opts c w
    = (Ret (match r with
            | inr e =>
                (true, Some e, {| byjs_res := None; removeTrace := remove |})
            | inl v =>
                if is_null_object v
                then (false, None,
                      {| byjs_res := Some v; removeTrace := remove |})
                else (true, None,
                      {| byjs_res := Some v; removeTrace := remove |})
            end),
       w', [EvEvaluate (ByObject opts) r]).
Proof.
  unfold ElementByJS_attempt, bind, quiet, call, ret.
  destruct (tryTraceQuery p opts w) as [remove w1].
  destruct (removeTrace c w1) as [u w2].
  destruct (Evaluate cl p (ByObject opts) w2) as [r w3].
  exists r, w3, remove.
  destruct r as [v|e]; [|reflexivity].
  destruct (is_null_object v); reflexivity.
Qed.

(** The polling loop: every evaluation but the last answered the null
    object and was followed by a wait that succeeded. *)
Lemma ElementByJS_loop_run (fuel : nat) :
  forall (c : byjs_vars) (w : W),
  exists nulls lastev,
    evaluations
      (inner_events
         (snd (utils_Retry fuel (ctx p) (sleeper p)
                 (ElementByJS_attempt cl tryTraceQuery p opts) c w)))
    = map inl nulls ++ lastev
    /\ Forall (fun v => is_null_object v = true) nulls
    /\ (forall o x,
          ~ In (EvElementFromObject o x)
               (snd (utils_Retry fuel (ctx p) (sleeper p)
                       (ElementByJS_attempt cl tryTraceQuery p opts) c w)))
    /\ match fst (fst (utils_Retry fuel (ctx p) (sleeper p)
                         (ElementByJS_attempt cl tryTraceQuery p opts) c w))
       with
       | OutOfFuel =>
           lastev = []
           /\ sleeps (snd (utils_Retry fuel (ctx p) (sleeper p)
                             (ElementByJS_attempt cl tryTraceQuery p opts) c w))
              = repeat None (List.length nulls)
           /\ List.length nulls = fuel
       | Ret (None, c') =>
           exists v,
             lastev = [inl v]
             /\ is_null_object v = false
             /\ byjs_res c' = Some v
             /\ sleeps (snd (utils_Retry fuel (ctx p) (sleeper p)
                               (ElementByJS_attempt cl tryTraceQuery p opts)
                               c w))
                = repeat None (List.length nulls)
       | Ret (Some e, c') =>
           (lastev = [inr e]
            /\ sleeps (snd (utils_Retry fuel (ctx p) (sleeper p)
                              (ElementByJS_attempt cl tryTraceQuery p opts)
                              c w))
               = repeat None (List.length nulls))
           \/ (lastev = []
               /\ exists k,
                    List.length nulls = S k
                    /\ sleeps (snd (utils_Retry fuel (ctx p) (sleeper p)
                                      (ElementByJS_attempt cl tryTraceQuery p
                                         opts) c w))
                       = repeat None k ++ [Some e])
       | Panicked _ => False
       end.
Proof.
  induction fuel as [|m IH]; intros c w.
  - exists [], []. cbn. repeat split; auto.
  - rewrite utils_Retry_S.
    destruct (ElementByJS_attempt_run c w) as (r & w1 & remove & E).
    rewrite E. clear E.
    destruct r as [v|e].
    + destruct (is_null_object v) eqn:Hnull.
      * destruct (sleeper p (ctx p) w1) as [[e1|] w2].
        -- exists [v], []. cbn. repeat split; auto.
           ++ intros o x [H|[H|[]]]; discriminate.
           ++ right. split; [reflexivity|]. exists O. auto.
        -- destruct (IH {| byjs_res := Some v; removeTrace := remove |} w2)
             as (nulls & lastev & Hev & Hn & Hno & Hres).
           destruct (utils_Retry m (ctx p) (sleeper p)
                       (ElementByJS_attempt cl tryTraceQuery p opts)
                       {| byjs_res := Some v; removeTrace := remove |} w2)
             as [[r3 w3] t3].
           cbn [fst snd] in *.
           exists (v :: nulls), lastev. cbn. rewrite Hev.
           split; [reflexivity|]. split; [constructor; assumption|]. split.
           ++ intros o x [H|[H|H]]; try discriminate. exact (Hno o x H).
           ++ destruct r3 as [[[e0|] c'] | pk | ].
              ** destruct Hres as [(Hl & Hs)|(Hl & k & Hk & Hs)].
                 --- left. rewrite Hs. auto.
                 --- right. split; [exact Hl|]. exists (S k).
                     rewrite Hk, Hs. auto.
              ** destruct Hres as (v0 & H1 & H2 & H3 & H4).
                 exists v0. rewrite H4. auto.
              ** exact Hres.
              ** destruct Hres as (H1 & H2 & H3). rewrite H2, H3. auto.
      * exists [], [inl v]. cbn. repeat split; auto.
        -- intros o x [H|[]]; discriminate.
        -- exists v. auto.
    + exists [], [inr e]. cbn. repeat split; auto.
      intros o x [H|[]]; discriminate.
Qed.

Lemma inner_events_app (t1 t2 : list (event W)) :
  inner_events (t1 ++ t2) = inner_events t1 ++ inner_events t2.
Proof.
  induction t1 as [|ev t1 IH]; [reflexivity|].
  destruct ev; cbn; rewrite ?IH, <- ?app_assoc; reflexivity.
Qed.

Lemma sleeps_app (t1 t2 : list (event W)) :
  sleeps (t1 ++ t2) = sleeps t1 ++ sleeps t2.
Proof.
  induction t1 as [|ev t1 IH]; [reflexivity|].
  destruct ev; cbn; rewrite IH; reflexivity.
Qed.

(** Page.ElementByJS, by the answer of its loop. *)
Lemma ElementByJS_run (fuel : nat) (w : W) :
  ElementByJS cl tryTraceQuery fuel p opts w =
  match utils_Retry fuel (ctx p) (sleeper p)
          (ElementByJS_attempt cl tryTraceQuery p opts)
          {| byjs_res := None; removeTrace := fun w0 => (tt, w0) |} w with
  | (Ret (Some e, c), w1, t) => (Ret (inr e), snd (removeTrace c w1), t)
  | (Ret (None, c), w1, t) =>
      match byjs_res c with
      | None => (Panicked NilDereference, snd (removeTrace c w1), t)
      | Some v =>
          if subtype_is_node (Subtype v)
          then (Ret (fst (ElementFromObject cl p v (snd (removeTrace c w1)))),
                snd (ElementFromObject cl p v (snd (removeTrace c w1))),
                t ++ [EvElementFromObject v
                        (fst (ElementFromObject cl p v
                                (snd (removeTrace c w1))))])
          else (Ret (inr (ErrExpectElement v)), snd (removeTrace c w1), t)
      end
  | (Panicked pk, w1, t) => (Panicked pk, w1, t)
  | (OutOfFuel, w1, t) => (OutOfFuel, w1, t)
  end.
Proof.
  unfold ElementByJS, bind, quiet, call, ret, go_panic.
  destruct (utils_Retry fuel (ctx p) (sleeper p)
              (ElementByJS_attempt cl tryTraceQuery p opts)
              {| byjs_res := None; removeTrace := fun w0 => (tt, w0) |} w)
    as [[r w1] t].
  destruct r as [[[e|] c] | pk | ]; try reflexivity.
  - destruct (removeTrace c w1) as [u w2]. cbn. rewrite app_nil_r.
    reflexivity.
  - destruct (removeTrace c w1) as [u w2]. cbn [fst snd app].
    destruct (byjs_res c) as [v|]; [|cbn; rewrite app_nil_r; reflexivity].
    destruct (subtype_is_node (Subtype v)); cbn [negb].
    + destruct (ElementFromObject cl p v w2) as [x w3]. reflexivity.
    + cbn. rewrite app_nil_r. reflexivity.
Qed.

(** A run of the lookup that ended within the bound is the same under any
    larger bound. *)
Lemma ElementByJS_mono (fuel fuel' : nat) (w : W) :
  fst (fst (ElementByJS cl tryTraceQuery fuel p opts w)) <> OutOfFuel ->
  (fuel <= fuel')%nat ->
  ElementByJS cl tryTraceQuery fuel' p opts w
  = ElementByJS cl tryTraceQuery fuel p opts w.
Proof.
  intros Hf Hle. rewrite !ElementByJS_run in *.
  rewrite (@utils_Retry_mono W _ (ctx p) (sleeper p)
             (ElementByJS_attempt cl tryTraceQuery p opts) fuel _ w fuel');
    [reflexivity| |exact Hle].
  destruct (utils_Retry fuel (ctx p) (sleeper p)
              (ElementByJS_attempt cl tryTraceQuery p opts) _ w)
    as [[r w1] t].
  destruct r as [[[e|] c] | pk | ]; cbn in Hf |- *; congruence.
Qed.

End ElementByJSFacts.

Section HastyLookup.

Context {W : Type}.
Variable cl : Client W.
Variable tryTraceQuery : Page W -> EvalOptions -> Act W (Act W unit).
Variable p : Page W.
Variable opts : EvalOptions.

(** The lookup on a page under NotFoundSleeper: one evaluation decides. *)
Lemma ElementByJS_hasty_run (fuel : nat) (w : W) :
  exists x r,
    evaluations
      (inner_events
         (snd (ElementByJS cl tryTraceQuery (S fuel)
                 (Page_Sleeper p NotFoundSleeper) opts w))) = [x]
    /\ fst (fst (ElementByJS cl tryTraceQuery (S fuel)
                   (Page_Sleeper p NotFoundSleeper) opts w)) = Ret r
    /\ match x with
       | inr e => r = inr e
       | inl v =>
           if is_null_object v then r = inr ErrElementNotFound
           else if subtype_is_node (Subtype v)
                then exists t0,
                       snd (ElementByJS cl tryTraceQuery (S fuel)
                              (Page_Sleeper p NotFoundSleeper) opts w)
                       = t0 ++ [EvElementFromObject v r]
                else r = inr (ErrExpectElement v)
       end.
Proof.
  rewrite ElementByJS_run, utils_Retry_S.
  destruct (ElementByJS_attempt_run cl tryTraceQuery
              (Page_Sleeper p NotFoundSleeper) opts
              {| byjs_res := None; removeTrace := fun w0 => (tt, w0) |} w)
    as (x & w1 & remove & E).
  rewrite E. clear E. exists x.
  destruct x as [v|e].
  - destruct (is_null_object v) eqn:Hnull.
    + cbn. exists (inr ErrElementNotFound). auto.
    + cbn [byjs_res removeTrace].
      destruct (subtype_is_node (Subtype v)) eqn:Hnode.
      * eexists. cbn [fst snd]. rewrite inner_events_app, evaluations_app.
        cbn. split; [reflexivity|]. split; [reflexivity|].
        exists [EvFn (Some (true, None)) [EvEvaluate (ByObject opts) (inl v)]].
        reflexivity.
      * cbn. exists (inr (ErrExpectElement v)). auto.
  - cbn. exists (inr e). auto.
Qed.

(** What Has, HasX and HasR make of the hasty lookup. *)
Lemma has_result_contract (p0 : Page W) (fuel : nat) (w : W) :
  p = p0 ->
  has_contract p0
    ((r <- ElementByJS cl tryTraceQuery (S fuel)
             (Page_Sleeper p NotFoundSleeper) opts ;;
      has_result p0 r) w).
Proof.
  intros <-. unfold has_contract, bind.
  destruct (ElementByJS_hasty_run fuel w) as (x & r & Hev & Hres & _).
  destruct (ElementByJS cl tryTraceQuery (S fuel)
              (Page_Sleeper p NotFoundSleeper) opts w) as [[r0 w1] t0].
  cbn [fst snd] in Hev, Hres. subst r0.
  destruct r as [el|e]; cbn [has_result].
  - exists true, (Some (Element_Sleeper el (sleeper p))), None.
    cbn. rewrite app_nil_r.
    split; [reflexivity|].
    split; [split; [eauto|reflexivity]|].
    split; [intros y Hy; inversion Hy; auto|].
    split; [intros e0 He0; discriminate|].
    rewrite Hev. reflexivity.
  - destruct (errors_Is e IsElementNotFound) eqn:He.
    + exists false, None, None. cbn. rewrite app_nil_r.
      split; [reflexivity|].
      split; [split; [discriminate|intros [y Hy]; discriminate]|].
      split; [intros y Hy; discriminate|].
      split; [intros e0 He0; discriminate|].
      rewrite Hev. reflexivity.
    + exists false, None, (Some e). cbn. rewrite app_nil_r.
      split; [reflexivity|].
      split; [split; [discriminate|intros [y Hy]; discriminate]|].
      split; [intros y Hy; discriminate|].
      split; [intros e0 He0; inversion He0; subst; auto|].
      rewrite Hev. reflexivity.
Qed.

End HastyLookup.

(** X10: when Page.ElementByJS returns an element, the evaluations before
    the last one all answered the null object and each was followed by a
    wait that succeeded; the last evaluation answered a node-typed value
    that is not the null object, and the element is what ElementFromObject
    made of that value, in the last call of the run; a larger bound on the
    polling gives the same run. *)
Theorem ElementByJS_returns_first_node :
  forall (W : Type) (cl : Client W)
         (tryTraceQuery : Page W -> EvalOptions -> Act W (Act W unit))
         (p : Page W) (opts : EvalOptions) (fuel : nat) (w : W)
         (el : Element W),
    fst (fst (ElementByJS cl tryTraceQuery fuel p opts w)) = Ret (inl el) ->
    exists nulls v t0,
      evaluations
        (inner_events (snd (ElementByJS cl tryTraceQuery fuel p opts w)))
      = map inl nulls ++ [inl v]
      /\ Forall (fun n => is_null_object n = true) nulls
      /\ is_null_object v = false
      /\ Subtype v = SubtypeNode
      /\ sleeps (snd (ElementByJS cl tryTraceQuery fuel p opts w))
         = repeat None (List.length nulls)
      /\ snd (ElementByJS cl tryTraceQuery fuel p opts w)
         = t0 ++ [EvElementFromObject v (inl el)]
      /\ forall fuel', (fuel <= fuel')%nat ->
            ElementByJS cl tryTraceQuery fuel' p opts w
            = ElementByJS cl tryTraceQuery fuel p opts w.
Proof.
  intros W cl tq p opts fuel w el Hres.
  assert (Hmono : forall fuel', (fuel <= fuel')%nat ->
            ElementByJS cl tq fuel' p opts w = ElementByJS cl tq fuel p opts w).
  { intros fuel' Hle. apply ElementByJS_mono; [|exact Hle].
    rewrite Hres. discriminate. }
  assert (Hmain : exists nulls v t0,
             evaluations (inner_events (snd (ElementByJS cl tq fuel p opts w)))
             = map inl nulls ++ [inl v]
             /\ Forall (fun n => is_null_object n = true) nulls
             /\ is_null_object v = false
             /\ Subtype v = SubtypeNode
             /\ sleeps (snd (ElementByJS cl tq fuel p opts w))
                = repeat None (List.length nulls)
             /\ snd (ElementByJS cl tq fuel p opts w)
                = t0 ++ [EvElementFromObject v (inl el)]).
  { clear Hmono. rewrite ElementByJS_run in Hres |- *.
    destruct (ElementByJS_loop_run cl tq p opts fuel
                {| byjs_res := None; removeTrace := fun w0 => (tt, w0) |} w)
      as (nulls & lastev & Hev & Hn & Hno & Hloop).
    destruct (utils_Retry fuel (ctx p) (sleeper p)
                (ElementByJS_attempt cl tq p opts) _ w) as [[r w1] t].
    cbn [fst snd] in Hev, Hno, Hloop.
    destruct r as [[[e|] c] | pk | ]; try (cbn in Hres; discriminate).
    destruct Hloop as (v & Hl & Hnull & Hc & Hs). rewrite Hc in Hres |- *.
    destruct (subtype_is_node (Subtype v)) eqn:Hnode;
      [|cbn in Hres; discriminate].
    cbn [fst snd] in Hres |- *. inversion Hres as [Hel].
    exists nulls, v, t. rewrite inner_events_app, evaluations_app, sleeps_app.
    cbn. rewrite !app_nil_r, Hev, Hl, Hs.
    repeat split; auto.
    all: try (apply subtype_is_node_true; exact Hnode).
    all: try (rewrite Hel; reflexivity). }
  destruct Hmain as (nulls & v & t0 & H1 & H2 & H3 & H4 & H5 & H6).
  exists nulls, v, t0. repeat split; auto.
Qed.

Lemma ElementByJS_returns_first_node_witness :
  exists nulls v t0,
    evaluations
      (inner_events
         (snd (ElementByJS Fixture.appears_later Fixture.no_trace 5
                 Scenario.pg Scenario.any_js 0%nat)))
    = map inl nulls ++ [inl v]
    /\ Forall (fun n => is_null_object n = true) nulls
    /\ is_null_object v = false
    /\ Subtype v = SubtypeNode
    /\ sleeps (snd (ElementByJS Fixture.appears_later Fixture.no_trace 5
                      Scenario.pg Scenario.any_js 0%nat))
       = repeat None (List.length nulls)
    /\ snd (ElementByJS Fixture.appears_later Fixture.no_trace 5
              Scenario.pg Scenario.any_js 0%nat)
       = t0 ++ [EvElementFromObject v
                  (inl (Scenario.handle Scenario.pg (Scenario.node_object "n")))]
    /\ forall fuel', (5 <= fuel')%nat ->
          ElementByJS Fixture.appears_later Fixture.no_trace fuel'
            Scenario.pg Scenario.any_js 0%nat
          = ElementByJS Fixture.appears_later Fixture.no_trace 5
              Scenario.pg Scenario.any_js 0%nat.
Proof.
  apply (@ElementByJS_returns_first_node nat Fixture.appears_later
           Fixture.no_trace Scenario.pg Scenario.any_js 5%nat 0%nat
           (Scenario.handle Scenario.pg (Scenario.node_object "n"))).
  reflexivity.
Defined.

(** X11: when the last evaluation of a run of Page.ElementByJS answered a
    value that is neither the null object nor node-typed, ElementByJS
    returns the error ErrExpectElement that holds that value, and never
    asks ElementFromObject for an element. *)
Theorem ElementByJS_expects_a_node :
  forall (W : Type) (cl : Client W)
         (tryTraceQuery : Page W -> EvalOptions -> Act W (Act W unit))
         (p : Page W) (opts : EvalOptions) (fuel : nat) (w : W)
         (pre : list (RuntimeRemoteObject + error)) (v : RuntimeRemoteObject),
    evaluations
      (inner_events (snd (ElementByJS cl tryTraceQuery fuel p opts w)))
    = pre ++ [inl v] ->
    is_null_object v = false ->
    Subtype v <> SubtypeNode ->
    fst (fst (ElementByJS cl tryTraceQuery fuel p opts w))
    = Ret (inr (ErrExpectElement v))
    /\ (forall o x,
          ~ In (EvElementFromObject o x)
               (snd (ElementByJS cl tryTraceQuery fuel p opts w)))
    /\ sleeps (snd (ElementByJS cl tryTraceQuery fuel p opts w))
       = repeat None (List.length pre).
Proof.
  intros W cl tq p opts fuel w pre v Hev Hnull Hnode.
  rewrite ElementByJS_run in Hev |- *.
  destruct (ElementByJS_loop_run cl tq p opts fuel
              {| byjs_res := None; removeTrace := fun w0 => (tt, w0) |} w)
    as (nulls & lastev & Hev0 & Hn & Hno & Hloop).
  destruct (utils_Retry fuel (ctx p) (sleeper p)
              (ElementByJS_attempt cl tq p opts) _ w) as [[r w1] t].
  cbn [fst snd] in Hev0, Hno, Hloop.
  assert (Hnot_null : forall l, map inl l ++ [] = pre ++ [inl v] ->
                      Forall (fun n => is_null_object n = true) l -> False).
  { intros l Hl Hf. rewrite app_nil_r in Hl.
    destruct l as [|a l] using rev_ind.
    - destruct pre; discriminate.
    - rewrite map_app in Hl. cbn in Hl. apply app_inj_tail in Hl.
      destruct Hl as [_ Hl]. inversion Hl; subst.
      apply Forall_app in Hf. destruct Hf as [_ Hf].
      inversion Hf; subst. congruence. }
  assert (Hnn : subtype_is_node (Subtype v) = false).
  { destruct (subtype_is_node (Subtype v)) eqn:E; [|reflexivity].
    apply subtype_is_node_true in E. contradiction. }
  destruct r as [[[e|] c] | pk | ].
  - cbn [fst snd] in Hev. rewrite Hev0 in Hev.
    destruct Hloop as [(Hl & Hs)|(Hl & k & Hk & Hs)]; subst lastev.
    + apply app_inj_tail in Hev. destruct Hev as [_ Hev]. discriminate.
    + elim (Hnot_null nulls Hev Hn).
  - destruct Hloop as (v0 & Hl & Hnull0 & Hc & Hs). subst lastev.
    rewrite Hc in Hev |- *.
    assert (Hsame : evaluations (inner_events t) = pre ++ [inl v]).
    { destruct (subtype_is_node (Subtype v0)); cbn [snd] in Hev;
        [rewrite inner_events_app, evaluations_app in Hev; cbn in Hev;
         rewrite app_nil_r in Hev|]; exact Hev. }
    rewrite Hev0 in Hsame. apply app_inj_tail in Hsame.
    destruct Hsame as [Hpre Hv]. inversion Hv; subst v0.
    rewrite Hnn. cbn [fst snd]. split; [reflexivity|]. split; [exact Hno|].
    rewrite Hs, <- Hpre, length_map. reflexivity.
  - elim Hloop.
  - cbn [fst snd] in Hev. rewrite Hev0 in Hev.
    destruct Hloop as (Hl & _). subst lastev.
    elim (Hnot_null nulls Hev Hn).
Qed.

Lemma ElementByJS_expects_a_node_witness :
  fst (fst (ElementByJS (Fixture.evaluates Scenario.number_value)
              Fixture.no_trace 1 Scenario.pg Scenario.any_js 0%nat))
  = Ret (inr (ErrExpectElement Scenario.number_value))
  /\ (forall o x,
        ~ In (EvElementFromObject o x)
             (snd (ElementByJS (Fixture.evaluates Scenario.number_value)
                     Fixture.no_trace 1 Scenario.pg Scenario.any_js 0%nat)))
  /\ sleeps (snd (ElementByJS (Fixture.evaluates Scenario.number_value)
                    Fixture.no_trace 1 Scenario.pg Scenario.any_js 0%nat))
     = repeat None (List.length (@nil (RuntimeRemoteObject + error))).
Proof.
  apply (@ElementByJS_expects_a_node nat
           (Fixture.evaluates Scenario.number_value) Fixture.no_trace
           Scenario.pg Scenario.any_js 1%nat 0%nat [] Scenario.number_value).
  - reflexivity.
  - reflexivity.
  - discriminate.
Defined.

(** X12: on a page under NotFoundSleeper, Page.ElementByJS never polls: for
    any positive bound it evaluates once and returns.  It returns the error
    of a failed evaluation; the not-found error of the Sleeper when the
    evaluation answers the null object; the error ErrExpectElement with the
    value when that is not node-typed; and otherwise what
    ElementFromObject, its last call, makes of the value. *)
Theorem ElementByJS_under_NotFoundSleeper :
  forall (W : Type) (cl : Client W)
         (tryTraceQuery : Page W -> EvalOptions -> Act W (Act W unit))
         (p : Page W) (opts : EvalOptions) (fuel : nat) (w : W),
  exists x r,
    evaluations
      (inner_events
         (snd (ElementByJS cl tryTraceQuery (S fuel)
                 (Page_Sleeper p NotFoundSleeper) opts w))) = [x]
    /\ fst (fst (ElementByJS cl tryTraceQuery (S fuel)
                   (Page_Sleeper p NotFoundSleeper) opts w)) = Ret r
    /\ match x with
       | inr e => r = inr e
       | inl v =>
           if is_null_object v then r = inr ErrElementNotFound
           else if subtype_is_node (Subtype v)
                then exists t0,
                       snd (ElementByJS cl tryTraceQuery (S fuel)
                              (Page_Sleeper p NotFoundSleeper) opts w)
                       = t0 ++ [EvElementFromObject v r]
                else r = inr (ErrExpectElement v)
       end
    /\ forall fuel',
         ElementByJS cl tryTraceQuery (S fuel')
           (Page_Sleeper p NotFoundSleeper) opts w
         = ElementByJS cl tryTraceQuery (S fuel)
             (Page_Sleeper p NotFoundSleeper) opts w.
Proof.
  intros W cl tq p opts fuel w.
  destruct (ElementByJS_hasty_run cl tq p opts fuel w) as (x & r & H1 & H2 & H3).
  exists x, r. split; [exact H1|]. split; [exact H2|]. split; [exact H3|].
  intros fuel'.
  assert (Hone : forall n,
             ElementByJS cl tq (S n) (Page_Sleeper p NotFoundSleeper) opts w
             = ElementByJS cl tq 1 (Page_Sleeper p NotFoundSleeper) opts w).
  { intros n. apply ElementByJS_mono; [|lia].
    destruct (ElementByJS_hasty_run cl tq p opts 0 w) as (_ & r0 & _ & Hr & _).
    rewrite Hr. discriminate. }
  rewrite (Hone fuel'), (Hone fuel). reflexivity.
Qed.

(** X13: Page.Has, Page.HasX and Page.HasR return after one evaluation,
    whatever the Sleeper of the page is; each says true exactly when it
    gives an element, which then has the Sleeper of the page and comes with
    no error; an error they return is never of the not-found
    classification (not found is false with no error) and comes with
    false. *)
Theorem Page_Has_contract :
  forall (W : Type) (cl : Client W)
         (tryTraceQuery : Page W -> EvalOptions -> Act W (Act W unit))
         (evalHelper : js_function -> list string -> EvalOptions)
         (p : Page W) (selector jsRegex : string) (fuel : nat) (w : W),
    has_contract p
      (Page_Has cl tryTraceQuery evalHelper (S fuel) p selector w)
    /\ has_contract p
         (Page_HasX cl tryTraceQuery evalHelper (S fuel) p selector w)
    /\ has_contract p
         (Page_HasR cl tryTraceQuery evalHelper (S fuel) p selector jsRegex w).
Proof.
  intros W cl tq eh p selector jsRegex fuel w.
  split; [|split].
  - apply (@has_result_contract W cl tq p (eh js_Element [selector]) p fuel w).
    reflexivity.
  - apply (@has_result_contract W cl tq p (eh js_ElementX [selector]) p fuel w).
    reflexivity.
  - apply (@has_result_contract W cl tq p (eh js_ElementR [selector; jsRegex])
             p fuel w).
    reflexivity.
Qed.

(** ** Lists of pages and of elements *)

Section FindFacts.

Context {W : Type}.
Variable cl : Client W.
Variable tryTraceQuery : Page W -> EvalOptions -> Act W (Act W unit).
Variable evalHelper : js_function -> list string -> EvalOptions.
Variable ErrPageNotFound : error.
Variable selector : string.
Variable fuel : nat.

(** Pages.Find examines the pages in order, one evaluation each, and stops
    at the first that has the element or whose lookup fails. *)
Lemma Pages_Find_run (ps : list (Page W)) :
  forall w : W,
    (exists pg pre post,
        fst (fst (Pages_Find cl tryTraceQuery evalHelper ErrPageNotFound
                    (S fuel) ps selector w)) = Ret (Some pg, None)
        /\ ps = pre ++ pg :: post
        /\ List.length
             (evaluations
                (inner_events
                   (snd (Pages_Find cl tryTraceQuery evalHelper ErrPageNotFound
                           (S fuel) ps selector w))))
           = S (List.length pre))
    \/ (exists e,
          fst (fst (Pages_Find cl tryTraceQuery evalHelper ErrPageNotFound
                      (S fuel) ps selector w)) = Ret (None, Some e)
          /\ ((e = ErrPageNotFound
               /\ List.length
                    (evaluations
                       (inner_events
                          (snd (Pages_Find cl tryTraceQuery evalHelper
                                  ErrPageNotFound (S fuel) ps selector w))))
                  = List.length ps)
              \/ (errors_Is e IsElementNotFound = false
                  /\ (List.length
                        (evaluations
                           (inner_events
                              (snd (Pages_Find cl tryTraceQuery evalHelper
                                      ErrPageNotFound (S fuel) ps selector
                                      w))))
                      <= List.length ps)%nat))).
Proof.
  induction ps as [|pg ps IH]; intros w.
  - right. exists ErrPageNotFound. cbn. auto.
  - cbn [Pages_Find]. unfold bind.
    destruct (@has_result_contract W cl tryTraceQuery pg
                (evalHelper js_Element [selector]) pg fuel w eq_refl)
      as (has & el & err & Hres & Hhas & Hel & Herr & Hev).
    fold (Page_Element cl tryTraceQuery evalHelper (S fuel)
            (Page_Sleeper pg NotFoundSleeper) selector) in Hres, Hev.
    fold (Page_Has cl tryTraceQuery evalHelper (S fuel) pg selector)
      in Hres, Hev.
    destruct (Page_Has cl tryTraceQuery evalHelper (S fuel) pg selector w)
      as [[r1 w1] t1].
    cbn [fst snd] in Hres, Hev. subst r1.
    destruct err as [e|].
    + right. exists e. cbn. rewrite ?app_nil_r.
      split; [reflexivity|]. right.
      destruct (Herr e eq_refl) as [He _]. split; [exact He|]. rewrite Hev. lia.
    + destruct has.
      * left. exists pg, [], ps. cbn. rewrite ?app_nil_r. rewrite Hev. auto.
      * specialize (IH w1).
        destruct (Pages_Find cl tryTraceQuery evalHelper ErrPageNotFound
                    (S fuel) ps selector w1) as [[r2 w2] t2].
        cbn [fst snd] in IH |- *.
        rewrite inner_events_app, evaluations_app, length_app, Hev.
        destruct IH as [(pg0 & pre & post & H1 & H2 & H3)
                       |(e & H1 & [(H2 & H3)|(H2 & H3)])].
        -- left. exists pg0, (pg :: pre), post. subst ps. cbn. rewrite H3. auto.
        -- right. exists e. split; [exact H1|]. left. cbn. rewrite H3. auto.
        -- right. exists e. split; [exact H1|]. right. cbn. split; [auto|lia].
Qed.

(** Pages that do not have the element are passed over, each examined in
    the store the one before it left. *)
Lemma Pages_Find_skip (pre : list (Page W)) :
  forall (rest : list (Page W)) (w w1 : W),
    none_has cl tryTraceQuery evalHelper (S fuel) pre selector w = Some w1 ->
    fst (Pages_Find cl tryTraceQuery evalHelper ErrPageNotFound (S fuel)
           (pre ++ rest) selector w)
    = fst (Pages_Find cl tryTraceQuery evalHelper ErrPageNotFound (S fuel)
             rest selector w1).
Proof.
  induction pre as [|pg pre IH]; intros rest w w1 Hn.
  - cbn in Hn. inversion Hn; subst. reflexivity.
  - cbn [none_has] in Hn. cbn [app Pages_Find]. unfold bind.
    destruct (Page_Has cl tryTraceQuery evalHelper (S fuel) pg selector w)
      as [[r1 w0] t1].
    destruct r1 as [[[has el] err] | pk | ]; try discriminate.
    destruct has; try discriminate.
    destruct err as [e|]; try discriminate.
    specialize (IH rest w0 w1 Hn).
    destruct (Pages_Find cl tryTraceQuery evalHelper ErrPageNotFound (S fuel)
                (pre ++ rest) selector w0) as [[r2 w2] t2].
    cbn [fst] in IH |- *. exact IH.
Qed.

(** The page Pages.Find returns is one that has the element, and none of
    the pages before it has it. *)
Lemma Pages_Find_found (ps : list (Page W)) :
  forall (w : W) (pg : Page W),
    fst (fst (Pages_Find cl tryTraceQuery evalHelper ErrPageNotFound (S fuel)
                ps selector w)) = Ret (Some pg, None) ->
    exists pre post w1 el,
      ps = pre ++ pg :: post
      /\ none_has cl tryTraceQuery evalHelper (S fuel) pre selector w = Some w1
      /\ fst (fst (Page_Has cl tryTraceQuery evalHelper (S fuel) pg selector
                     w1)) = Ret (true, el, None).
Proof.
  induction ps as [|p0 ps IH]; intros w pg Hres.
  - cbn in Hres. discriminate.
  - cbn [Pages_Find] in Hres. unfold bind in Hres.
    destruct (Page_Has cl tryTraceQuery evalHelper (S fuel) p0 selector w)
      as [[r1 w0] t1] eqn:Eh.
    destruct r1 as [[[has el] err] | pk | ]; try discriminate.
    destruct err as [e|]; [cbn in Hres; discriminate|].
    destruct has.
    + cbn in Hres. inversion Hres; subst pg.
      exists [], ps, w, el. rewrite Eh. auto.
    + specialize (IH w0 pg).
      destruct (Pages_Find cl tryTraceQuery evalHelper ErrPageNotFound (S fuel)
                  ps selector w0) as [[r2 w2] t2].
      cbn [fst] in Hres, IH.
      destruct (IH Hres) as (pre & post & w1 & el1 & Hps & Hn & Hh).
      exists (p0 :: pre), post, w1, el1. subst ps.
      cbn [none_has]. rewrite Eh. auto.
Qed.

End FindFacts.

(** X14: Pages.Find examines the pages in order with one evaluation each,
    each in the store the lookup before it left.  A page it returns has the
    element (Page.Has on it says true, without error) and no page before it
    has it; conversely, the first page that has the element, after pages
    that do not, is the page returned, whatever comes after it, and the
    first lookup that fails after such pages gives the error returned.
    When no page has the element (none, for the empty list), it returns the
    error of a page list in which nothing was found.  An error of a lookup
    is never of the not-found classification, and a page never comes
    together with an error. *)
Theorem Pages_Find_first_match :
  forall (W : Type) (cl : Client W)
         (tryTraceQuery : Page W -> EvalOptions -> Act W (Act W unit))
         (evalHelper : js_function -> list string -> EvalOptions)
         (ErrPageNotFound : error) (selector : string) (fuel : nat)
         (ps : list (Page W)) (w : W),
    ((exists pg pre post,
         fst (fst (Pages_Find cl tryTraceQuery evalHelper ErrPageNotFound
                     (S fuel) ps selector w)) = Ret (Some pg, None)
         /\ ps = pre ++ pg :: post
         /\ List.length
              (evaluations
                 (inner_events
                    (snd (Pages_Find cl tryTraceQuery evalHelper
                            ErrPageNotFound (S fuel) ps selector w))))
            = S (List.length pre))
     \/ (exists e,
           fst (fst (Pages_Find cl tryTraceQuery evalHelper ErrPageNotFound
                       (S fuel) ps selector w)) = Ret (None, Some e)
           /\ ((e = ErrPageNotFound
                /\ List.length
                     (evaluations
                        (inner_events
                           (snd (Pages_Find cl tryTraceQuery evalHelper
                                   ErrPageNotFound (S fuel) ps selector w))))
                   = List.length ps)
               \/ (errors_Is e IsElementNotFound = false
                   /\ (List.length
                         (evaluations
                            (inner_events
                               (snd (Pages_Find cl tryTraceQuery evalHelper
                                       ErrPageNotFound (S fuel) ps selector
                                       w))))
                       <= List.length ps)%nat))))
    /\ Pages_Find cl tryTraceQuery evalHelper ErrPageNotFound (S fuel) []
         selector w
       = (Ret (None, Some ErrPageNotFound), w, [])
    /\ (forall pg,
          fst (fst (Pages_Find cl tryTraceQuery evalHelper ErrPageNotFound
                      (S fuel) ps selector w)) = Ret (Some pg, None) ->
          exists pre post w1 el,
            ps = pre ++ pg :: post
            /\ none_has cl tryTraceQuery evalHelper (S fuel) pre selector w
               = Some w1
            /\ fst (fst (Page_Has cl tryTraceQuery evalHelper (S fuel) pg
                           selector w1)) = Ret (true, el, None))
    /\ (forall pre pg post w1 el,
          ps = pre ++ pg :: post ->
          none_has cl tryTraceQuery evalHelper (S fuel) pre selector w
            = Some w1 ->
          fst (fst (Page_Has cl tryTraceQuery evalHelper (S fuel) pg selector
                      w1)) = Ret (true, el, None) ->
          fst (Pages_Find cl tryTraceQuery evalHelper ErrPageNotFound (S fuel)
                 ps selector w)
          = (Ret (Some pg, None),
             snd (fst (Page_Has cl tryTraceQuery evalHelper (S fuel) pg
                         selector w1))))
    /\ (forall pre pg post w1 has el e,
          ps = pre ++ pg :: post ->
          none_has cl tryTraceQuery evalHelper (S fuel) pre selector w
            = Some w1 ->
          fst (fst (Page_Has cl tryTraceQuery evalHelper (S fuel) pg selector
                      w1)) = Ret (has, el, Some e) ->
          fst (Pages_Find cl tryTraceQuery evalHelper ErrPageNotFound (S fuel)
                 ps selector w)
          = (Ret (None, Some e),
             snd (fst (Page_Has cl tryTraceQuery evalHelper (S fuel) pg
                         selector w1))))
    /\ (forall w1,
          none_has cl tryTraceQuery evalHelper (S fuel) ps selector w
            = Some w1 ->
          fst (Pages_Find cl tryTraceQuery evalHelper ErrPageNotFound (S fuel)
                 ps selector w)
          = (Ret (None, Some ErrPageNotFound), w1)).
Proof.
  intros W cl tq eh epnf selector fuel ps w.
  split; [|split; [|split; [|split; [|split]]]].
  - apply Pages_Find_run.
  - reflexivity.
  - intros pg Hres. exact (Pages_Find_found cl tq eh epnf selector fuel ps w Hres).
  - intros pre pg post w1 el Hps Hn Hh. subst ps.
    rewrite (Pages_Find_skip cl tq eh epnf selector fuel pre (pg :: post) w Hn).
    cbn [Pages_Find]. unfold bind.
    destruct (Page_Has cl tq eh (S fuel) pg selector w1) as [[r1 w2] t1].
    cbn [fst snd] in Hh |- *. subst r1. reflexivity.
  - intros pre pg post w1 has el e Hps Hn Hh. subst ps.
    rewrite (Pages_Find_skip cl tq eh epnf selector fuel pre (pg :: post) w Hn).
    cbn [Pages_Find]. unfold bind.
    destruct (Page_Has cl tq eh (S fuel) pg selector w1) as [[r1 w2] t1].
    cbn [fst snd] in Hh |- *. subst r1. reflexivity.
  - intros w1 Hn.
    pose proof (Pages_Find_skip cl tq eh epnf selector fuel ps [] w Hn) as H.
    rewrite app_nil_r in H. rewrite H. reflexivity.
Qed.

Lemma Pages_Find_first_match_witness :
  fst (Pages_Find Fixture.only_second_tab Fixture.no_trace Fixture.helper
         Fixture.page_not_found 1
         [Fixture.tab 1; Fixture.tab 2; Fixture.tab 3] "a" 0%nat)
  = (Ret (Some (Fixture.tab 2), None), 0%nat).
Proof.
  exact (proj1 (proj2 (proj2 (proj2
           (@Pages_Find_first_match nat Fixture.only_second_tab
              Fixture.no_trace Fixture.helper Fixture.page_not_found "a"
              0%nat [Fixture.tab 1; Fixture.tab 2; Fixture.tab 3] 0%nat))))
           [Fixture.tab 1] (Fixture.tab 2) [Fixture.tab 3] 0%nat
           (Some (Element_Sleeper
                    (Scenario.handle
                       (Page_Sleeper (Fixture.tab 2) NotFoundSleeper)
                       (Scenario.node_object "n"))
                    (sleeper (Fixture.tab 2))))
           eq_refl eq_refl eq_refl).
Defined.

Section ListFacts.

Context {A : Type}.

Lemma index_last (els : list A) (x : A) :
  index (els ++ [x]) (Z.of_nat (List.length (els ++ [x])) - 1) = Ret x.
Proof.
  unfold index. rewrite length_app. cbn [List.length].
  destruct (Z.ltb_spec (Z.of_nat (List.length els + 1) - 1) 0); [lia|].
  replace (Z.to_nat (Z.of_nat (List.length els + 1) - 1))
    with (List.length els) by lia.
  rewrite nth_error_app2 by lia. rewrite Nat.sub_diag. reflexivity.
Qed.

End ListFacts.

(** X15: Elements.First, Elements.Last, Pages.First and Pages.Last never
    index out of range: on the empty list they return nil, and otherwise
    First returns the element at the head of the list and Last the one at
    its end; Empty says whether the list has no element. *)
Theorem First_Last_in_range :
  forall (A : Type) (els : list A),
    (Empty els = true <-> els = [])
    /\ First_ els = Ret (hd_error els)
    /\ (els = [] -> Last_ els = Ret None)
    /\ (forall pre x, els = pre ++ [x] -> Last_ els = Ret (Some x))
    /\ (forall x, els = [x] -> First_ els = Last_ els).
Proof.
  intros A els.
  assert (HE : forall l : list A, Empty l = true <-> l = []).
  { intros l. unfold Empty. destruct l; cbn; split; intros H;
      try reflexivity; try discriminate; lia. }
  assert (HL : forall (pre : list A) (x : A), Last_ (pre ++ [x]) = Ret (Some x)).
  { intros pre x. unfold Last_.
    destruct (Empty (pre ++ [x])) eqn:E.
    - apply HE in E. destruct pre; discriminate.
    - rewrite index_last. reflexivity. }
  split; [apply HE|]. split; [|split; [|split]].
  - destruct els; reflexivity.
  - intros ->. reflexivity.
  - intros pre x ->. apply HL.
  - intros x ->. change [x] with ([] ++ [x]) at 2. rewrite (HL [] x). reflexivity.
Qed.

Lemma First_Last_in_range_witness :
  Last_ [1%Z; 2%Z; 3%Z] = Ret (Some 3%Z).
Proof.
  apply (proj1 (proj2 (proj2 (proj2 (@First_Last_in_range Z [1%Z; 2%Z; 3%Z]))))
           [1%Z; 2%Z] 3%Z).
  reflexivity.
Defined.

(** ** More on the race *)

Section utilsRetryMore.

Context {W C : Type}.
Variable c0 : context.
Variable s : utils_Sleeper W.
Variable fn : C -> M W (bool * option error * C).

(** The unbounded loop returns only through a round that says stop or
    through a wait that fails.  [I] is a property of the captured variables
    that rounds which do not stop keep. *)
Lemma utils_Retry_returns (I : C -> Prop) :
  (forall c w err c1,
      I c -> fst (fst (fn c w)) = Ret (false, err, c1) -> I c1) ->
  forall (n : nat) (c : C) (w : W) err c',
    I c ->
    fst (fst (utils_Retry n c0 s fn c w)) = Ret (err, c') ->
    (exists c1 w1,
        I c1 /\ fst (fst (fn c1 w1)) = Ret (true, err, c')
        /\ In (EvFn (Some (true, err)) (snd (fn c1 w1)))
             (snd (utils_Retry n c0 s fn c w)))
    \/ (I c' /\ exists e t0,
          err = Some e
          /\ snd (utils_Retry n c0 s fn c w) = t0 ++ [EvSleep (Some e)]).
Proof.
  intros Hpres. induction n as [|m IH]; intros c w err c' Hc E.
  - cbn in E. discriminate.
  - rewrite utils_Retry_S in E |- *.
    pose proof (Hpres c w) as Hstep.
    destruct (fn c w) as [[r1 w1] t1] eqn:E1.
    destruct r1 as [[[stop err1] c1] | pk | ]; cbn in Hstep.
    + destruct stop.
      * cbn in E. inversion E; subst. left. exists c, w. rewrite E1.
        cbn. auto.
      * specialize (Hstep _ _ Hc eq_refl).
        destruct (s c0 w1) as [[e1|] w2].
        -- cbn in E. inversion E; subst. right. split; [exact Hstep|].
           exists e1, [EvFn (Some (false, err1)) t1]. auto.
        -- specialize (IH c1 w2 err c' Hstep).
           destruct (utils_Retry m c0 s fn c1 w2) as [[r3 w3] t3].
           cbn in E, IH |- *.
           destruct (IH E) as [(c2 & w4 & H1 & H2 & H3)
                              |(Hi & e & t0 & He & Ht)].
           { left. exists c2, w4. auto. }
           right. split; [exact Hi|].
           exists e, (EvFn (Some (false, err1)) t1 :: EvSleep None :: t0).
           rewrite Ht. auto.
    + cbn in E. discriminate.
    + cbn in E. discriminate.
Qed.

(** A wait that fails is the last thing the loop does, and the loop
    returns that failure. *)
Lemma utils_Retry_wait_fails (I : C -> Prop) :
  (forall c w err c1,
      I c -> fst (fst (fn c w)) = Ret (false, err, c1) -> I c1) ->
  forall (n : nat) (c : C) (w : W) e,
    I c ->
    In (EvSleep (Some e)) (snd (utils_Retry n c0 s fn c w)) ->
    exists c' t0,
      I c'
      /\ fst (fst (utils_Retry n c0 s fn c w)) = Ret (Some e, c')
      /\ snd (utils_Retry n c0 s fn c w) = t0 ++ [EvSleep (Some e)].
Proof.
  intros Hpres. induction n as [|m IH]; intros c w e Hc Hin.
  - cbn in Hin. contradiction.
  - rewrite utils_Retry_S in Hin |- *.
    pose proof (Hpres c w) as Hstep.
    destruct (fn c w) as [[r1 w1] t1].
    destruct r1 as [[[stop err1] c1] | pk | ]; cbn in Hstep.
    + destruct stop.
      * cbn in Hin. destruct Hin as [Hin|[]]. discriminate.
      * specialize (Hstep _ _ Hc eq_refl).
        destruct (s c0 w1) as [[e1|] w2].
        -- cbn in Hin |- *. destruct Hin as [Hin|[Hin|[]]]; [discriminate|].
           inversion Hin; subst.
           exists c1, [EvFn (Some (false, err1)) t1]. auto.
        -- specialize (IH c1 w2 e Hstep).
           destruct (utils_Retry m c0 s fn c1 w2) as [[r3 w3] t3].
           cbn in Hin, IH |- *.
           destruct Hin as [Hin|[Hin|Hin]]; try discriminate.
           destruct (IH Hin) as (c' & t0 & Hi & Hr & Ht).
           exists c', (EvFn (Some (false, err1)) t1 :: EvSleep None :: t0).
           rewrite Ht. auto.
    + cbn in Hin. destruct Hin as [Hin|[]]. discriminate.
    + cbn in Hin. destruct Hin as [Hin|[]]. discriminate.
Qed.

End utilsRetryMore.

(** X16: RaceContext.Do never returns nil and nil.  When it returns, either
    it returns an element, and then there is a branch whose condition
    answered that element without error, in a store in which the conditions
    of all the branches before it had answered not-found; the element comes
    bound to the Sleeper of the page, with the error of the callback of that
    branch (nil without a callback), and that tick is the last thing Do did.
    Or it returns no element and an error, which is the error a condition
    answered, not of the not-found classification, after not-found answers
    of the branches before it, or the failure of the Sleeper. *)
Theorem Do_returns_element_or_error :
  forall (W : Type) (rc : RaceContext W) (fuel : nat) (w : W)
         (el : option (Element W)) (err : option error),
    fst (fst (Do fuel rc w)) = Ret (el, err) ->
    (exists pre b post w0 rs w1 bEl w2 t0,
        branches rc = pre ++ b :: post
        /\ nth_error (branches rc) (List.length pre) = Some b
        /\ eval_conditions (rc_page rc) pre w0 = (rs, w1)
        /\ forallb not_found_answer rs = true
        /\ condition b (Page_Sleeper (rc_page rc) NotFoundSleeper) w1
           = ((Some bEl, None), w2)
        /\ el = Some (Element_Sleeper bEl (sleeper (rc_page rc)))
        /\ err = fst (callback_run b
                        (Element_Sleeper bEl (sleeper (rc_page rc))) w2)
        /\ (callback b = None -> err = None)
        /\ snd (Do fuel rc w)
           = t0 ++
             [EvFn (Some (true, err))
                (cond_events 0 rs ++
                 EvCondition (List.length pre) (Some bEl, None) ::
                 callback_events b (List.length pre)
                   (Element_Sleeper bEl (sleeper (rc_page rc))) err)])
    \/ (el = None
        /\ exists e,
             err = Some e
             /\ ((errors_Is e IsElementNotFound = false
                  /\ (exists r inner i x,
                         In (EvFn r inner) (snd (Do fuel rc w))
                         /\ In (EvCondition i (x, Some e)) inner)
                  /\ (exists pre b post w0 rs w1 x w2,
                         branches rc = pre ++ b :: post
                         /\ eval_conditions (rc_page rc) pre w0 = (rs, w1)
                         /\ forallb not_found_answer rs = true
                         /\ condition b
                              (Page_Sleeper (rc_page rc) NotFoundSleeper) w1
                            = ((x, Some e), w2)))
                 \/ exists t0, snd (Do fuel rc w) = t0 ++ [EvSleep (Some e)])).
Proof.
  intros W rc fuel w el err Hres.
  assert (HU : fst (fst (utils_Retry fuel (ctx (rc_page rc))
                           (sleeper (rc_page rc))
                           (race_tick (rc_page rc) (branches rc) 0) None w))
               = Ret (err, el)).
  { rewrite Do_run in Hres.
    destruct (utils_Retry fuel (ctx (rc_page rc)) (sleeper (rc_page rc))
                (race_tick (rc_page rc) (branches rc) 0) None w)
      as [[r w1] t].
    destruct r as [[err0 el0] | pk | ]; try discriminate.
    inversion Hres; subst. reflexivity. }
  rewrite Do_trace.
  assert (Hpres : forall c w2 e c1,
             c = None ->
             fst (fst (race_tick (rc_page rc) (branches rc) 0 c w2))
             = Ret (false, e, c1) -> c1 = None).
  { intros c w2 e c1 -> Hk. exact (race_tick_keeps _ _ _ _ _ Hk). }
  destruct (@utils_Retry_returns W _ (ctx (rc_page rc))
              (sleeper (rc_page rc))
              (race_tick (rc_page rc) (branches rc) 0) (fun c => c = None)
              Hpres fuel None w err el eq_refl HU)
    as [(c1 & w2 & Hc1 & Hrun & Hin)|(Hel & e & t0 & He & Ht)].
  - subst c1.
    destruct (@utils_Retry_stop W _ (ctx (rc_page rc)) (sleeper (rc_page rc))
                (race_tick (rc_page rc) (branches rc) 0) (fun c => c = None)
                Hpres fuel None w err _ eq_refl Hin)
      as (_ & _ & _ & t0 & _ & _ & _ & _ & Hlast).
    destruct (eval_conditions_cases (rc_page rc) (branches rc) w2)
      as [(rs & w3 & E & Hnf)
         |(pre & b & post & rs & w3 & ans & w4 & Hbs & E & Hnf & Hc & Ha)].
    + rewrite (race_tick_nobody (rc_page rc) (branches rc) 0 None w2 E Hnf)
        in Hrun.
      cbn in Hrun. discriminate.
    + pose proof (race_tick_first_answer rc pre b post None w2 Hbs E Hnf Hc Ha)
        as Et.
      rewrite Et in Hrun, Hlast, Hin.
      destruct ans as [[bEl|] [e|]]; cbn [fst snd] in Hrun, Hlast, Hin.
      * right. inversion Hrun; subst. split; [reflexivity|].
        exists e. split; [reflexivity|]. left.
        split; [exact Ha|]. split.
        -- eexists _, _, (List.length pre), (Some bEl).
           split; [exact Hin|]. apply in_or_app. right. left. reflexivity.
        -- exists pre, b, post, w2, rs, w3, (Some bEl), w4. auto.
      * left. inversion Hrun; subst.
        exists pre, b, post, w2, rs, w3, bEl, w4, t0.
        split; [exact Hbs|].
        split; [rewrite Hbs, nth_error_app2, Nat.sub_diag;
                [reflexivity|lia]|].
        split; [exact E|]. split; [exact Hnf|]. split; [exact Hc|].
        split; [reflexivity|]. split; [reflexivity|].
        split; [intros Hcb; unfold callback_run; rewrite Hcb; reflexivity|].
        exact Hlast.
      * right. inversion Hrun; subst. split; [reflexivity|].
        exists e. split; [reflexivity|]. left.
        split; [exact Ha|]. split.
        -- eexists _, _, (List.length pre), None.
           split; [exact Hin|]. apply in_or_app. right. left. reflexivity.
        -- exists pre, b, post, w2, rs, w3, None, w4. auto.
      * discriminate.
  - right. split; [exact Hel|]. exists e. split; [exact He|]. right.
    exists t0. exact Ht.
Qed.

Lemma Do_returns_element_or_error_witness :
  exists pre b post w0 rs w1 bEl w2 t0,
    branches Fixture.second_of_three = pre ++ b :: post
    /\ nth_error (branches Fixture.second_of_three) (List.length pre) = Some b
    /\ eval_conditions (rc_page Fixture.second_of_three) pre w0 = (rs, w1)
    /\ forallb not_found_answer rs = true
    /\ condition b
         (Page_Sleeper (rc_page Fixture.second_of_three) NotFoundSleeper) w1
       = ((Some bEl, None), w2)
    /\ Some (Scenario.found "B")
       = Some (Element_Sleeper bEl
                 (sleeper (rc_page Fixture.second_of_three)))
    /\ Some (ErrOther "callback")
       = fst (callback_run b
                (Element_Sleeper bEl
                   (sleeper (rc_page Fixture.second_of_three))) w2)
    /\ (callback b = None -> Some (ErrOther "callback") = None)
    /\ snd (Do 2 Fixture.second_of_three 0%nat)
       = t0 ++
         [EvFn (Some (true, Some (ErrOther "callback")))
            (cond_events 0 rs ++
             EvCondition (List.length pre) (Some bEl, None) ::
             callback_events b (List.length pre)
               (Element_Sleeper bEl
                  (sleeper (rc_page Fixture.second_of_three)))
               (Some (ErrOther "callback")))].
Proof.
  destruct (@Do_returns_element_or_error nat Fixture.second_of_three
              2%nat 0%nat (Some (Scenario.found "B"))
              (Some (ErrOther "callback")) eq_refl) as [H|[H _]].
  - exact H.
  - discriminate H.
Defined.

Section DoWaits.

Context {W C : Type}.
Variable c0 : context.
Variable s : utils_Sleeper W.
Variable fn : C -> M W (bool * option error * C).

(** A loop that returns recorded no round that did not return. *)
Lemma utils_Retry_no_broken_round (n : nat) :
  forall (c : C) (w : W) inner x,
    In (EvFn None inner) (snd (utils_Retry n c0 s fn c w)) ->
    fst (fst (utils_Retry n c0 s fn c w)) <> Ret x.
Proof.
  induction n as [|m IH]; intros c w inner x Hin.
  - cbn in Hin. contradiction.
  - rewrite utils_Retry_S in Hin |- *.
    destruct (fn c w) as [[r1 w1] t1].
    destruct r1 as [[[stop err1] c1] | pk | ]; try (cbn; discriminate).
    destruct stop.
    + cbn in Hin. destruct Hin as [Hin|[]]. discriminate.
    + destruct (s c0 w1) as [[e1|] w2].
      * cbn in Hin. destruct Hin as [Hin|[Hin|[]]]; discriminate.
      * specialize (IH c1 w2 inner x).
        destruct (utils_Retry m c0 s fn c1 w2) as [[r3 w3] t3].
        cbn in Hin, IH |- *.
        destruct Hin as [Hin|[Hin|Hin]]; try discriminate. auto.
Qed.

End DoWaits.

(** X17: when a wait on the Sleeper of the page fails during
    RaceContext.Do (the context was cancelled, say), that wait is the last
    thing Do does, and Do returns no element and that failure; in every
    tick before it the condition of every branch was evaluated, in order,
    and answered not-found, and no callback was called. *)
Theorem Do_wait_failure_aborts :
  forall (W : Type) (rc : RaceContext W) (fuel : nat) (w : W) (e : error),
    In (EvSleep (Some e)) (snd (Do fuel rc w)) ->
    fst (fst (Do fuel rc w)) = Ret (None, Some e)
    /\ (exists t0, snd (Do fuel rc w) = t0 ++ [EvSleep (Some e)])
    /\ (forall r inner,
          In (EvFn r inner) (snd (Do fuel rc w)) ->
          r = Some (false, None)
          /\ exists rs,
               inner = cond_events 0 rs
               /\ List.length rs = List.length (branches rc)
               /\ Forall (fun a => not_found_answer a = true) rs)
    /\ forall fuel', (fuel <= fuel')%nat -> Do fuel' rc w = Do fuel rc w.
Proof.
  intros W rc fuel w e Hin.
  assert (Hpres : forall c w2 e0 c1,
             c = None ->
             fst (fst (race_tick (rc_page rc) (branches rc) 0 c w2))
             = Ret (false, e0, c1) -> c1 = None).
  { intros c w2 e0 c1 -> Hk. exact (race_tick_keeps _ _ _ _ _ Hk). }
  assert (Hmain : fst (fst (Do fuel rc w)) = Ret (None, Some e)
                  /\ exists t0, snd (Do fuel rc w) = t0 ++ [EvSleep (Some e)]).
  { rewrite Do_trace in Hin. rewrite Do_run.
    destruct (@utils_Retry_wait_fails W _ (ctx (rc_page rc))
                (sleeper (rc_page rc))
                (race_tick (rc_page rc) (branches rc) 0) (fun c => c = None)
                Hpres fuel None w e eq_refl Hin)
      as (c' & t0 & Hc' & Hres & Ht).
    destruct (utils_Retry fuel (ctx (rc_page rc)) (sleeper (rc_page rc))
                (race_tick (rc_page rc) (branches rc) 0) None w)
      as [[r w1] t].
    cbn [fst snd] in Hres, Ht |- *. subst r c'. split; [reflexivity|].
    exists t0. exact Ht. }
  destruct Hmain as [Hres [t0 Ht]].
  split; [exact Hres|]. split; [exists t0; exact Ht|]. split.
  - intros r inner Hfn.
    destruct (Do_ticks rc fuel w r inner Hfn) as (el0 & res & Ho & Hr).
    destruct Ho as [rs Hf Hl | rs b bEl cberr Hf Hn Hcb | rs x e1 Hf Hl He
                   | rs Hf Hl].
    + cbn in Hr. split; [exact Hr|]. exists rs. auto.
    + exfalso. cbn in Hr. rewrite Hr in Hfn.
      destruct (Do_stop rc fuel w cberr _ Hfn) as (_ & _ & t1 & _ & _ & _ & Hl).
      rewrite Ht in Hl. apply app_inj_tail in Hl. destruct Hl as [_ Hl].
      discriminate.
    + exfalso. cbn in Hr. rewrite Hr in Hfn.
      destruct (Do_stop rc fuel w (Some e1) _ Hfn)
        as (_ & _ & t1 & _ & _ & _ & Hlast).
      rewrite Ht in Hlast. apply app_inj_tail in Hlast.
      destruct Hlast as [_ Hlast]. discriminate.
    + exfalso. cbn in Hr. rewrite Hr in Hfn.
      rewrite Do_trace in Hfn. rewrite Do_run in Hres.
      pose proof (@utils_Retry_no_broken_round W _ (ctx (rc_page rc))
                    (sleeper (rc_page rc))
                    (race_tick (rc_page rc) (branches rc) 0) fuel None w _
                    (Some e, None) Hfn) as Hno.
      destruct (utils_Retry fuel (ctx (rc_page rc)) (sleeper (rc_page rc))
                  (race_tick (rc_page rc) (branches rc) 0) None w)
        as [[r1 w1] t1].
      destruct r1 as [[err0 el1] | pk | ]; try discriminate.
      cbn in Hres, Hno. inversion Hres; subst. congruence.
  - intros fuel' Hle. apply Do_mono; [|exact Hle]. rewrite Hres. discriminate.
Qed.

Lemma Do_wait_failure_aborts_witness :
  fst (fst (Do 1 Fixture.cancelled_race 0%nat)) = Ret (None, Some ErrCanceled)
  /\ (exists t0, snd (Do 1 Fixture.cancelled_race 0%nat)
                 = t0 ++ [EvSleep (Some ErrCanceled)])
  /\ (forall r inner,
        In (EvFn r inner) (snd (Do 1 Fixture.cancelled_race 0%nat)) ->
        r = Some (false, None)
        /\ exists rs,
             inner = cond_events 0 rs
             /\ List.length rs = List.length (branches Fixture.cancelled_race)
             /\ Forall (fun a => not_found_answer a = true) rs)
  /\ forall fuel', (1 <= fuel')%nat ->
        Do fuel' Fixture.cancelled_race 0%nat
        = Do 1 Fixture.cancelled_race 0%nat.
Proof.
  apply (@Do_wait_failure_aborts nat Fixture.cancelled_race 1%nat 0%nat
           ErrCanceled).
  cbn. right. left. reflexivity.
Defined.

Section BuilderFacts.

Context {W : Type}.

Lemma set_callback_last (l : list (raceBranch W)) (b : raceBranch W)
  (cb : option (Element W -> Act W (option error))) :
  set_callback (l ++ [b]) (List.length l) cb
  = Some (l ++ [{| condition := condition b; callback := cb |}]).
Proof.
  induction l as [|a l IH]; cbn; [reflexivity|]. rewrite IH. reflexivity.
Qed.

(** Handle on a race whose last branch is [b]. *)
Lemma Handle_last (p : Page W) (l : list (raceBranch W)) (b : raceBranch W)
  (cb : option (Element W -> Act W (option error))) :
  Handle {| rc_page := p; branches := l ++ [b] |} cb
  = Ret {| rc_page := p;
           branches := l ++ [{| condition := condition b; callback := cb |}] |}.
Proof.
  unfold Handle. cbn [branches rc_page].
  rewrite length_app. cbn [List.length].
  replace (Z.of_nat (List.length l + 1) - 1)%Z
    with (Z.of_nat (List.length l)) by lia.
  destruct (Z.ltb_spec (Z.of_nat (List.length l)) 0); [lia|].
  rewrite Nat2Z.id, set_callback_last. reflexivity.
Qed.

End BuilderFacts.

(** X18: the builder chain of a race never panics once a branch is
    registered: Handle right after ElementFunc gives the race with the
    branches it had, in their order, followed by the new branch with that
    callback; and a second Handle replaces the callback that the first one
    set, leaving everything else as it is. *)
Theorem Handle_after_ElementFunc :
  forall (W : Type) (rc : RaceContext W)
         (fn : Page W -> Act W (option (Element W) * option error))
         (cb1 cb2 : option (Element W -> Act W (option error))),
    Handle (ElementFunc rc fn) cb1
    = Ret {| rc_page := rc_page rc;
             branches :=
               branches rc ++ [{| condition := fn; callback := cb1 |}] |}
    /\ (forall rc1,
          Handle (ElementFunc rc fn) cb1 = Ret rc1 ->
          Handle rc1 cb2 = Handle (ElementFunc rc fn) cb2)
    /\ Handle (Race (rc_page rc)) cb1 = Panicked IndexOutOfRange.
Proof.
  intros W rc fn cb1 cb2.
  assert (H : forall cb,
             Handle (ElementFunc rc fn) cb
             = Ret {| rc_page := rc_page rc;
                      branches :=
                        branches rc
                        ++ [{| condition := fn; callback := cb |}] |}).
  { intros cb. unfold ElementFunc. rewrite Handle_last. reflexivity. }
  split; [apply H|]. split; [|reflexivity].
  intros rc1 E. rewrite H in E. inversion E; subst rc1.
  rewrite Handle_last, H. reflexivity.
Qed.

Lemma Handle_after_ElementFunc_witness :
  Handle {| rc_page := Scenario.pg;
            branches :=
              [{| condition := condition (Scenario.finds "A");
                  callback := Scenario.complain |}] |} Fixture.content
  = Handle (ElementFunc (Race Scenario.pg) (condition (Scenario.finds "A")))
      Fixture.content.
Proof.
  apply (proj1 (proj2 (@Handle_after_ElementFunc nat (Race Scenario.pg)
                         (condition (Scenario.finds "A"))
                         Scenario.complain Fixture.content))).
  reflexivity.
Defined.
